(** * github-stats: cache, aggregation and request parameters of [src/main.ts]

    A shallow embedding of the TypeScript program.  The module-level [cache]
    map, the clock read by [Date.now()], the requests issued through the
    Octokit client and the warnings printed are the components of a [World]
    that every function threads; a rejected promise or a thrown exception is
    the [Throw] outcome.  The remote API is a record of responses, one per
    request, as a test double of the client would provide them. *)

From Stdlib Require Import ZArith List Ascii String Floats Sorted Permutation.
From stdpp Require Import gmap strings list.

Local Open Scope string_scope.
Local Open Scope Z_scope.

(** ** Values *)

(** A JavaScript number is an IEEE 754 binary64 value, a [float].

    An ordinary object used as a dictionary from language names to numbers
    ([LanguageStats], and the body of a [listLanguages] response) is the
    list of its own properties, in the order in which [Object.entries]
    enumerates them.  Language names are not names that an object inherits
    ([constructor], [toString], ...), so that [o[k]] reads an own property
    or [undefined]. *)
Abbreviation Obj := (list (string * float)) (only parsing).

(** The fields of the REST resources that the program reads.  Integer
    counts are far below 2^53, where arithmetic on numbers is exact integer
    arithmetic. *)
Record User := {
  login : string;
  name : option string;            (* string | null *)
  public_repos : Z;
  followers : Z;
  following : Z;
}.

Record Repo := {
  repo_name : string;              (* repo.name *)
  owner_login : string;            (* repo.owner.login *)
  private : bool;
  fork : bool;
  stargazers_count : option Z;     (* number | undefined *)
  forks_count : option Z;          (* number | undefined *)
}.

(** An element of a search result page; only the number of them is read. *)
Abbreviation SearchItem := Z (only parsing).

(** [interface UserStats]; [st_] marks the four fields whose names the
    profile has too. *)
Record UserStats := {
  st_username : string;
  st_name : string;
  totalStars : Z;
  totalForks : Z;
  totalRepos : Z;
  publicRepos : Z;
  privateRepos : Z;
  st_followers : Z;
  st_following : Z;
  totalCommits : Z;
  totalIssues : Z;
  totalPRs : Z;
}.

(** [data: any] of a cache entry: the three kinds of object the program
    stores.  All of them are objects, hence truthy. *)
Inductive any :=
  | VUser (u : User)
  | VUserStats (s : UserStats)
  | VLanguageStats (l : Obj).

Record CacheEntry := { data : any; timestamp : Z }.

(** ** Objects as dictionaries *)

(** A property name that is an array index, the canonical decimal string of
    an integer below 2^32 - 1: such properties are enumerated first, in
    ascending numeric order; all others follow in creation order. *)
Definition is_digit (c : ascii) : bool :=
  let n := nat_of_ascii c in ((48 <=? n)%nat && (n <=? 57)%nat)%bool.

Fixpoint digits_value (s : string) (acc : N) : option N :=
  match s with
  | EmptyString => Some acc
  | String c s' =>
      if is_digit c then digits_value s' (10 * acc + (N_of_ascii c - 48))%N else None
  end.

Definition array_index (s : string) : option N :=
  match s with
  | EmptyString => None
  | String c s' =>
      if (bool_decide (c = "0"%char) && negb (bool_decide (s' = "")))%bool then None
      else match digits_value s 0%N with
           | Some n => if (n <? 2 ^ 32 - 1)%N then Some n else None
           | None => None
           end
  end.

(** [o[k]] *)
Fixpoint obj_get (k : string) (o : Obj) : option float :=
  match o with
  | [] => None
  | (k', v) :: o' => if bool_decide (k' = k) then Some v else obj_get k o'
  end.

Fixpoint obj_replace (k : string) (v : float) (o : Obj) : Obj :=
  match o with
  | [] => []
  | (k', v') :: o' =>
      if bool_decide (k' = k) then (k, v) :: o' else (k', v') :: obj_replace k v o'
  end.

Fixpoint obj_add_index (i : N) (k : string) (v : float) (o : Obj) : Obj :=
  match o with
  | [] => [(k, v)]
  | (k', v') :: o' =>
      match array_index k' with
      | Some j => if (j <? i)%N then (k', v') :: obj_add_index i k v o' else (k, v) :: o
      | None => (k, v) :: o
      end
  end.

(** [o[k] = v]: an existing property keeps its place. *)
Definition obj_set (k : string) (v : float) (o : Obj) : Obj :=
  match obj_get k o with
  | Some _ => obj_replace k v o
  | None =>
      match array_index k with
      | Some i => obj_add_index i k v o
      | None => o ++ [(k, v)]
      end
  end.

Definition Object_entries (o : Obj) : list (string * float) := o.
Definition Object_values (o : Obj) : list float := map snd o.
Definition Object_fromEntries (l : list (string * float)) : Obj :=
  fold_left (λ o '(k, v), obj_set k v o) l [].

(** ** Numbers *)

(** Truthiness of a number: [0], [-0] and [NaN] are falsy. *)
Definition truthy (x : float) : bool := negb (PrimFloat.eqb x 0 || is_nan x).

(** [a || b] where [a] is a number or [undefined]. *)
Definition or_number (a : option float) (b : float) : float :=
  match a with
  | Some x => if truthy x then x else b
  | None => b
  end.

(** The strings that [Number.prototype.toFixed] returns, by their parts
    rather than their characters: ["NaN"], ["Infinity"] with its sign, a
    sign and the decimal digits of [n] with the point before the last [f]
    of them, and, from 1e21 on, a sign and [ToString] of the magnitude. *)
Inductive NumberString :=
  | Str_NaN
  | Str_Infinity (neg : bool)
  | Str_fixed (neg : bool) (n : N) (f : nat)
  | Str_toString (neg : bool) (x : float).

(** The integer [n] for which [n / 10^f - m * 2^e] is as close to zero as
    possible, the larger one if there are two. *)
Definition nearest_scaled (m : positive) (e : Z) (f : nat) : N :=
  Z.to_N (if 0 <=? e then Z.pos m * 2 ^ e * 10 ^ Z.of_nat f
          else (2 * Z.pos m * 10 ^ Z.of_nat f + 2 ^ (- e)) / 2 ^ (- e + 1)).

Definition toFixed (x : float) (fractionDigits : nat) : NumberString :=
  match Prim2SF x with
  | S754_nan => Str_NaN
  | S754_infinity s => Str_Infinity s
  | S754_zero _ => Str_fixed false 0 fractionDigits
  | S754_finite s m e =>
      if (1e21 <=? abs x)%float then Str_toString s (abs x)
      else Str_fixed s (nearest_scaled m e fractionDigits) fractionDigits
  end.

(** [parseFloat] on those strings: the number nearest to the decimal. *)
Definition parseFloat (s : NumberString) : float :=
  match s with
  | Str_NaN => nan
  | Str_Infinity neg => if neg then neg_infinity else infinity
  | Str_fixed neg 0%N _ => if neg then neg_zero else zero
  | Str_fixed neg (Npos n) f =>
      SF2Prim (SFdiv prec emax (S754_finite neg n 0)
                     (S754_finite false (Z.to_pos (10 ^ Z.of_nat f)) 0))
  | Str_toString neg x => if neg then (- x)%float else x
  end.

(** [Array.prototype.sort] with a comparison function.  The algorithm is
    left to the engine but must be stable, and a comparison result of [NaN]
    counts as [+0]; for a consistent comparison function the result is then
    determined, and it is the one of this insertion sort. *)
Section Sort.

Context {A : Type} (comparefn : A → A → float).

Definition SortCompare (x y : A) : float :=
  let v := comparefn x y in if is_nan v then 0%float else v.

Fixpoint sort_insert (x : A) (l : list A) : list A :=
  match l with
  | [] => [x]
  | y :: l' =>
      if (0 <? SortCompare x y)%float then y :: sort_insert x l' else x :: l
  end.

Definition Array_sort (l : list A) : list A := fold_right sort_insert [] l.

End Sort.

(** ** The order of binary64 values

    [rank x] is the exact value of [x] in units of [2^emin], the infinities
    placed beyond every finite value; the comparisons of numbers that are
    not [NaN] are those of their ranks ([ltb_rank], [leb_rank] below). *)
Definition rank (x : spec_float) : Z :=
  match x with
  | S754_zero _ => 0
  | S754_nan => 0
  | S754_infinity s => cond_Zopp s (2 ^ (emax - emin))
  | S754_finite s m e => cond_Zopp s (Z.pos m * 2 ^ (e - emin))
  end.

(** An infinity or a finite non-zero value of sign [s]. *)
Definition nonzero_of_sign (s : bool) (x : spec_float) : Prop :=
  x = S754_infinity s ∨ ∃ m e, x = S754_finite s m e.

(** Zero or a finite non-zero value. *)
Definition SFfinite (x : spec_float) : bool :=
  match x with
  | S754_zero _ | S754_finite _ _ _ => true
  | _ => false
  end.

(** ** The remote API *)

Inductive ApiCall :=
  | UsersGetAuthenticated
  | UsersGetByUsername (username : string)
  | ReposListForAuthenticatedUser        (* per_page 100, affiliation owner, visibility all *)
  | ReposListForUser (username : string) (* per_page 100 *)
  | SearchCommits (q : string)
  | SearchIssues (q : string)
  | ReposListLanguages (owner repo : string).

#[global] Instance ApiCall_eq_dec : EqDecision ApiCall.
Proof. solve_decision. Defined.

Abbreviation error := string (only parsing).

Inductive Response (A : Type) :=
  | Resolved (a : A)
  | Rejected (e : error).
Arguments Resolved {A} a.
Arguments Rejected {A} e.

(** What the client answers.  [octokit.paginate] returns the concatenation
    of all pages, or rejects.  [round_trip] is the time, in milliseconds of
    [Date.now()], that passes while a request is awaited. *)
Record Octokit := {
  users_getAuthenticated : Response User;
  users_getByUsername : string → Response User;
  repos_listForAuthenticatedUser : Response (list Repo);
  repos_listForUser : string → Response (list Repo);
  search_commits : string → Response (list SearchItem);
  search_issues : string → Response (list SearchItem);
  repos_listLanguages : string → string → Response Obj;
  round_trip : ApiCall → Z;
}.

(** ** The world and the monad of the program *)

Record World := {
  cache : gmap string CacheEntry;   (* const cache = new Map(...) *)
  clock : Z;                        (* what Date.now() returns *)
  calls : list ApiCall;             (* requests issued, oldest first *)
  warnings : list string;           (* console.warn *)
}.

Inductive Outcome (A : Type) :=
  | Ok (a : A)
  | Throw (e : error).
Arguments Ok {A} a.
Arguments Throw {A} e.

(** A computation over a state [S]: the world, or the world together with
    the [let] variables that a [try] block assigns. *)
Definition M (S A : Type) : Type := S → Outcome A * S.

#[global] Instance M_ret {S} : MRet (M S) := λ A a s, (Ok a, s).
#[global] Instance M_bind {S} : MBind (M S) := λ A B k m s,
  match m s with
  | (Ok a, s') => k a s'
  | (Throw e, s') => (Throw e, s')
  end.

Definition try_catch {S A} (body : M S A) (handler : error → M S A) : M S A :=
  λ s, match body s with
       | (Ok a, s') => (Ok a, s')
       | (Throw e, s') => handler e s'
       end.

(** [let x = l0; body; ... x ...]: the body runs on the variables and the
    world; what it assigned before an uncaught exception is lost with the
    frame, the world is kept. *)
Definition with_locals {L A} (l0 : L) (body : M (L * World) A) : M World L :=
  λ w, match body (l0, w) with
       | (Ok _, (l, w')) => (Ok l, w')
       | (Throw e, (_, w')) => (Throw e, w')
       end.

Definition lift {L A} (m : M World A) : M (L * World) A :=
  λ '(l, w), let '(r, w') := m w in (r, (l, w')).

Definition assign {L} (f : L → L) : M (L * World) unit :=
  λ '(l, w), (Ok tt, (f l, w)).

Fixpoint for_of {S A} (xs : list A) (body : A → M S unit) : M S unit :=
  match xs with
  | [] => mret tt
  | x :: xs' => body x ;; for_of xs' body
  end.

Definition Date_now : M World Z := λ w, (Ok (clock w), w).

Definition warned (msg : string) (w : World) : World :=
  {| cache := cache w; clock := clock w; calls := calls w; warnings := warnings w ++ [msg] |}.

Definition console_warn (msg : string) : M World unit := λ w, (Ok tt, warned msg w).

Definition cache_get (key : string) : M World (option CacheEntry) :=
  λ w, (Ok (cache w !! key), w).

Definition cache_set (key : string) (entry : CacheEntry) : M World unit :=
  λ w, (Ok tt, {| cache := <[key := entry]> (cache w); clock := clock w;
                  calls := calls w; warnings := warnings w |}).

Section Program.

Variable octokit : Octokit.

(** [await] of a request: it is recorded, time passes, and the promise
    resolves or rejects. *)
Definition requested (c : ApiCall) (w : World) : World :=
  {| cache := cache w; clock := clock w + round_trip octokit c;
     calls := calls w ++ [c]; warnings := warnings w |}.

Definition await {A} (c : ApiCall) (r : Response A) : M World A :=
  λ w, match r with
       | Resolved a => (Ok a, requested c w)
       | Rejected e => (Throw e, requested c w)
       end.

(** ** Cache (lines 32-46) *)

Definition CACHE_DURATION : Z := 3600000.

Definition getFromCache (key : string) : M World (option any) :=
  cached ← cache_get key;
  match cached with
  | Some cached =>
      now ← Date_now;
      if bool_decide (now - timestamp cached < CACHE_DURATION)
      then mret (Some (data cached))
      else mret None
  | None => mret None
  end.

Definition setCache (key : string) (d : any) : M World unit :=
  now ← Date_now;
  cache_set key {| data := d; timestamp := now |}.

(** ** Strings *)

(** [String.prototype.toLowerCase] on the code units of a login: GitHub
    logins are ASCII letters, digits and hyphens, on which the Unicode
    lower-case mapping is this one; other code units are left alone. *)
Definition ascii_toLowerCase (c : ascii) : ascii :=
  let n := nat_of_ascii c in
  if ((65 <=? n)%nat && (n <=? 90)%nat)%bool then ascii_of_nat (n + 32) else c.

Fixpoint toLowerCase (s : string) : string :=
  match s with
  | EmptyString => EmptyString
  | String c s' => String (ascii_toLowerCase c) (toLowerCase s')
  end.

(** [a || b] on [string | null]: the empty string is falsy too. *)
Definition or_string (a : option string) (b : string) : string :=
  match a with
  | Some s => if bool_decide (s = "") then b else s
  | None => b
  end.

(** [cachedAuthUser.login.toLowerCase()]: only a user object has a string
    [login]; on the other objects the method call is a TypeError. *)
Definition login_toLowerCase (v : any) : M World string :=
  match v with
  | VUser u => mret (toLowerCase (login u))
  | _ => λ w, (Throw "TypeError", w)
  end.

(** ** Blocks shared by [getUserStats] and [getLanguageStats] *)

(** Lines 53-68 and, word for word, 151-166: is [username] the owner of
    the token? *)
Definition checkAuthenticatedUser (username : string) : M World bool :=
  cachedAuthUser ← getFromCache "auth-user";
  match cachedAuthUser with
  | Some cachedAuthUser =>
      l ← login_toLowerCase cachedAuthUser;
      mret (bool_decide (l = toLowerCase username))
  | None =>
      with_locals false
        (try_catch
           (authUser ← lift (await UsersGetAuthenticated (users_getAuthenticated octokit));
            assign (λ _, bool_decide (toLowerCase (login authUser) = toLowerCase username));;
            lift (setCache "auth-user" (VUser authUser)))
           (λ _, lift (console_warn "Could not get authenticated user:")))
  end.

(** Lines 74-88 and 169-181: the repository list. *)
Definition listRepos (username : string) (includePrivate isAuthenticatedUser : bool)
  : M World (list Repo) :=
  if (includePrivate && isAuthenticatedUser)%bool
  then await ReposListForAuthenticatedUser (repos_listForAuthenticatedUser octokit)
  else await (ReposListForUser username) (repos_listForUser octokit username).

(** ** [getUserStats] (lines 48-144) *)

Definition userStatsKey (username : string) (includePrivate : bool) : string :=
  "user-stats-" +:+ username +:+ "-" +:+ (if includePrivate then "private" else "public").

(** Lines 97-106. *)
Definition countCommits (username : string) : M World Z :=
  with_locals 0
    (try_catch
       (commits ← lift (await (SearchCommits ("author:" +:+ username))
                              (search_commits octokit ("author:" +:+ username)));
        assign (λ _, Z.of_nat (length commits)))
       (λ _, lift (console_warn "Could not fetch commits:"))).

(** Lines 109-125: [totalIssues] and [totalPRs], assigned in one [try]. *)
Definition countIssuesAndPRs (username : string) : M World (Z * Z) :=
  with_locals (0, 0)
    (try_catch
       (issues ← lift (await (SearchIssues ("author:" +:+ username +:+ " type:issue"))
                             (search_issues octokit ("author:" +:+ username +:+ " type:issue")));
        assign (λ '(_, totalPRs), (Z.of_nat (length issues), totalPRs));;
        prs ← lift (await (SearchIssues ("author:" +:+ username +:+ " type:pr"))
                          (search_issues octokit ("author:" +:+ username +:+ " type:pr")));
        assign (λ '(totalIssues, _), (totalIssues, Z.of_nat (length prs))))
       (λ _, lift (console_warn "Could not fetch issues/PRs:"))).

Definition getUserStats (username : string) (includePrivate : bool) : M World any :=
  let cacheKey := userStatsKey username includePrivate in
  cached ← getFromCache cacheKey;
  match cached with
  | Some cached => mret cached
  | None =>
      isAuthenticatedUser ← checkAuthenticatedUser username;
      user ← await (UsersGetByUsername username) (users_getByUsername octokit username);
      repos ← listRepos username includePrivate isAuthenticatedUser;
      let totalStars := fold_left (λ sum repo, sum + default 0 (stargazers_count repo)) repos 0 in
      let totalForks := fold_left (λ sum repo, sum + default 0 (forks_count repo)) repos 0 in
      let publicRepos := Z.of_nat (length (List.filter (λ repo, negb (private repo)) repos)) in
      let privateRepos := Z.of_nat (length (List.filter (λ repo, private repo) repos)) in
      totalCommits ← countCommits username;
      '(totalIssues, totalPRs) ← countIssuesAndPRs username;
      let stats := {|
        st_username := login user;
        st_name := or_string (name user) (login user);
        totalStars := totalStars;
        totalForks := totalForks;
        totalRepos := Z.of_nat (length repos);
        publicRepos := if includePrivate then publicRepos else public_repos user;
        privateRepos := if includePrivate then privateRepos else 0;
        st_followers := followers user;
        st_following := following user;
        totalCommits := totalCommits;
        totalIssues := totalIssues;
        totalPRs := totalPRs;
      |} in
      setCache cacheKey (VUserStats stats);;
      mret (VUserStats stats)
  end.

(** ** [getLanguageStats] (lines 146-216) *)

Definition langStatsKey (username : string) (includePrivate : bool) : string :=
  "lang-stats-" +:+ username +:+ "-" +:+ (if includePrivate then "private" else "public").

(** Lines 183-200: the bytes of every repository that is not a fork, summed
    per language into the [languages] object. *)
Definition collectLanguages (repos : list Repo) : M World Obj :=
  with_locals ([] : Obj)
    (for_of repos (λ repo,
       if fork repo then mret tt
       else
         try_catch
           (repoLanguages ← lift (await (ReposListLanguages (owner_login repo) (repo_name repo))
                                        (repos_listLanguages octokit (owner_login repo) (repo_name repo)));
            for_of (Object_entries repoLanguages) (λ '(lang, bytes),
              assign (λ languages,
                obj_set lang (or_number (obj_get lang languages) 0 + bytes)%float languages)))
           (λ _, lift (console_warn ("Could not fetch languages for " +:+ repo_name repo +:+ ":"))))).

(** Lines 202-212: bytes to percentages, sorted. *)
Definition totalBytes (languages : Obj) : float :=
  fold_left (λ sum bytes, (sum + bytes)%float) (Object_values languages) 0%float.

Definition percentagesOf (languages : Obj) : Obj :=
  let total := totalBytes languages in
  fold_left (λ percentages '(lang, bytes),
               obj_set lang (parseFloat (toFixed ((bytes / total) * 100)%float 2)) percentages)
            (Object_entries languages) [].

Definition sortedPercentages (languages : Obj) : Obj :=
  Object_fromEntries
    (Array_sort (λ '(_, a) '(_, b), (b - a)%float) (Object_entries (percentagesOf languages))).

Definition getLanguageStats (username : string) (includePrivate : bool) : M World any :=
  let cacheKey := langStatsKey username includePrivate in
  cached ← getFromCache cacheKey;
  match cached with
  | Some cached => mret cached
  | None =>
      isAuthenticatedUser ← checkAuthenticatedUser username;
      repos ← listRepos username includePrivate isAuthenticatedUser;
      languages ← collectLanguages repos;
      let sorted := sortedPercentages languages in
      setCache cacheKey (VLanguageStats sorted);;
      mret (VLanguageStats sorted)
  end.

(** ** [handler] (lines 352-418) *)

Record Request := {
  method : string;
  pathname : string;                       (* new URL(req.url).pathname *)
  searchParams : list (string * string);   (* new URL(req.url).searchParams *)
}.

(** [searchParams.get(name)]: the first value of that name, or [null]. *)
Fixpoint searchParams_get (name : string) (ps : list (string * string)) : option string :=
  match ps with
  | [] => None
  | (k, v) :: ps' => if bool_decide (k = name) then Some v else searchParams_get name ps'
  end.

(** The body of a response, by the value it renders: the two SVG templates
    and [JSON.stringify] are functions of that value alone.  The three CORS
    headers, the same on every response, are left out. *)
Inductive Body :=
  | NullBody
  | StatsSVG (stats : any)
  | LanguagesSVG (languages : any)
  | Json (v : any)
  | JsonError (message : string).

Record HttpResponse := {
  status : Z;
  contentType : option string;
  cacheControl : option string;
  body : Body;
}.

Definition handler_username (req : Request) : string :=
  or_string (searchParams_get "username" (searchParams req)) "elyor04".

Definition handler_includePrivate (req : Request) : bool :=
  bool_decide (searchParams_get "private" (searchParams req) = Some "true").

Definition handler (req : Request) : M World HttpResponse :=
  let username := handler_username req in
  let includePrivate := handler_includePrivate req in
  if bool_decide (method req = "OPTIONS")
  then mret {| status := 200; contentType := None; cacheControl := None; body := NullBody |}
  else
    try_catch
      (if bool_decide (pathname req = "/stats") then
         stats ← getUserStats username includePrivate;
         mret {| status := 200; contentType := Some "image/svg+xml";
                 cacheControl := Some "public, max-age=3600"; body := StatsSVG stats |}
       else if bool_decide (pathname req = "/languages") then
         languages ← getLanguageStats username includePrivate;
         mret {| status := 200; contentType := Some "image/svg+xml";
                 cacheControl := Some "public, max-age=3600"; body := LanguagesSVG languages |}
       else if bool_decide (pathname req = "/api/stats") then
         stats ← getUserStats username includePrivate;
         mret {| status := 200; contentType := Some "application/json";
                 cacheControl := Some "public, max-age=3600"; body := Json stats |}
       else if bool_decide (pathname req = "/api/languages") then
         languages ← getLanguageStats username includePrivate;
         mret {| status := 200; contentType := Some "application/json";
                 cacheControl := Some "public, max-age=3600"; body := Json languages |}
       else
         mret {| status := 404; contentType := Some "application/json";
                 cacheControl := None; body := JsonError "Not found" |})
      (λ error, mret {| status := 500; contentType := Some "application/json";
                        cacheControl := None; body := JsonError error |}).

End Program.

(** The value of [languages] after the loop of lines 185-200, as a
    function of the answers of the client ([collectLanguages_run] below). *)
Definition addLanguages (repoLanguages languages : Obj) : Obj :=
  fold_left (λ languages '(lang, bytes),
               obj_set lang (or_number (obj_get lang languages) 0 + bytes)%float languages)
            repoLanguages languages.

Definition accumulatedLanguages (octokit : Octokit) (repos : list Repo) : Obj :=
  fold_left (λ languages repo,
               if fork repo then languages
               else match repos_listLanguages octokit (owner_login repo) (repo_name repo) with
                    | Resolved repoLanguages => addLanguages repoLanguages languages
                    | Rejected _ => languages
                    end)
            repos [].

(** The requests of that loop: one per repository that is not a fork. *)
Definition languageCalls (repos : list Repo) : list ApiCall :=
  map (λ repo, ReposListLanguages (owner_login repo) (repo_name repo))
      (List.filter (λ repo, negb (fork repo)) repos).

(** The two requests that list repositories. *)
Definition is_listing (c : ApiCall) : bool :=
  match c with
  | ReposListForAuthenticatedUser | ReposListForUser _ => true
  | _ => false
  end.

(** The listing request of lines 75-88 and 170-181. *)
Definition listing (username : string) (includePrivate isAuthenticatedUser : bool) : ApiCall :=
  if (includePrivate && isAuthenticatedUser)%bool
  then ReposListForAuthenticatedUser else ReposListForUser username.

(** The world after [dt] more milliseconds on the clock. *)
Definition elapse (dt : Z) (w : World) : World :=
  {| cache := cache w; clock := clock w + dt; calls := calls w; warnings := warnings w |}.

(** The requests issued between two worlds. *)
Definition issued (w w' : World) : list ApiCall := drop (length (calls w)) (calls w').

(** The client whose commit search answers [r], all else unchanged. *)
Definition with_search_commits (r : string → Response (list SearchItem)) (o : Octokit) : Octokit :=
  {| users_getAuthenticated := users_getAuthenticated o;
     users_getByUsername := users_getByUsername o;
     repos_listForAuthenticatedUser := repos_listForAuthenticatedUser o;
     repos_listForUser := repos_listForUser o;
     search_commits := r;
     search_issues := search_issues o;
     repos_listLanguages := repos_listLanguages o;
     round_trip := round_trip o |}.

(** ** A sample remote API

    The token belongs to [Owner]; [alice] has two public repositories, the
    second one a fork; the issue search is rate-limited while the search
    for pull requests would answer. *)

Definition alice : User :=
  {| login := "alice"; name := None; public_repos := 5; followers := 1; following := 2 |}.

Definition owner : User :=
  {| login := "Owner"; name := Some "The Owner"; public_repos := 1;
     followers := 0; following := 0 |}.

Definition repo1 : Repo :=
  {| repo_name := "r1"; owner_login := "alice"; private := false; fork := false;
     stargazers_count := Some 5; forks_count := Some 1 |}.

Definition repo2 : Repo :=
  {| repo_name := "r2"; owner_login := "alice"; private := false; fork := true;
     stargazers_count := Some 10; forks_count := None |}.

Definition sample_octokit (languages_of_r1 : Obj) : Octokit :=
  {| users_getAuthenticated := Resolved owner;
     users_getByUsername := λ u,
       if bool_decide (u = "alice") then Resolved alice else Rejected "Not Found";
     repos_listForAuthenticatedUser := Resolved [];
     repos_listForUser := λ u,
       if bool_decide (u = "alice") then Resolved [repo1; repo2] else Rejected "Not Found";
     search_commits := λ _, Resolved [1; 2];
     search_issues := λ q,
       if bool_decide (q = "author:alice type:pr") then Resolved [1; 2; 3]
       else Rejected "API rate limit exceeded";
     repos_listLanguages := λ _ repo,
       if bool_decide (repo = "r1") then Resolved languages_of_r1 else Rejected "Not Found";
     round_trip := λ _, 7 |}.

Definition cold_start : World :=
  {| cache := ∅; clock := 1000; calls := []; warnings := [] |}.

(** ** The scheduled refresh (lines 420-424)

    The callback given to [Deno.cron]: the two aggregations for the fixed
    account, with private access, one after the other. *)
Definition refreshJob (octokit : Octokit) : M World unit :=
  getUserStats octokit "elyor04" true ;;
  getLanguageStats octokit "elyor04" true ;;
  mret tt.

(** ** [generateLanguagesSVG] (lines 301-350)

    The markup is a fixed template; the card is given by the values that
    the template interpolates: the two dimensions and, for every entry
    shown, the vertical offset of its group, the fill colour of its circle,
    its name, the horizontal position of its percentage and the percentage. *)
Definition colors : list (string * string) :=
  [("JavaScript", "#f1e05a"); ("TypeScript", "#3178c6"); ("Python", "#3572A5");
   ("Java", "#b07219"); ("C", "#555555"); ("C++", "#f34b7d"); ("C#", "#178600");
   ("Go", "#00ADD8"); ("Rust", "#dea584"); ("Ruby", "#701516"); ("PHP", "#4F5D95");
   ("Swift", "#ffac45"); ("Kotlin", "#A97BFF"); ("Dart", "#00B4AB"); ("HTML", "#e34c26");
   ("CSS", "#563d7c"); ("Shell", "#89e051")].

(** The own properties of [colors]. *)
Fixpoint colors_get (lang : string) (cs : list (string * string)) : option string :=
  match cs with
  | [] => None
  | (k, v) :: cs' => if bool_decide (k = lang) then Some v else colors_get lang cs'
  end.

(** [colors] is an object literal: a name that it does not define is looked
    up in [Object.prototype], whose properties are these ([__proto__] is
    not among them: Deno deletes it from [Object.prototype]). *)
Definition Object_prototype : list string :=
  ["constructor"; "__defineGetter__"; "__defineSetter__"; "hasOwnProperty";
   "__lookupGetter__"; "__lookupSetter__"; "isPrototypeOf"; "propertyIsEnumerable";
   "toString"; "valueOf"; "toLocaleString"].

(** What the template writes into [fill]: a colour, or the text of a
    property of [Object.prototype] (a function, hence truthy). *)
Inductive Fill :=
  | Colour (c : string)
  | Inherited (property : string).

(** [colors[lang] || "#858585"] *)
Definition colors_or_grey (lang : string) : Fill :=
  match colors_get lang colors with
  | Some c => Colour (if bool_decide (c = "") then "#858585" else c)
  | None => if bool_decide (lang ∈ Object_prototype) then Inherited lang else Colour "#858585"
  end.

Record LanguageRow := {
  row_y : Z;               (* translate(25, i * 40) *)
  row_fill : Fill;         (* colors[lang] || "#858585" *)
  row_lang : string;
  row_x : Z;               (* width - 80 *)
  row_percent : float;
}.

Record LanguagesCard := {
  card_width : Z;
  card_height : Z;
  card_rows : list LanguageRow;
}.

Definition generateLanguagesSVG (languages : Obj) : LanguagesCard :=
  let width := 300 in
  let entries := take 8 (Object_entries languages) in
  let height := 45 + Z.of_nat (length entries) * 40 in
  {| card_width := width;
     card_height := height;
     card_rows :=
       imap (λ i '(lang, percent),
               {| row_y := Z.of_nat i * 40;
                  row_fill := colors_or_grey lang;
                  row_lang := lang;
                  row_x := width - 80;
                  row_percent := percent |})
            entries |}.

(** The client whose listings are answered in another order, or in any way
    rearranged by [f]. *)
Definition with_listings (f : list Repo → list Repo) (o : Octokit) : Octokit :=
  {| users_getAuthenticated := users_getAuthenticated o;
     users_getByUsername := users_getByUsername o;
     repos_listForAuthenticatedUser :=
       match repos_listForAuthenticatedUser o with
       | Resolved repos => Resolved (f repos)
       | Rejected e => Rejected e
       end;
     repos_listForUser := λ username,
       match repos_listForUser o username with
       | Resolved repos => Resolved (f repos)
       | Rejected e => Rejected e
       end;
     search_commits := search_commits o;
     search_issues := search_issues o;
     repos_listLanguages := repos_listLanguages o;
     round_trip := round_trip o |}.

(** ** The shapes of the cached values

    The cache is untyped; what keeps a read of the right shape is that
    each kind of key only ever receives one kind of value. *)
Definition cache_typed (w : World) : Prop :=
  (∀ entry, cache w !! "auth-user" = Some entry → ∃ u, data entry = VUser u) ∧
  (∀ username includePrivate entry,
     cache w !! userStatsKey username includePrivate = Some entry →
     ∃ s, data entry = VUserStats s) ∧
  (∀ username includePrivate entry,
     cache w !! langStatsKey username includePrivate = Some entry →
     ∃ l, data entry = VLanguageStats l).

(** * Properties *)

(** ** Cache *)

Lemma getFromCache_run key w :
  getFromCache key w =
  (Ok (match cache w !! key with
       | Some cached =>
           if bool_decide (clock w - timestamp cached < CACHE_DURATION)
           then Some (data cached) else None
       | None => None
       end), w).
Proof.
  unfold getFromCache, cache_get, Date_now, mbind, M_bind, mret, M_ret.
  destruct (cache w !! key) as [cached|]; [|done].
  by case_bool_decide.
Qed.

(** C4: [getFromCache] returns [null] exactly when the key has no entry or
    at least [CACHE_DURATION] = 3600 s have elapsed since the entry was set
    (at exactly that much, it is absent); otherwise it returns the data of
    the entry.  It never throws and leaves the world, hence the map and an
    expired entry in it, as they are. *)
Theorem getFromCache_absent_iff (key : string) (w : World) :
  CACHE_DURATION = 3600 * 1000 ∧
  snd (getFromCache key w) = w ∧
  (fst (getFromCache key w) = Ok None ↔
     cache w !! key = None ∨
     ∃ entry, cache w !! key = Some entry ∧ CACHE_DURATION ≤ clock w - timestamp entry) ∧
  (∀ entry, cache w !! key = Some entry → clock w - timestamp entry < CACHE_DURATION →
     fst (getFromCache key w) = Ok (Some (data entry))).
Proof.
  rewrite getFromCache_run. simpl. split; [done|]. split; [done|]. split.
  - destruct (cache w !! key) as [cached|] eqn:Hk.
    + case_bool_decide as Hlt.
      * split; [done|]. intros [?|(entry & [= <-] & Hge)]; [done|lia].
      * split; [|done]. intros _. right. exists cached. split; [done|lia].
    + split; [|done]. by left.
  - intros entry -> Hlt. by rewrite bool_decide_eq_true_2.
Qed.

(** C8: [setCache(k, v)] followed by [getFromCache(k)] less than
    [CACHE_DURATION] later returns [v]. *)
Theorem setCache_getFromCache (key : string) (v : any) (w : World) (dt : Z) :
  dt < CACHE_DURATION →
  fst (getFromCache key (elapse dt (snd (setCache key v w)))) = Ok (Some v).
Proof.
  intros Hdt. rewrite getFromCache_run.
  unfold setCache, cache_set, Date_now, elapse, mbind, M_bind. simpl.
  rewrite lookup_insert_eq. simpl.
  rewrite bool_decide_eq_true_2; [done|lia].
Qed.

Lemma setCache_getFromCache_witness :
  fst (getFromCache "auth-user" (elapse 3599999 (snd (setCache "auth-user" (VUser owner) cold_start))))
  = Ok (Some (VUser owner)).
Proof. apply setCache_getFromCache. unfold CACHE_DURATION. lia. Defined.

(** ** Traces *)

Lemma issued_app w w' (tr : list ApiCall) :
  calls w' = (calls w ++ tr)%list → issued w w' = tr.
Proof. unfold issued. intros ->. by rewrite drop_app_length. Qed.

Lemma issued_refl w : issued w w = [].
Proof. apply issued_app. by rewrite app_nil_r. Qed.

(** Unfolds the operations of the monad. *)
Ltac unfold_M :=
  unfold mbind, M_bind, mret, M_ret, try_catch, with_locals, lift, assign, await,
    console_warn, setCache, cache_set, Date_now in *.

Section Runs.

Variable octokit : Octokit.

Lemma countCommits_run username w :
  countCommits octokit username w =
  match search_commits octokit ("author:" +:+ username) with
  | Resolved commits =>
      (Ok (Z.of_nat (length commits)),
       requested octokit (SearchCommits ("author:" +:+ username)) w)
  | Rejected _ =>
      (Ok 0, warned "Could not fetch commits:"
               (requested octokit (SearchCommits ("author:" +:+ username)) w))
  end.
Proof. unfold countCommits. unfold_M. by destruct (search_commits _ _). Qed.

Lemma countIssuesAndPRs_run username w :
  let qi := "author:" +:+ username +:+ " type:issue" in
  let qp := "author:" +:+ username +:+ " type:pr" in
  countIssuesAndPRs octokit username w =
  match search_issues octokit qi with
  | Resolved issues =>
      match search_issues octokit qp with
      | Resolved prs =>
          (Ok (Z.of_nat (length issues), Z.of_nat (length prs)),
           requested octokit (SearchIssues qp) (requested octokit (SearchIssues qi) w))
      | Rejected _ =>
          (Ok (Z.of_nat (length issues), 0),
           warned "Could not fetch issues/PRs:"
             (requested octokit (SearchIssues qp) (requested octokit (SearchIssues qi) w)))
      end
  | Rejected _ =>
      (Ok (0, 0), warned "Could not fetch issues/PRs:" (requested octokit (SearchIssues qi) w))
  end.
Proof.
  simpl. unfold countIssuesAndPRs. unfold_M.
  destruct (search_issues _ _); [|done]. by destruct (search_issues _ _).
Qed.

Lemma checkAuthenticatedUser_calls username w :
  ∃ tr : list ApiCall,
    calls (snd (checkAuthenticatedUser octokit username w)) = (calls w ++ tr)%list ∧
    (tr = [] ∨ tr = [UsersGetAuthenticated]).
Proof.
  unfold checkAuthenticatedUser. unfold mbind at 1, M_bind at 1.
  rewrite getFromCache_run.
  destruct (match cache w !! "auth-user" with Some _ => _ | None => _ end) as [[]|].
  1-3: exists []; rewrite app_nil_r; split; [done|by left].
  unfold_M. destruct (users_getAuthenticated octokit); simpl.
  all: exists [UsersGetAuthenticated]; split; [done|by right].
Qed.

Lemma checkAuthenticatedUser_case_insensitive u1 u2 w :
  toLowerCase u1 = toLowerCase u2 →
  checkAuthenticatedUser octokit u1 w = checkAuthenticatedUser octokit u2 w.
Proof. intros H. unfold checkAuthenticatedUser. by rewrite H. Qed.

Lemma getUserStats_miss_inv username includePrivate w v w' :
  fst (getFromCache (userStatsKey username includePrivate) w) = Ok None →
  getUserStats octokit username includePrivate w = (Ok v, w') →
  ∃ isAuthenticatedUser w1 user repos,
    let listing := if (includePrivate && isAuthenticatedUser)%bool
                   then ReposListForAuthenticatedUser else ReposListForUser username in
    let qc := "author:" +:+ username in
    let qi := "author:" +:+ username +:+ " type:issue" in
    let qp := "author:" +:+ username +:+ " type:pr" in
    checkAuthenticatedUser octokit username w = (Ok isAuthenticatedUser, w1) ∧
    users_getByUsername octokit username = Resolved user ∧
    (if (includePrivate && isAuthenticatedUser)%bool
     then repos_listForAuthenticatedUser octokit
     else repos_listForUser octokit username) = Resolved repos ∧
    v = VUserStats {|
      st_username := login user;
      st_name := or_string (name user) (login user);
      totalStars := fold_left (λ sum repo, sum + default 0 (stargazers_count repo)) repos 0;
      totalForks := fold_left (λ sum repo, sum + default 0 (forks_count repo)) repos 0;
      totalRepos := Z.of_nat (length repos);
      publicRepos := if includePrivate
                     then Z.of_nat (length (List.filter (λ repo, negb (private repo)) repos))
                     else public_repos user;
      privateRepos := if includePrivate
                      then Z.of_nat (length (List.filter (λ repo, private repo) repos))
                      else 0;
      st_followers := followers user;
      st_following := following user;
      totalCommits := match search_commits octokit qc with
                      | Resolved commits => Z.of_nat (length commits)
                      | Rejected _ => 0
                      end;
      totalIssues := match search_issues octokit qi with
                     | Resolved issues => Z.of_nat (length issues)
                     | Rejected _ => 0
                     end;
      totalPRs := match search_issues octokit qi, search_issues octokit qp with
                  | Resolved _, Resolved prs => Z.of_nat (length prs)
                  | _, _ => 0
                  end |} ∧
    calls w' = (calls w1 ++ [UsersGetByUsername username; listing; SearchCommits qc; SearchIssues qi]
                ++ match search_issues octokit qi with
                   | Resolved _ => [SearchIssues qp]
                   | Rejected _ => []
                   end)%list.
Proof.
  intros Hmiss Hrun. unfold getUserStats in Hrun.
  unfold mbind at 1, M_bind at 1 in Hrun.
  destruct (getFromCache _ w) as [[[c|]|] w0] eqn:Hc; simpl in Hmiss; try discriminate.
  clear Hmiss. rewrite getFromCache_run in Hc. injection Hc as _ <-.
  unfold mbind at 1, M_bind at 1 in Hrun.
  destruct (checkAuthenticatedUser octokit username w) as [[isAuth|e] w1] eqn:Hauth; [|done].
  exists isAuth, w1.
  unfold mbind at 1, M_bind at 1, await at 1 in Hrun.
  destruct (users_getByUsername octokit username) as [user|e] eqn:Huser; [|done].
  exists user.
  unfold mbind at 1, M_bind at 1, listRepos, await in Hrun.
  destruct (if (includePrivate && isAuth)%bool then repos_listForAuthenticatedUser octokit
            else repos_listForUser octokit username) as [repos|e] eqn:Hrepos.
  2: { by destruct (includePrivate && isAuth)%bool; rewrite Hrepos in Hrun. }
  exists repos. simpl. split; [done|]. split; [done|]. split; [done|].
  destruct (includePrivate && isAuth)%bool eqn:Hb; rewrite Hrepos in Hrun;
  unfold mbind at 1, M_bind at 1 in Hrun; rewrite countCommits_run in Hrun;
  unfold mbind at 1, M_bind at 1 in Hrun;
  pose proof (countIssuesAndPRs_run username) as Hip; simpl in Hip;
  destruct (search_commits octokit _) as [commits|?];
  rewrite Hip in Hrun; clear Hip;
  destruct (search_issues octokit ("author:" +:+ username +:+ " type:issue")) as [issues|?];
  try destruct (search_issues octokit ("author:" +:+ username +:+ " type:pr")) as [prs|?];
  unfold_M; simpl in Hrun; injection Hrun as <- <-; (split; [done|]); simpl;
  by rewrite <- ?app_assoc.
Qed.

Lemma getUserStats_miss_ok username includePrivate w isAuthenticatedUser w1 user repos :
  fst (getFromCache (userStatsKey username includePrivate) w) = Ok None →
  checkAuthenticatedUser octokit username w = (Ok isAuthenticatedUser, w1) →
  users_getByUsername octokit username = Resolved user →
  (if (includePrivate && isAuthenticatedUser)%bool
   then repos_listForAuthenticatedUser octokit
   else repos_listForUser octokit username) = Resolved repos →
  ∃ s w', getUserStats octokit username includePrivate w = (Ok (VUserStats s), w').
Proof.
  intros Hmiss Hauth Huser Hrepos. unfold getUserStats.
  unfold mbind at 1, M_bind at 1.
  destruct (getFromCache _ w) as [[[c|]|] w0] eqn:Hc; simpl in Hmiss; try discriminate.
  clear Hmiss. rewrite getFromCache_run in Hc. injection Hc as _ <-.
  unfold mbind at 1, M_bind at 1. rewrite Hauth.
  unfold mbind at 1, M_bind at 1, await at 1. rewrite Huser.
  unfold mbind at 1, M_bind at 1, listRepos, await.
  destruct (includePrivate && isAuthenticatedUser)%bool; rewrite Hrepos;
  unfold mbind at 1, M_bind at 1; rewrite countCommits_run;
  unfold mbind at 1, M_bind at 1;
  pose proof (countIssuesAndPRs_run username) as Hip; simpl in Hip;
  destruct (search_commits octokit _) as [commits|?];
  rewrite Hip; clear Hip;
  destruct (search_issues octokit ("author:" +:+ username +:+ " type:issue")) as [issues|?];
  try destruct (search_issues octokit ("author:" +:+ username +:+ " type:pr")) as [prs|?];
  unfold_M; simpl; eauto.
Qed.
End Runs.

Lemma checkAuthenticatedUser_with_search_commits r octokit username w :
  checkAuthenticatedUser (with_search_commits r octokit) username w =
  checkAuthenticatedUser octokit username w.
Proof. reflexivity. Qed.

(** ** Issues and pull requests *)

Lemma issue_query_ne_pr_query username :
  "author:" +:+ username +:+ " type:issue" ≠ "author:" +:+ username +:+ " type:pr".
Proof. intros H. by do 2 apply (inj (String.append _)) in H. Qed.

Lemma getUserStats_issued octokit username includePrivate w v w' :
  fst (getFromCache (userStatsKey username includePrivate) w) = Ok None →
  getUserStats octokit username includePrivate w = (Ok v, w') →
  ∃ (tr : list ApiCall) isAuthenticatedUser,
    (tr = [] ∨ tr = [UsersGetAuthenticated]) ∧
    fst (checkAuthenticatedUser octokit username w) = Ok isAuthenticatedUser ∧
    issued w w' =
      (tr ++ [UsersGetByUsername username;
              if (includePrivate && isAuthenticatedUser)%bool
              then ReposListForAuthenticatedUser else ReposListForUser username;
              SearchCommits ("author:" +:+ username);
              SearchIssues ("author:" +:+ username +:+ " type:issue")]
          ++ match search_issues octokit ("author:" +:+ username +:+ " type:issue") with
             | Resolved _ => [SearchIssues ("author:" +:+ username +:+ " type:pr")]
             | Rejected _ => []
             end)%list.
Proof.
  intros Hmiss Hrun.
  destruct (getUserStats_miss_inv _ _ _ _ _ _ Hmiss Hrun)
    as (isAuth & w1 & user & repos & Hauth & _ & _ & _ & Hcalls).
  destruct (checkAuthenticatedUser_calls octokit username w) as (tr & Htr & Hcases).
  rewrite Hauth in Htr. simpl in Htr.
  exists tr, isAuth. split; [done|]. split; [by rewrite Hauth|].
  apply issued_app. rewrite Hcalls, Htr. by rewrite <- !app_assoc.
Qed.

(** C1, as the code has it: the two searches share one [try] block, the
    issue search first.  When the issue search fails, both counts are 0 and
    the search for pull requests is not attempted; when only the search for
    pull requests fails, [totalIssues] keeps the number of issues found and
    [totalPRs] is 0. *)
Theorem issues_and_prs_share_one_try octokit username includePrivate w s w' :
  fst (getFromCache (userStatsKey username includePrivate) w) = Ok None →
  getUserStats octokit username includePrivate w = (Ok (VUserStats s), w') →
  let qi := "author:" +:+ username +:+ " type:issue" in
  let qp := "author:" +:+ username +:+ " type:pr" in
  match search_issues octokit qi, search_issues octokit qp with
  | Rejected _, _ =>
      totalIssues s = 0 ∧ totalPRs s = 0 ∧ SearchIssues qp ∉ issued w w'
  | Resolved issues, Rejected _ =>
      totalIssues s = Z.of_nat (length issues) ∧ totalPRs s = 0 ∧
      SearchIssues qp ∈ issued w w'
  | Resolved issues, Resolved prs =>
      totalIssues s = Z.of_nat (length issues) ∧ totalPRs s = Z.of_nat (length prs) ∧
      SearchIssues qp ∈ issued w w'
  end.
Proof.
  intros Hmiss Hrun qi qp.
  destruct (getUserStats_issued _ _ _ _ _ _ Hmiss Hrun) as (tr & isAuth & Htr & _ & Hissued).
  destruct (getUserStats_miss_inv _ _ _ _ _ _ Hmiss Hrun)
    as (? & w1 & user & repos & _ & _ & _ & [= ->] & _).
  rewrite Hissued. fold qi qp. simpl.
  pose proof (issue_query_ne_pr_query username) as Hne. fold qi qp in Hne.
  destruct (search_issues octokit qi) as [issues|e].
  - assert (SearchIssues qp ∈ (tr ++ [UsersGetByUsername username;
        if (includePrivate && isAuth)%bool then ReposListForAuthenticatedUser
        else ReposListForUser username; SearchCommits ("author:" +:+ username);
        SearchIssues qi] ++ [SearchIssues qp])%list)
      by (rewrite !elem_of_app, !elem_of_cons; naive_solver).
    by destruct (search_issues octokit qp).
  - split; [done|]. split; [done|].
    destruct Htr as [-> | ->];
      destruct (includePrivate && isAuth)%bool;
      rewrite ?elem_of_app, !elem_of_cons, ?elem_of_nil; naive_solver.
Qed.

Lemma issues_and_prs_share_one_try_witness :
  let s := {| st_username := "alice"; st_name := "alice"; totalStars := 15; totalForks := 1;
              totalRepos := 2; publicRepos := 5; privateRepos := 0; st_followers := 1;
              st_following := 2; totalCommits := 2; totalIssues := 0; totalPRs := 0 |} in
  totalIssues s = 0 ∧ totalPRs s = 0 ∧
  SearchIssues "author:alice type:pr"
    ∉ issued cold_start (snd (getUserStats (sample_octokit []) "alice" false cold_start)).
Proof.
  exact (issues_and_prs_share_one_try (sample_octokit []) "alice" false cold_start _ _
           eq_refl eq_refl).
Defined.

(** C1, counterexample: the issue search fails and the search for pull
    requests would return three items, yet that search is never issued and
    [totalPRs] is 0. *)
Lemma issues_and_prs_not_independent :
  let run := getUserStats (sample_octokit []) "alice" false cold_start in
  search_issues (sample_octokit []) "author:alice type:issue"
    = Rejected "API rate limit exceeded" ∧
  search_issues (sample_octokit []) "author:alice type:pr" = Resolved [1; 2; 3] ∧
  ∃ s, fst run = Ok (VUserStats s) ∧
       totalPRs s = 0 ∧ totalPRs s ≠ Z.of_nat (length [1; 2; 3]) ∧
       SearchIssues "author:alice type:pr" ∉ issued cold_start (snd run).
Proof.
  split; [done|]. split; [done|]. eexists. split; [by vm_compute|].
  split; [done|]. split; [done|].
  replace (issued _ _) with
    [UsersGetAuthenticated; UsersGetByUsername "alice"; ReposListForUser "alice";
     SearchCommits "author:alice"; SearchIssues "author:alice type:issue"]
    by (by vm_compute).
  rewrite !elem_of_cons, elem_of_nil. naive_solver.
Qed.

(** ** Repository counts *)

(** C2, as the code has it: the choice between the profile's count and the
    counts over the fetched list follows [includePrivate] alone.  With
    [includePrivate] false, [publicRepos] is the profile's [public_repos]
    and [privateRepos] is 0; with [includePrivate] true both are counted
    over the fetched list by its [private] flag, from whichever listing
    endpoint that list came. *)
Theorem repo_counts_follow_includePrivate octokit username includePrivate w s w' :
  fst (getFromCache (userStatsKey username includePrivate) w) = Ok None →
  getUserStats octokit username includePrivate w = (Ok (VUserStats s), w') →
  ∃ user repos,
    users_getByUsername octokit username = Resolved user ∧
    ((ReposListForAuthenticatedUser ∈ issued w w' ∧ includePrivate = true ∧
        repos_listForAuthenticatedUser octokit = Resolved repos)
     ∨ ((ReposListForAuthenticatedUser ∉ issued w w') ∧
        ReposListForUser username ∈ issued w w' ∧
        repos_listForUser octokit username = Resolved repos)) ∧
    totalRepos s = Z.of_nat (length repos) ∧
    if includePrivate
    then publicRepos s = Z.of_nat (length (List.filter (λ repo, negb (private repo)) repos)) ∧
         privateRepos s = Z.of_nat (length (List.filter (λ repo, private repo) repos))
    else publicRepos s = public_repos user ∧ privateRepos s = 0.
Proof.
  intros Hmiss Hrun.
  destruct (getUserStats_issued _ _ _ _ _ _ Hmiss Hrun) as (tr & isAuth & Htr & Hfst & Hissued).
  destruct (getUserStats_miss_inv _ _ _ _ _ _ Hmiss Hrun)
    as (isAuth' & w1 & user & repos & Hauth & Huser & Hrepos & [= ->] & _).
  rewrite Hauth in Hfst. injection Hfst as ->.
  exists user, repos. split; [done|]. rewrite Hissued. split.
  - destruct (includePrivate && isAuth)%bool eqn:Hb.
    + left. apply andb_true_iff in Hb as [-> _]. split; [|done].
      rewrite !elem_of_app, !elem_of_cons. naive_solver.
    + right. split; [|split; [|done]].
      * destruct Htr as [-> | ->]; destruct (search_issues _ _);
          rewrite ?elem_of_app, !elem_of_cons, ?elem_of_nil; naive_solver.
      * rewrite !elem_of_app, !elem_of_cons. naive_solver.
  - simpl. split; [done|]. by destruct includePrivate.
Qed.

Lemma repo_counts_follow_includePrivate_witness :
  ∃ s, fst (getUserStats (sample_octokit []) "alice" false cold_start) = Ok (VUserStats s) ∧
       publicRepos s = public_repos alice ∧ privateRepos s = 0.
Proof.
  eexists. split; [by vm_compute|].
  destruct (repo_counts_follow_includePrivate (sample_octokit []) "alice" false cold_start
              _ _ eq_refl eq_refl) as (user & repos & [= <-] & _ & _ & Hcounts).
  exact Hcounts.
Defined.

(** C2, counterexample: [includePrivate] is true, the user is not the
    owner of the token, so the list comes from the public listing endpoint
    and the authenticated listing is not called; the profile says 5 public
    repositories, the list has 2, and [publicRepos] is 2. *)
Lemma public_listing_yet_counted_from_list :
  let run := getUserStats (sample_octokit []) "alice" true cold_start in
  users_getByUsername (sample_octokit []) "alice" = Resolved alice ∧
  (ReposListForAuthenticatedUser ∉ issued cold_start (snd run)) ∧
  ReposListForUser "alice" ∈ issued cold_start (snd run) ∧
  ∃ s, fst run = Ok (VUserStats s) ∧ publicRepos s = 2 ∧ publicRepos s ≠ public_repos alice.
Proof.
  simpl.
  replace (issued _ _) with
    [UsersGetAuthenticated; UsersGetByUsername "alice"; ReposListForUser "alice";
     SearchCommits "author:alice"; SearchIssues "author:alice type:issue"]
    by (by vm_compute).
  split; [done|]. split; [rewrite !elem_of_cons, elem_of_nil; naive_solver|].
  split; [rewrite !elem_of_cons; naive_solver|].
  eexists. split; [by vm_compute|]. done.
Qed.

(** ** Commit search *)

(** C6: when the commit search rejects, the error is caught:
    [getUserStats] still returns, with [totalCommits] 0 and every other
    field as in the run where the commit search answers. *)
Theorem commit_search_failure_degrades octokit username includePrivate w e s w' :
  fst (getFromCache (userStatsKey username includePrivate) w) = Ok None →
  getUserStats octokit username includePrivate w = (Ok (VUserStats s), w') →
  fst (getUserStats (with_search_commits (λ _, Rejected e) octokit) username includePrivate w)
  = Ok (VUserStats {|
      st_username := st_username s;
      st_name := st_name s;
      totalStars := totalStars s;
      totalForks := totalForks s;
      totalRepos := totalRepos s;
      publicRepos := publicRepos s;
      privateRepos := privateRepos s;
      st_followers := st_followers s;
      st_following := st_following s;
      totalCommits := 0;
      totalIssues := totalIssues s;
      totalPRs := totalPRs s |}).
Proof.
  intros Hmiss Hrun.
  destruct (getUserStats_miss_inv _ _ _ _ _ _ Hmiss Hrun)
    as (isAuth & w1 & user & repos & Hauth & Huser & Hrepos & [= ->] & _).
  destruct (getUserStats_miss_ok (with_search_commits (λ _, Rejected e) octokit)
              username includePrivate w isAuth w1 user repos Hmiss Hauth Huser Hrepos)
    as (s' & w'' & Hrun').
  destruct (getUserStats_miss_inv _ _ _ _ _ _ Hmiss Hrun')
    as (isAuth' & w1' & user' & repos' & Hauth' & Huser' & Hrepos' & [= ->] & _).
  rewrite checkAuthenticatedUser_with_search_commits, Hauth in Hauth'.
  injection Hauth' as <- <-.
  simpl in Huser', Hrepos'. rewrite Huser in Huser'. injection Huser' as <-.
  rewrite Hrepos in Hrepos'. injection Hrepos' as <-.
  by rewrite Hrun'.
Qed.

Lemma commit_search_failure_degrades_witness :
  fst (getUserStats (with_search_commits (λ _, Rejected "Validation Failed") (sample_octokit []))
         "alice" false cold_start)
  = Ok (VUserStats {|
      st_username := "alice"; st_name := "alice"; totalStars := 15; totalForks := 1;
      totalRepos := 2; publicRepos := 5; privateRepos := 0; st_followers := 1;
      st_following := 2; totalCommits := 0; totalIssues := 0; totalPRs := 0 |}).
Proof.
  exact (commit_search_failure_degrades (sample_octokit []) "alice" false cold_start
           "Validation Failed" _ _ eq_refl eq_refl).
Defined.

(** ** String facts *)

Lemma string_length_app (s t : string) :
  String.length (s +:+ t) = (String.length s + String.length t)%nat.
Proof. induction s as [|c s IH]; simpl; [done|]. by rewrite IH. Qed.

Lemma string_app_inj_r (s1 s2 t : string) : s1 +:+ t = s2 +:+ t → s1 = s2.
Proof.
  revert s2. induction s1 as [|c s1 IH]; intros [|c' s2] H.
  - done.
  - apply (f_equal String.length) in H. rewrite !string_length_app in H.
    change (String.length "") with 0%nat in H.
    change (String.length (String c' s2)) with (S (String.length s2)) in H. lia.
  - apply (f_equal String.length) in H. rewrite !string_length_app in H.
    change (String.length "") with 0%nat in H.
    change (String.length (String c s1)) with (S (String.length s1)) in H. lia.
  - change (String c (s1 +:+ t) = String c' (s2 +:+ t)) in H.
    injection H as -> H. f_equal. by apply IH.
Qed.

(** ** Request parameters *)

Lemma or_string_nonempty a b : b ≠ "" → or_string a b ≠ "".
Proof. intros Hb. destruct a as [s|]; simpl; [|done]. by case_bool_decide. Qed.


(** ** The language loop *)

Section Languages.

Variable octokit : Octokit.

Lemma add_languages_loop (repoLanguages languages : Obj) (w : World) :
  for_of (Object_entries repoLanguages)
    (λ '(lang, bytes),
       assign (λ languages : Obj,
         obj_set lang (or_number (obj_get lang languages) 0 + bytes)%float languages))
    (languages, w)
  = (Ok tt, (addLanguages repoLanguages languages, w)).
Proof.
  unfold Object_entries. revert languages.
  induction repoLanguages as [|[lang bytes] rest IH]; intros languages; [done|].
  simpl. unfold mbind, M_bind. simpl. apply IH.
Qed.

Lemma collectLanguages_run repos w :
  ∃ w', collectLanguages octokit repos w = (Ok (accumulatedLanguages octokit repos), w') ∧
        cache w' = cache w ∧
        calls w' = (calls w ++ languageCalls repos)%list.
Proof.
  unfold collectLanguages, accumulatedLanguages, with_locals.
  generalize ([] : Obj). revert w.
  induction repos as [|repo repos IH]; intros w languages.
  - exists w. simpl. by rewrite app_nil_r.
  - simpl. unfold mbind at 1, M_bind at 1. unfold languageCalls. simpl.
    destruct (fork repo); simpl.
    + apply IH.
    + unfold try_catch, mbind at 1, M_bind at 1, lift at 1, await.
      destruct (repos_listLanguages octokit _ _) as [repoLanguages|e].
      * rewrite add_languages_loop.
        destruct (IH (requested octokit (ReposListLanguages (owner_login repo) (repo_name repo)) w)
                     (addLanguages repoLanguages languages)) as (w' & Hrun & Hcache & Hcalls).
        exists w'. split; [done|]. split; [done|]. rewrite Hcalls. simpl.
        by rewrite <- app_assoc.
      * unfold lift, console_warn.
        destruct (IH (warned ("Could not fetch languages for " +:+ repo_name repo +:+ ":")
                        (requested octokit (ReposListLanguages (owner_login repo) (repo_name repo)) w))
                     languages) as (w' & Hrun & Hcache & Hcalls).
        exists w'. split; [done|]. split; [done|]. rewrite Hcalls. simpl.
        by rewrite <- app_assoc.
Qed.
End Languages.

(** ** Which listing endpoint *)

Section Routing.

Variable octokit : Octokit.

Lemma checkAuthenticatedUser_issued username w :
  let w1 := snd (checkAuthenticatedUser octokit username w) in
  calls w1 = (calls w ++ issued w w1)%list ∧
  (issued w w1 = [] ∨ issued w w1 = [UsersGetAuthenticated]).
Proof.
  simpl. destruct (checkAuthenticatedUser_calls octokit username w) as (tr & Htr & Hcases).
  by rewrite (issued_app _ _ _ Htr).
Qed.

(** The requests of [getLanguageStats]: none on a cache hit; otherwise those
    of the identity check, then, unless that check throws, one listing
    request and, if it answers, the language requests. *)
Lemma getLanguageStats_issued username includePrivate w :
  let run := getLanguageStats octokit username includePrivate w in
  let w1 := snd (checkAuthenticatedUser octokit username w) in
  match fst (getFromCache (langStatsKey username includePrivate) w) with
  | Ok (Some _) => issued w (snd run) = []
  | _ =>
      match fst (checkAuthenticatedUser octokit username w) with
      | Throw _ => issued w (snd run) = issued w w1
      | Ok isAuthenticatedUser =>
          ∃ rest, Forall (λ c, is_listing c = false) rest ∧
            issued w (snd run)
            = (issued w w1 ++ listing username includePrivate isAuthenticatedUser :: rest)%list
      end
  end.
Proof.
  simpl. remember (getLanguageStats octokit username includePrivate w) as run eqn:Hrun.
  unfold getLanguageStats in Hrun. unfold mbind at 1, M_bind at 1 in Hrun.
  rewrite getFromCache_run in Hrun |- *. simpl.
  destruct (match cache w !! langStatsKey username includePrivate with
            | Some _ => _ | None => _ end) as [c|].
  { subst run. apply issued_refl. }
  unfold mbind at 1, M_bind at 1 in Hrun.
  destruct (checkAuthenticatedUser_issued username w) as [Hcalls _]. simpl in Hcalls.
  destruct (checkAuthenticatedUser octokit username w) as [[isAuth|e] w1]; simpl in *;
    [|by subst run].
  unfold mbind at 1, M_bind at 1, listRepos, await in Hrun.
  unfold listing.
  destruct (includePrivate && isAuth)%bool;
    [destruct (repos_listForAuthenticatedUser octokit) as [repos|e]
    |destruct (repos_listForUser octokit username) as [repos|e]].
  1,3: unfold mbind at 1, M_bind at 1 in Hrun;
       match type of Hrun with context [collectLanguages octokit ?rs ?w2] =>
         destruct (collectLanguages_run octokit rs w2) as (w3 & Hcl & _ & Hcalls2);
         rewrite Hcl in Hrun; unfold_M; simpl in Hrun; subst run; simpl;
         exists (languageCalls rs)
       end; split;
       [ unfold languageCalls; apply Forall_forall;
         by intros c [repo [<- _]]%list_elem_of_In%in_map_iff
       | apply issued_app; rewrite Hcalls2; simpl; rewrite Hcalls; by rewrite <- !app_assoc ].
  all: subst run; exists []; (split; [done|]); apply issued_app; simpl; rewrite Hcalls;
       by rewrite <- !app_assoc.
Qed.

Lemma getLanguageStats_miss_inv username includePrivate w v w' :
  fst (getFromCache (langStatsKey username includePrivate) w) = Ok None →
  getLanguageStats octokit username includePrivate w = (Ok v, w') →
  ∃ isAuthenticatedUser w1 repos,
    checkAuthenticatedUser octokit username w = (Ok isAuthenticatedUser, w1) ∧
    (if (includePrivate && isAuthenticatedUser)%bool
     then repos_listForAuthenticatedUser octokit
     else repos_listForUser octokit username) = Resolved repos ∧
    v = VLanguageStats (sortedPercentages (accumulatedLanguages octokit repos)).
Proof.
  intros Hmiss Hrun. unfold getLanguageStats in Hrun.
  unfold mbind at 1, M_bind at 1 in Hrun.
  destruct (getFromCache _ w) as [[[c|]|] w0] eqn:Hc; simpl in Hmiss; try discriminate.
  clear Hmiss. rewrite getFromCache_run in Hc. injection Hc as _ <-.
  unfold mbind at 1, M_bind at 1 in Hrun.
  destruct (checkAuthenticatedUser octokit username w) as [[isAuth|e] w1] eqn:Hauth; [|done].
  exists isAuth, w1.
  unfold mbind at 1, M_bind at 1, listRepos, await in Hrun.
  destruct (if (includePrivate && isAuth)%bool then repos_listForAuthenticatedUser octokit
            else repos_listForUser octokit username) as [repos|e] eqn:Hrepos.
  2: { by destruct (includePrivate && isAuth)%bool; rewrite Hrepos in Hrun. }
  exists repos. split; [done|]. split; [done|].
  destruct (includePrivate && isAuth)%bool; rewrite Hrepos in Hrun;
    unfold mbind at 1, M_bind at 1 in Hrun;
    match type of Hrun with context [collectLanguages octokit ?rs ?w2] =>
      destruct (collectLanguages_run octokit rs w2) as (w3 & Hcl & _ & _)
    end;
    rewrite Hcl in Hrun; unfold_M; simpl in Hrun; by injection Hrun as <- _.
Qed.

(** The requests of [getUserStats], in the same way. *)
Lemma getUserStats_issued_all username includePrivate w :
  let run := getUserStats octokit username includePrivate w in
  let w1 := snd (checkAuthenticatedUser octokit username w) in
  match fst (getFromCache (userStatsKey username includePrivate) w) with
  | Ok (Some _) => issued w (snd run) = []
  | _ =>
      match fst (checkAuthenticatedUser octokit username w) with
      | Throw _ => issued w (snd run) = issued w w1
      | Ok isAuthenticatedUser =>
          match users_getByUsername octokit username with
          | Rejected _ => issued w (snd run) = (issued w w1 ++ [UsersGetByUsername username])%list
          | Resolved _ =>
              ∃ rest, Forall (λ c, is_listing c = false) rest ∧
                issued w (snd run)
                = (issued w w1 ++ UsersGetByUsername username
                     :: listing username includePrivate isAuthenticatedUser :: rest)%list
          end
      end
  end.
Proof.
  simpl. remember (getUserStats octokit username includePrivate w) as run eqn:Hrun.
  unfold getUserStats in Hrun. unfold mbind at 1, M_bind at 1 in Hrun.
  rewrite getFromCache_run in Hrun |- *. simpl.
  destruct (match cache w !! userStatsKey username includePrivate with
            | Some _ => _ | None => _ end) as [c|].
  { subst run. apply issued_refl. }
  unfold mbind at 1, M_bind at 1 in Hrun.
  destruct (checkAuthenticatedUser_issued username w) as [Hcalls _]. simpl in Hcalls.
  destruct (checkAuthenticatedUser octokit username w) as [[isAuth|e] w1]; simpl in *;
    [|by subst run].
  unfold mbind at 1, M_bind at 1, await at 1 in Hrun.
  destruct (users_getByUsername octokit username) as [user|e].
  2: { subst run. apply issued_app. simpl. by rewrite Hcalls, <- !app_assoc. }
  unfold mbind at 1, M_bind at 1, listRepos, await in Hrun.
  unfold listing.
  destruct (includePrivate && isAuth)%bool;
    [destruct (repos_listForAuthenticatedUser octokit) as [repos|e]
    |destruct (repos_listForUser octokit username) as [repos|e]].
  1,3: unfold mbind at 1, M_bind at 1 in Hrun; rewrite countCommits_run in Hrun;
       unfold mbind at 1, M_bind at 1 in Hrun;
       pose proof (countIssuesAndPRs_run octokit username) as Hip; simpl in Hip;
       destruct (search_commits octokit _) as [commits|?];
       rewrite Hip in Hrun; clear Hip;
       destruct (search_issues octokit ("author:" +:+ username +:+ " type:issue")) as [issues|?];
       try destruct (search_issues octokit ("author:" +:+ username +:+ " type:pr")) as [prs|?];
       unfold_M; simpl in Hrun; subst run; simpl;
       eexists; (split; [|apply issued_app; simpl; rewrite Hcalls, <- !app_assoc; simpl;
                          reflexivity]);
       repeat constructor.
  all: subst run; exists []; (split; [done|]); apply issued_app; simpl; rewrite Hcalls;
       by rewrite <- !app_assoc.
Qed.

End Routing.

Lemma checkAuthenticatedUser_never_lists octokit username w c :
  c ∈ issued w (snd (checkAuthenticatedUser octokit username w)) → is_listing c = false.
Proof.
  destruct (checkAuthenticatedUser_issued octokit username w) as [_ [-> | ->]].
  - by intros ?%elem_of_nil.
  - by intros ->%list_elem_of_singleton.
Qed.

(** C5: with [includePrivate] false, whoever the owner of the token is,
    neither function calls the authenticated listing: the only listing
    request either of them issues is the public one for [username], and the
    list a returning run works on is the answer to that request. *)
Theorem public_listing_without_includePrivate octokit (username : string) (w : World) :
  (∀ c, c ∈ issued w (snd (getUserStats octokit username false w)) →
        is_listing c = true → c = ReposListForUser username) ∧
  (∀ c, c ∈ issued w (snd (getLanguageStats octokit username false w)) →
        is_listing c = true → c = ReposListForUser username) ∧
  (∀ s w', fst (getFromCache (userStatsKey username false) w) = Ok None →
           getUserStats octokit username false w = (Ok (VUserStats s), w') →
           ∃ repos, repos_listForUser octokit username = Resolved repos ∧
                    totalRepos s = Z.of_nat (length repos) ∧
                    ReposListForUser username ∈ issued w w') ∧
  (∀ v w', fst (getFromCache (langStatsKey username false) w) = Ok None →
           getLanguageStats octokit username false w = (Ok v, w') →
           ∃ repos, repos_listForUser octokit username = Resolved repos ∧
                    v = VLanguageStats (sortedPercentages (accumulatedLanguages octokit repos)) ∧
                    ReposListForUser username ∈ issued w w').
Proof.
  split; [|split; [|split]].
  - intros c Hc Hl. pose proof (getUserStats_issued_all octokit username false w) as H.
    simpl in H.
    pose proof (checkAuthenticatedUser_never_lists octokit username w c) as Hn.
    destruct (fst (getFromCache _ w)) as [[?|]|];
      [rewrite H in Hc; by apply elem_of_nil in Hc| |];
      (destruct (fst (checkAuthenticatedUser octokit username w)) as [isAuth|e1];
        [|rewrite H in Hc; apply Hn in Hc; congruence]);
      (destruct (users_getByUsername octokit username);
        [destruct H as (rest & Hrest & H)|]; rewrite H in Hc;
        rewrite elem_of_app, ?elem_of_cons, ?elem_of_nil in Hc;
        destruct Hc as [Hc | Hc]; [apply Hn in Hc; congruence| |apply Hn in Hc; congruence|];
        [destruct Hc as [-> | [-> | Hc]]; [done|done|];
         rewrite Forall_forall in Hrest; apply Hrest in Hc; congruence
        |by destruct Hc as [-> | []]]).
  - intros c Hc Hl. pose proof (getLanguageStats_issued octokit username false w) as H.
    simpl in H.
    pose proof (checkAuthenticatedUser_never_lists octokit username w c) as Hn.
    destruct (fst (getFromCache _ w)) as [[?|]|];
      [rewrite H in Hc; by apply elem_of_nil in Hc| |];
      (destruct (fst (checkAuthenticatedUser octokit username w)) as [isAuth|e1];
        [|rewrite H in Hc; apply Hn in Hc; congruence]);
      destruct H as (rest & Hrest & H); rewrite H in Hc;
      rewrite elem_of_app, ?elem_of_cons in Hc;
      (destruct Hc as [Hc | [-> | Hc]]; [apply Hn in Hc; congruence|done|]);
      rewrite Forall_forall in Hrest; apply Hrest in Hc; congruence.
  - intros s w' Hmiss Hrun.
    destruct (getUserStats_issued _ _ _ _ _ _ Hmiss Hrun) as (tr & isAuth & _ & _ & ->).
    destruct (getUserStats_miss_inv _ _ _ _ _ _ Hmiss Hrun)
      as (? & w1 & user & repos & _ & _ & Hrepos & [= ->] & _).
    exists repos. split; [done|]. split; [done|].
    rewrite !elem_of_app, !elem_of_cons. naive_solver.
  - intros v w' Hmiss Hrun.
    destruct (getLanguageStats_miss_inv _ _ _ _ _ _ Hmiss Hrun)
      as (isAuth & w1 & repos & Hauth & Hrepos & ->).
    exists repos. split; [done|]. split; [done|].
    pose proof (getLanguageStats_issued octokit username false w) as H. simpl in H.
    rewrite Hmiss, Hauth, Hrun in H. simpl in H. destruct H as (rest & _ & ->).
    rewrite elem_of_app, elem_of_cons. naive_solver.
Qed.

(** ** Cache keys and the identity check *)

Lemma listing_authenticated username includePrivate isAuthenticatedUser :
  listing username includePrivate isAuthenticatedUser = ReposListForAuthenticatedUser ↔
  includePrivate = true ∧ isAuthenticatedUser = true.
Proof. unfold listing. destruct includePrivate, isAuthenticatedUser; naive_solver. Qed.

Lemma getLanguageStats_authenticated_listing_iff octokit username includePrivate w :
  fst (getFromCache (langStatsKey username includePrivate) w) = Ok None →
  ReposListForAuthenticatedUser ∈ issued w (snd (getLanguageStats octokit username includePrivate w))
  ↔ includePrivate = true ∧ fst (checkAuthenticatedUser octokit username w) = Ok true.
Proof.
  intros Hmiss. pose proof (getLanguageStats_issued octokit username includePrivate w) as H.
  simpl in H. rewrite Hmiss in H.
  pose proof (checkAuthenticatedUser_never_lists octokit username w
                ReposListForAuthenticatedUser) as Hn.
  destruct (fst (checkAuthenticatedUser octokit username w)) as [isAuth|e].
  - destruct H as (rest & Hrest & ->). rewrite Forall_forall in Hrest.
    rewrite elem_of_app, elem_of_cons. split.
    + intros [Hc | [Hc | Hc]]; [apply Hn in Hc; done| |apply Hrest in Hc; done].
      symmetry in Hc. apply listing_authenticated in Hc as [-> ->]. done.
    + intros [-> [= ->]]. right. by left.
  - rewrite H. split; [intros Hc; apply Hn in Hc; done|]. by intros [_ ?].
Qed.

Lemma getUserStats_authenticated_listing_iff octokit username includePrivate w :
  fst (getFromCache (userStatsKey username includePrivate) w) = Ok None →
  ReposListForAuthenticatedUser ∈ issued w (snd (getUserStats octokit username includePrivate w))
  ↔ includePrivate = true ∧ fst (checkAuthenticatedUser octokit username w) = Ok true ∧
    ∃ user, users_getByUsername octokit username = Resolved user.
Proof.
  intros Hmiss. pose proof (getUserStats_issued_all octokit username includePrivate w) as H.
  simpl in H. rewrite Hmiss in H.
  pose proof (checkAuthenticatedUser_never_lists octokit username w
                ReposListForAuthenticatedUser) as Hn.
  destruct (fst (checkAuthenticatedUser octokit username w)) as [isAuth|e].
  - destruct (users_getByUsername octokit username) as [user|e].
    + destruct H as (rest & Hrest & ->). rewrite Forall_forall in Hrest.
      rewrite elem_of_app, !elem_of_cons. split.
      * intros [Hc | [Hc | [Hc | Hc]]]; [apply Hn in Hc; done|done| |apply Hrest in Hc; done].
        symmetry in Hc. apply listing_authenticated in Hc as [-> ->]. eauto.
      * intros [-> [[= ->] _]]. right. right. by left.
    + rewrite H, elem_of_app, elem_of_cons, elem_of_nil. split.
      * intros [Hc | [Hc | []]]; [apply Hn in Hc; done|done].
      * by intros (_ & _ & ? & ?).
  - rewrite H. split; [intros Hc; apply Hn in Hc; done|]. by intros (_ & ? & _).
Qed.

Lemma private_suffix_ne_public_suffix (s1 s2 : string) :
  s1 +:+ "-private" ≠ s2 +:+ "-public".
Proof.
  revert s2. induction s1 as [|a s1 IH]; intros s2 H.
  - destruct s2 as [|c [|c' s2]]; [done|done|].
    apply (f_equal String.length) in H.
    change (8 = S (S (String.length (s2 +:+ "-public"))))%nat in H.
    rewrite string_length_app in H. change (String.length "-public") with 7%nat in H. lia.
  - destruct s2 as [|c s2].
    + apply (f_equal String.length) in H.
      change (S (String.length (s1 +:+ "-private")) = 7)%nat in H.
      rewrite string_length_app in H. change (String.length "-private") with 8%nat in H. lia.
    + change (String a (s1 +:+ "-private") = String c (s2 +:+ "-public")) in H.
      injection H as _ H. by apply IH in H.
Qed.

Lemma userStatsKey_inj_username u1 u2 p1 p2 :
  userStatsKey u1 p1 = userStatsKey u2 p2 → u1 = u2.
Proof.
  unfold userStatsKey. intros H. apply (inj (String.append _)) in H.
  destruct p1, p2.
  - by apply string_app_inj_r in H.
  - by apply private_suffix_ne_public_suffix in H.
  - symmetry in H. by apply private_suffix_ne_public_suffix in H.
  - by apply string_app_inj_r in H.
Qed.

Lemma langStatsKey_inj_username u1 u2 p1 p2 :
  langStatsKey u1 p1 = langStatsKey u2 p2 → u1 = u2.
Proof.
  unfold langStatsKey. intros H. apply (inj (String.append _)) in H.
  destruct p1, p2.
  - by apply string_app_inj_r in H.
  - by apply private_suffix_ne_public_suffix in H.
  - symmetry in H. by apply private_suffix_ne_public_suffix in H.
  - by apply string_app_inj_r in H.
Qed.



(** ** No language data *)

Lemma accumulatedLanguages_nil octokit (repos : list Repo) :
  Forall (λ repo, fork repo = true ∨
                  (∃ e, repos_listLanguages octokit (owner_login repo) (repo_name repo)
                        = Rejected e) ∨
                  repos_listLanguages octokit (owner_login repo) (repo_name repo)
                  = Resolved []) repos →
  accumulatedLanguages octokit repos = [].
Proof.
  unfold accumulatedLanguages. induction 1 as [|repo repos Hrepo _ IH]; [done|].
  simpl. destruct Hrepo as [-> | [[e ->] | ->]]; [done| |]; by destruct (fork repo).
Qed.




(** ** Binary64 arithmetic

    What the aggregation needs of IEEE 754 arithmetic, from the
    specification of the primitive operations: comparisons follow [rank];
    the sign of a difference is the order of its operands; rounding never
    turns a number into [NaN]. *)

Lemma digits2_pos_bounds (m : positive) :
  2 ^ (Z.pos (digits2_pos m) - 1) ≤ Z.pos m < 2 ^ Z.pos (digits2_pos m).
Proof.
  induction m as [m IH|m IH|]; simpl digits2_pos.
  - rewrite Pos2Z.inj_succ.
    replace (Z.succ (Z.pos (digits2_pos m)) - 1) with (Z.succ (Z.pos (digits2_pos m) - 1)) by lia.
    rewrite !Z.pow_succ_r by lia. lia.
  - rewrite Pos2Z.inj_succ.
    replace (Z.succ (Z.pos (digits2_pos m)) - 1) with (Z.succ (Z.pos (digits2_pos m) - 1)) by lia.
    rewrite !Z.pow_succ_r by lia. lia.
  - simpl. lia.
Qed.

Lemma valid_finite s m e :
  valid_binary (S754_finite s m e) = true →
  emin ≤ e ≤ emax - prec ∧ Z.pos (digits2_pos m) ≤ prec ∧
  (emin < e → Z.pos (digits2_pos m) = prec).
Proof.
  unfold valid_binary, bounded, canonical_mantissa, fexp.
  intros [Hc He]%andb_true_iff. apply Z.eqb_eq in Hc. apply Z.leb_le in He.
  unfold FloatOps.prec, FloatOps.emax, SpecFloat.emin in *. lia.
Qed.

Lemma rank_finite_bounds s m e :
  valid_binary (S754_finite s m e) = true →
  0 < Z.pos m * 2 ^ (e - emin) < 2 ^ (emax - emin).
Proof.
  intros (He & Hd & _)%valid_finite.
  pose proof (digits2_pos_bounds m) as [_ Hm].
  assert (0 < 2 ^ (e - emin)) by (apply Z.pow_pos_nonneg; lia).
  split; [lia|].
  apply Z.lt_le_trans with (2 ^ Z.pos (digits2_pos m) * 2 ^ (e - emin)).
  { apply Z.mul_lt_mono_pos_r; lia. }
  rewrite <- Z.pow_add_r by lia.
  apply Z.pow_le_mono_r; [lia|]. unfold FloatOps.prec, FloatOps.emax, SpecFloat.emin in *. lia.
Qed.

Lemma finite_lt_of_exponent_lt s1 m1 e1 s2 m2 e2 :
  valid_binary (S754_finite s1 m1 e1) = true →
  valid_binary (S754_finite s2 m2 e2) = true →
  e1 < e2 →
  Z.pos m1 * 2 ^ (e1 - emin) < Z.pos m2 * 2 ^ (e2 - emin).
Proof.
  intros (He1 & Hd1 & _)%valid_finite (He2 & _ & Hd2)%valid_finite Hlt.
  pose proof (digits2_pos_bounds m1) as [_ Hm1].
  pose proof (digits2_pos_bounds m2) as [Hm2 _].
  rewrite Hd2 in Hm2 by lia.
  assert (Hp1 : Z.pos m1 < 2 ^ prec).
  { eapply Z.lt_le_trans; [exact Hm1|]. apply Z.pow_le_mono_r; lia. }
  assert (H1 : 0 < 2 ^ (e1 - emin)) by (apply Z.pow_pos_nonneg; lia).
  assert (H2 : 2 * 2 ^ (e1 - emin) ≤ 2 ^ (e2 - emin)).
  { rewrite <- Z.pow_succ_r by lia. apply Z.pow_le_mono_r; lia. }
  assert (H3 : 2 ^ prec = 2 * 2 ^ (prec - 1)).
  { reflexivity. }
  nia.
Qed.

Lemma finite_compare s1 m1 e1 s2 m2 e2 :
  valid_binary (S754_finite s1 m1 e1) = true →
  valid_binary (S754_finite s2 m2 e2) = true →
  match e1 ?= e2 with
  | Lt => Lt
  | Gt => Gt
  | Eq => Pos.compare_cont Eq m1 m2
  end = (Z.pos m1 * 2 ^ (e1 - emin) ?= Z.pos m2 * 2 ^ (e2 - emin)).
Proof.
  intros Hv1 Hv2. destruct (Z.compare_spec e1 e2) as [-> | Hlt | Hgt].
  - pose proof (valid_finite _ _ _ Hv2) as (He & _).
    assert (0 < 2 ^ (e2 - emin)) by (apply Z.pow_pos_nonneg; lia).
    change (Pos.compare_cont Eq m1 m2) with (Z.pos m1 ?= Z.pos m2).
    destruct (Z.compare_spec (Z.pos m1) (Z.pos m2)) as [Heq | Hlt | Hgt]; symmetry.
    + apply Z.compare_eq_iff. by rewrite Heq.
    + apply Z.compare_lt_iff. nia.
    + apply Z.compare_gt_iff. nia.
  - symmetry. apply Z.compare_lt_iff. by apply (finite_lt_of_exponent_lt s1 _ _ s2).
  - symmetry. apply Z.compare_gt_iff. by apply (finite_lt_of_exponent_lt s2 _ _ s1).
Qed.

Lemma SFcompare_rank x y :
  valid_binary x = true → valid_binary y = true → x ≠ S754_nan → y ≠ S754_nan →
  SFcompare x y = Some (rank x ?= rank y).
Proof.
  intros Hx Hy Hnx Hny.
  assert (Hpow : 0 < 2 ^ (emax - emin)) by done.
  destruct x as [sx|sx| |sx mx ex], y as [sy|sy| |sy my ey]; try done;
    try (pose proof (rank_finite_bounds _ _ _ Hx));
    try (pose proof (rank_finite_bounds _ _ _ Hy));
    try destruct sx; try destruct sy; cbv [SFcompare rank cond_Zopp]; f_equal;
    try (symmetry; first [apply Z.compare_eq_iff; lia|apply Z.compare_lt_iff; lia
                         |apply Z.compare_gt_iff; lia]).
  - pose proof (finite_compare _ mx ex _ my ey Hx Hy) as Hc.
    rewrite Z.compare_opp, (Z.compare_antisym (Z.pos mx * _)), <- Hc.
    by destruct (ex ?= ey).
  - apply (finite_compare _ mx ex _ my ey Hx Hy).
Qed.

Lemma shr_m_shr_1 mrs : 0 ≤ shr_m mrs → shr_m (shr_1 mrs) = shr_m mrs / 2.
Proof.
  destruct mrs as [m r s]. simpl. intros Hm. rewrite <- Z.div2_div.
  by destruct m as [|[p|p|]|p].
Qed.

Lemma shr_m_iter_pos p mrs :
  0 ≤ shr_m mrs → shr_m (SpecFloat.iter_pos shr_1 p mrs) = shr_m mrs / 2 ^ Z.pos p.
Proof.
  revert mrs. induction p as [p IH|p IH|]; intros mrs Hm; simpl SpecFloat.iter_pos.
  - assert (H1 : 0 ≤ shr_m (shr_1 mrs)).
    { rewrite shr_m_shr_1 by done. by apply Z.div_pos. }
    assert (H2 : 0 ≤ shr_m (SpecFloat.iter_pos shr_1 p (shr_1 mrs))).
    { rewrite IH by done. apply Z.div_pos; [done|]. by apply Z.pow_pos_nonneg. }
    rewrite IH, IH, shr_m_shr_1 by done.
    assert (0 < 2 ^ Z.pos p) by (by apply Z.pow_pos_nonneg).
    rewrite !Z.div_div by lia. f_equal.
    replace (Z.pos p~1) with (1 + Z.pos p + Z.pos p) by lia.
    rewrite !Z.pow_add_r by lia. lia.
  - assert (H2 : 0 ≤ shr_m (SpecFloat.iter_pos shr_1 p mrs)).
    { rewrite IH by done. apply Z.div_pos; [done|]. by apply Z.pow_pos_nonneg. }
    rewrite IH, IH by done.
    assert (0 < 2 ^ Z.pos p) by (by apply Z.pow_pos_nonneg).
    rewrite !Z.div_div by lia. f_equal.
    replace (Z.pos p~0) with (Z.pos p + Z.pos p) by lia.
    rewrite !Z.pow_add_r by lia. lia.
  - by apply shr_m_shr_1.
Qed.

Lemma shr_m_record_of_loc m l : shr_m (shr_record_of_loc m l) = m.
Proof. by destruct l as [|[]]. Qed.

(** [shr_fexp] keeps a mantissa that is not negative so, and a positive one
    positive when the exponent is not below [emin]. *)
Lemma shr_fexp_nonneg m e l :
  0 ≤ m → 0 ≤ shr_m (fst (shr_fexp prec emax m e l)).
Proof.
  intros Hm. unfold shr_fexp, shr.
  destruct (fexp prec emax (Zdigits2 m + e) - e) as [|p|p]; simpl;
    rewrite ?shr_m_iter_pos, shr_m_record_of_loc; rewrite ?shr_m_record_of_loc; try done.
  apply Z.div_pos; [done|]. by apply Z.pow_pos_nonneg.
Qed.

Lemma shr_fexp_pos m e l :
  0 < m → emin ≤ e →
  0 < shr_m (fst (shr_fexp prec emax m e l)) ∧ emin ≤ snd (shr_fexp prec emax m e l).
Proof.
  intros Hm He. unfold shr_fexp, shr.
  destruct m as [|m|m]; try done. simpl Zdigits2.
  pose proof (digits2_pos_bounds m) as [Hlo _].
  destruct (fexp prec emax (Z.pos (digits2_pos m) + e) - e) as [|p|p] eqn:Hn; simpl;
    rewrite ?shr_m_iter_pos, shr_m_record_of_loc; rewrite ?shr_m_record_of_loc; try done.
  split; [|lia].
  apply Z.div_str_pos. split; [by apply Z.pow_pos_nonneg|].
  etrans; [|exact Hlo]. apply Z.pow_le_mono_r; [lia|].
  unfold fexp, SpecFloat.emin, prec, emax in *. lia.
Qed.

Lemma round_nearest_even_ge m l : m ≤ round_nearest_even m l.
Proof. destruct l as [|[]]; simpl; try lia. destruct (Z.even m); lia. Qed.

Lemma binary_round_aux_not_nan sx mx ex lx :
  0 ≤ mx → binary_round_aux prec emax sx mx ex lx ≠ S754_nan.
Proof.
  intros Hm. unfold binary_round_aux.
  pose proof (shr_fexp_nonneg mx ex lx Hm) as H1.
  destruct (shr_fexp prec emax mx ex lx) as [mrs' e']. simpl in H1.
  pose proof (round_nearest_even_ge (shr_m mrs') (loc_of_shr_record mrs')) as H2.
  pose proof (shr_fexp_nonneg (round_nearest_even (shr_m mrs') (loc_of_shr_record mrs')) e'
                loc_Exact ltac:(lia)) as H3.
  destruct (shr_fexp prec emax _ e' loc_Exact) as [mrs'' e'']. simpl in H3.
  destruct (shr_m mrs'') as [|m|m]; [done| |lia].
  by destruct (e'' <=? emax - prec).
Qed.

Lemma binary_round_aux_nonzero sx mx ex lx :
  0 < mx → emin ≤ ex → nonzero_of_sign sx (binary_round_aux prec emax sx mx ex lx).
Proof.
  intros Hm He. unfold binary_round_aux.
  pose proof (shr_fexp_pos mx ex lx Hm He) as [H1 He1].
  destruct (shr_fexp prec emax mx ex lx) as [mrs' e']. simpl in H1, He1.
  pose proof (round_nearest_even_ge (shr_m mrs') (loc_of_shr_record mrs')) as H2.
  pose proof (shr_fexp_pos (round_nearest_even (shr_m mrs') (loc_of_shr_record mrs')) e'
                loc_Exact ltac:(lia) He1) as [H3 _].
  destruct (shr_fexp prec emax _ e' loc_Exact) as [mrs'' e'']. simpl in H3.
  destruct (shr_m mrs'') as [|m|m]; [lia| |lia].
  destruct (e'' <=? emax - prec); [right; eauto|by left].
Qed.

Lemma shl_align_exponent mx ex ex' :
  snd (shl_align mx ex ex') = Z.min ex ex'.
Proof.
  unfold shl_align. destruct (ex' - ex) as [|d|d] eqn:Hd; simpl; lia.
Qed.

Lemma shl_align_mantissa mx ex ex' :
  Z.pos (fst (shl_align mx ex ex')) = Z.pos mx * 2 ^ (ex - Z.min ex ex').
Proof.
  unfold shl_align. destruct (ex' - ex) as [|d|d] eqn:Hd; simpl fst.
  - replace (ex - Z.min ex ex') with 0 by lia. lia.
  - replace (ex - Z.min ex ex') with 0 by lia. lia.
  - change (Pos.iter xO mx d) with (shift_pos d mx).
    rewrite shift_pos_correct, Z.pow_pos_fold.
    replace (ex - Z.min ex ex') with (Z.pos d) by lia. lia.
Qed.

Lemma binary_round_nonzero sx mx ex :
  emin ≤ ex → nonzero_of_sign sx (binary_round prec emax sx mx ex).
Proof.
  intros He. unfold binary_round.
  pose proof (shl_align_exponent mx ex (fexp prec emax (Z.pos (digits2_pos mx) + ex))) as Hez.
  destruct (shl_align mx ex _) as [mz ez]. simpl in Hez.
  apply binary_round_aux_nonzero; [done|].
  unfold fexp, SpecFloat.emin, prec, emax in *. lia.
Qed.

Lemma SFltb_zero_nonzero x :
  SFltb (S754_zero false) x = true ↔ nonzero_of_sign false x.
Proof.
  unfold nonzero_of_sign. destruct x as [s|[]| |[] m e]; simpl; split; try done;
    try (intros [? | (? & ? & ?)]; done); eauto.
Qed.

Lemma SFltb_zero_not_nonzero x :
  nonzero_of_sign true x ∨ x = S754_nan ∨ (∃ s, x = S754_zero s) →
  SFltb (S754_zero false) x = false.
Proof. intros [[-> | (m & e & ->)] | [-> | [s ->]]]; done. Qed.

Lemma binary_normalize_sign m e :
  emin ≤ e →
  SFltb (S754_zero false) (binary_normalize prec emax m e false) = (0 <? m).
Proof.
  intros He. destruct m as [|m|m]; simpl binary_normalize.
  - done.
  - transitivity true; [|done]. apply SFltb_zero_nonzero. by apply binary_round_nonzero.
  - transitivity false; [|done]. apply SFltb_zero_not_nonzero. left.
    by apply binary_round_nonzero.
Qed.

Lemma rank_finite_scaled s m e ez :
  emin ≤ ez → ez ≤ e →
  cond_Zopp s (Z.pos m * 2 ^ (e - emin))
  = cond_Zopp s (Z.pos m * 2 ^ (e - ez)) * 2 ^ (ez - emin).
Proof.
  intros H1 H2. replace (e - emin) with ((e - ez) + (ez - emin)) by lia.
  rewrite Z.pow_add_r by lia. destruct s; simpl; lia.
Qed.

Lemma SFsub_positive x y :
  valid_binary x = true → valid_binary y = true → x ≠ S754_nan → y ≠ S754_nan →
  SFltb (S754_zero false) (SF64sub y x) = (rank x <? rank y).
Proof.
  intros Hx Hy Hnx Hny.
  assert (Hpow : 0 < 2 ^ (emax - emin)) by done.
  destruct x as [sx|sx| |sx mx ex], y as [sy|sy| |sy my ey]; try done;
    try (pose proof (rank_finite_bounds _ _ _ Hx));
    try (pose proof (rank_finite_bounds _ _ _ Hy)).
  1-8: try destruct sx; try destruct sy; cbv [SF64sub SFsub SFltb SFcompare rank cond_Zopp negb];
       symmetry; first [apply Z.ltb_lt; lia | apply Z.ltb_ge; lia].
  unfold SF64sub, SFsub.
  pose proof (valid_finite _ _ _ Hx) as (Hex & _). pose proof (valid_finite _ _ _ Hy) as (Hey & _).
  rewrite binary_normalize_sign by lia.
  rewrite !shl_align_mantissa.
  replace (Z.min ex (Z.min ey ex)) with (Z.min ey ex) by lia.
  replace (Z.min ey (Z.min ey ex)) with (Z.min ey ex) by lia.
  unfold rank.
  rewrite (rank_finite_scaled sx mx ex (Z.min ey ex)) by lia.
  rewrite (rank_finite_scaled sy my ey (Z.min ey ex)) by lia.
  assert (0 < 2 ^ (Z.min ey ex - emin)) by (apply Z.pow_pos_nonneg; lia).
  destruct (Z.ltb_spec 0 (cond_Zopp sy (Z.pos my * 2 ^ (ey - Z.min ey ex))
                          - cond_Zopp sx (Z.pos mx * 2 ^ (ex - Z.min ey ex))));
    symmetry; [apply Z.ltb_lt|apply Z.ltb_ge]; nia.
Qed.

Lemma SFeqb_refl x : x ≠ S754_nan → SFeqb x x = true.
Proof.
  destruct x as [s|[]| |[] m e]; try done; intros _; unfold SFeqb; simpl;
    by rewrite Z.compare_refl, Pos.compare_cont_refl.
Qed.

Lemma is_nan_Prim2SF x : is_nan x = true ↔ Prim2SF x = S754_nan.
Proof.
  unfold is_nan. rewrite FloatAxioms.eqb_spec. split.
  - intros H. destruct (Prim2SF x) eqn:Hx; try done; rewrite SFeqb_refl in H; done.
  - by intros ->.
Qed.

Lemma not_nan_Prim2SF x : is_nan x = false ↔ Prim2SF x ≠ S754_nan.
Proof. rewrite <- is_nan_Prim2SF. by destruct (is_nan x). Qed.

Lemma ltb_rank a b :
  is_nan a = false → is_nan b = false →
  (a <? b)%float = (rank (Prim2SF a) <? rank (Prim2SF b)).
Proof.
  intros Ha%not_nan_Prim2SF Hb%not_nan_Prim2SF. rewrite FloatAxioms.ltb_spec. unfold SFltb.
  rewrite SFcompare_rank by (done || apply Prim2SF_valid). unfold Z.ltb.
  by destruct (_ ?= _).
Qed.

Lemma leb_rank a b :
  is_nan a = false → is_nan b = false →
  (a <=? b)%float = (rank (Prim2SF a) <=? rank (Prim2SF b)).
Proof.
  intros Ha%not_nan_Prim2SF Hb%not_nan_Prim2SF. rewrite FloatAxioms.leb_spec. unfold SFleb.
  rewrite SFcompare_rank by (done || apply Prim2SF_valid). unfold Z.leb.
  by destruct (_ ?= _).
Qed.

(** The sign of a difference is the order of its operands. *)
Lemma sub_positive a b :
  is_nan a = false → is_nan b = false →
  (0 <? b - a)%float = (a <? b)%float.
Proof.
  intros Ha Hb. rewrite (ltb_rank a b) by done.
  apply not_nan_Prim2SF in Ha, Hb.
  rewrite FloatAxioms.ltb_spec, sub_spec. change (Prim2SF 0) with (S754_zero false).
  apply SFsub_positive; done || apply Prim2SF_valid.
Qed.

Lemma ltb_nan_r a b : is_nan b = true → (a <? b)%float = false.
Proof.
  intros Hb%is_nan_Prim2SF. rewrite FloatAxioms.ltb_spec, Hb. unfold SFltb.
  by destruct (Prim2SF a).
Qed.

Lemma is_finite_Prim2SF x : is_finite x = SFfinite (Prim2SF x).
Proof.
  unfold is_finite, is_infinity.
  destruct (is_nan x) eqn:Hn.
  - apply is_nan_Prim2SF in Hn. by rewrite Hn.
  - apply not_nan_Prim2SF in Hn. simpl. rewrite FloatAxioms.eqb_spec, abs_spec.
    change (Prim2SF infinity) with (S754_infinity false).
    by destruct (Prim2SF x) as [s|[]| |[] m e].
Qed.

Lemma is_zero_Prim2SF x : is_zero x = true ↔ ∃ s, Prim2SF x = S754_zero s.
Proof.
  unfold is_zero. rewrite FloatAxioms.eqb_spec. change (Prim2SF zero) with (S754_zero false).
  destruct (Prim2SF x) as [s|[]| |[] m e]; split; try done; eauto;
    intros [? ?]; done.
Qed.

Lemma add_finite x y :
  is_finite (x + y) = true → is_finite x = true ∧ is_finite y = true.
Proof.
  rewrite !is_finite_Prim2SF, add_spec. unfold SF64add, SFadd.
  destruct (Prim2SF x) as [sx|sx| |sx mx ex], (Prim2SF y) as [sy|sy| |sy my ey];
    try done; by destruct sx, sy.
Qed.

Lemma binary_round_not_nan s m e : binary_round prec emax s m e ≠ S754_nan.
Proof.
  unfold binary_round. destruct (shl_align m e _) as [mz ez].
  by apply binary_round_aux_not_nan.
Qed.

Lemma SFdiv_not_nan x y :
  SFfinite x = true → (∃ s m e, y = S754_finite s m e) → SF64div x y ≠ S754_nan.
Proof.
  intros Hx (sy & my & ey & ->). destruct x as [sx|sx| |sx mx ex]; try done.
  unfold SF64div, SFdiv, SFdiv_core_binary.
  set (s := _ - _ - _).
  set (m' := match s with Z.pos _ => _ | _ => _ end).
  assert (Hm' : 0 ≤ m').
  { subst m'. destruct s; try done. by apply Z.shiftl_nonneg. }
  pose proof (Z.div_pos m' (Z.pos my) Hm' ltac:(done)) as Hq.
  unfold Z.div in Hq. destruct (Z.div_eucl m' (Z.pos my)) as [q r].
  by apply binary_round_aux_not_nan.
Qed.

Lemma div_not_nan x y :
  is_finite x = true → is_finite y = true → is_zero y = false → is_nan (x / y) = false.
Proof.
  rewrite !is_finite_Prim2SF. intros Hx Hy Hz. apply not_nan_Prim2SF. rewrite div_spec.
  apply SFdiv_not_nan; [done|].
  destruct (Prim2SF y) as [s| | |s m e] eqn:Hy'; try done; [|eauto].
  assert (is_zero y = true) by (apply is_zero_Prim2SF; eauto). congruence.
Qed.

Lemma SFmul_not_nan x s m e :
  x ≠ S754_nan → SF64mul x (S754_finite s m e) ≠ S754_nan.
Proof.
  intros Hx. destruct x as [sx|sx| |sx mx ex]; try done.
  unfold SF64mul, SFmul. by apply binary_round_aux_not_nan.
Qed.

Lemma mul_100_not_nan x : is_nan x = false → is_nan (x * 100) = false.
Proof.
  intros Hx%not_nan_Prim2SF. apply not_nan_Prim2SF. rewrite mul_spec.
  change (Prim2SF 100) with (S754_finite false 7036874417766400 (-46)).
  by apply SFmul_not_nan.
Qed.

Lemma SF2Prim_not_nan x : x ≠ S754_nan → is_nan (SF2Prim x) = false.
Proof.
  intros Hx. destruct x as [[]|[]| |s m e]; try done.
  unfold SF2Prim.
  assert (Hf : is_nan (Z.ldexp (of_uint63 (Uint63.of_Z (Z.pos m))) e) = false).
  { apply not_nan_Prim2SF. rewrite Z_ldexp_spec, of_uint63_spec.
    pose proof (binary_round_not_nan false) as Hr.
    pose proof (binary_round_not_nan true) as Hr'.
    destruct (Uint63.to_Z _) as [|p|p]; simpl binary_normalize; [done| |];
      [specialize (Hr p 0)|specialize (Hr' p 0)];
      destruct (binary_round _ _ _ _ _) as [| | |s' m' e']; try done;
      apply binary_round_not_nan. }
  destruct s; [|done].
  apply not_nan_Prim2SF. rewrite opp_spec. apply not_nan_Prim2SF in Hf.
  by destruct (Prim2SF _).
Qed.

Lemma toFixed_not_nan x f : is_nan x = false → is_nan (parseFloat (toFixed x f)) = false.
Proof.
  intros Hx. pose proof Hx as Hx'%not_nan_Prim2SF. unfold toFixed.
  destruct (Prim2SF x) as [s|[]| |s m e] eqn:HSF; try done.
  destruct (1e21 <=? abs x)%float; cbn [parseFloat].
  - assert (Ha : Prim2SF (abs x) = S754_finite false m e) by (by rewrite abs_spec, HSF).
    destruct s; apply not_nan_Prim2SF; rewrite ?opp_spec, Ha; done.
  - destruct (nearest_scaled m e f) as [|n]; [by destruct s|].
    apply SF2Prim_not_nan.
    apply (SFdiv_not_nan (S754_finite s n 0)); [done|eauto].
Qed.

Lemma ltb_zero_Prim2SF x : (0 <? x)%float = true ↔ nonzero_of_sign false (Prim2SF x).
Proof.
  rewrite FloatAxioms.ltb_spec. change (Prim2SF 0) with (S754_zero false).
  apply SFltb_zero_nonzero.
Qed.

Lemma SFadd_positive x y :
  valid_binary x = true → valid_binary y = true →
  x = S754_zero false ∨ nonzero_of_sign false x →
  nonzero_of_sign false y →
  nonzero_of_sign false (SF64add x y).
Proof.
  intros Hvx Hvy Hx Hy.
  destruct Hx as [-> | [-> | (mx & ex & ->)]], Hy as [-> | (my & ey & ->)];
    try (by left); try (right; by eauto).
  unfold SF64add, SFadd. cbv [cond_Zopp].
  pose proof (valid_finite _ _ _ Hvx) as (Hex & _).
  pose proof (valid_finite _ _ _ Hvy) as (Hey & _).
  simpl Z.add. apply binary_round_nonzero. lia.
Qed.

Lemma add_positive x y :
  Prim2SF x = S754_zero false ∨ (0 <? x)%float = true →
  (0 <? y)%float = true → (0 <? x + y)%float = true.
Proof.
  rewrite !ltb_zero_Prim2SF, add_spec. intros Hx Hy.
  apply SFadd_positive; try apply Prim2SF_valid; tauto.
Qed.

Lemma fold_add_positive (l : list float) (acc : float) :
  Forall (λ bytes, (0 <? bytes)%float = true) l →
  (0 <? acc)%float = true →
  (0 <? fold_left (λ sum bytes, (sum + bytes)%float) l acc)%float = true.
Proof.
  intros Hl. revert acc. induction Hl as [|x l Hx Hl IH]; intros acc Hacc; simpl; [done|].
  apply IH. apply add_positive; [by right|done].
Qed.

(** A mapping of positive byte counts that is not empty has a positive
    total. *)
Lemma totalBytes_positive (languages : Obj) :
  Forall (λ bytes, (0 <? bytes)%float = true) (Object_values languages) →
  languages ≠ [] → (0 <? totalBytes languages)%float = true.
Proof.
  unfold totalBytes. destruct languages as [|[lang bytes] rest]; [done|].
  intros [Hb Hrest]%Forall_cons _. simpl.
  apply fold_add_positive; [done|]. apply add_positive; [by left|done].
Qed.

Lemma div_by_positive_not_nan x y :
  is_finite x = true → (0 <? y)%float = true → is_nan (x / y) = false.
Proof.
  rewrite is_finite_Prim2SF, ltb_zero_Prim2SF. intros Hx Hy.
  apply not_nan_Prim2SF. rewrite div_spec.
  destruct Hy as [-> | (m & e & ->)].
  - by destruct (Prim2SF x).
  - apply SFdiv_not_nan; [done|eauto].
Qed.

(** ** [toFixed] *)

(** An integer number of units scales exactly. *)
Lemma nearest_scaled_exact m e f :
  0 ≤ e → Z.of_N (nearest_scaled m e f) = Z.pos m * 2 ^ e * 10 ^ Z.of_nat f.
Proof.
  intros He. unfold nearest_scaled. rewrite (proj2 (Z.leb_le 0 e)) by done.
  rewrite Z2N.id; [done|]. apply Z.mul_nonneg_nonneg; [|by apply Z.pow_nonneg].
  apply Z.mul_nonneg_nonneg; [done|by apply Z.pow_nonneg].
Qed.

(** [toFixed] rounds to the nearest decimal, upwards on a tie: with [n] the
    scaled integer it prints for the number [m * 2^e], no integer [j] has
    [j / 10^f] nearer to that number, and an equally near one is smaller. *)
Lemma nearest_scaled_nearest m e f (j : Z) :
  e < 0 →
  let n := Z.of_N (nearest_scaled m e f) in
  let x := Z.pos m * 10 ^ Z.of_nat f in
  Z.abs (n * 2 ^ (- e) - x) ≤ Z.abs (j * 2 ^ (- e) - x) ∧
  (Z.abs (n * 2 ^ (- e) - x) = Z.abs (j * 2 ^ (- e) - x) → j ≤ n).
Proof.
  intros He. simpl. unfold nearest_scaled.
  rewrite (proj2 (Z.leb_gt 0 e)) by done.
  set (x := Z.pos m * 10 ^ Z.of_nat f). set (k := - e).
  assert (Hx : 0 ≤ x) by (apply Z.mul_nonneg_nonneg; [done|by apply Z.pow_nonneg]).
  assert (Hk : 0 < 2 ^ k) by (apply Z.pow_pos_nonneg; lia).
  replace (2 * Z.pos m * 10 ^ Z.of_nat f) with (2 * x) by (subst x; lia).
  replace (2 ^ (k + 1)) with (2 * 2 ^ k) by (rewrite Z.pow_add_r by lia; lia).
  pose proof (Z.div_mod (2 * x + 2 ^ k) (2 * 2 ^ k) ltac:(lia)) as Hdm.
  pose proof (Z.mod_pos_bound (2 * x + 2 ^ k) (2 * 2 ^ k) ltac:(lia)) as Hr.
  set (n := (2 * x + 2 ^ k) / (2 * 2 ^ k)) in *.
  set (r := (2 * x + 2 ^ k) mod (2 * 2 ^ k)) in *.
  assert (Hn : 0 ≤ n) by (subst n; apply Z.div_pos; lia).
  rewrite Z2N.id by done.
  assert (Hd : 2 * (n * 2 ^ k - x) = 2 ^ k - r) by lia.
  destruct (Z.lt_trichotomy j n) as [Hlt | [-> | Hgt]]; [| lia |].
  - assert (2 ^ k ≤ n * 2 ^ k - j * 2 ^ k) by nia. lia.
  - assert (2 ^ k ≤ j * 2 ^ k - n * 2 ^ k) by nia. lia.
Qed.

(** ** Objects *)

Lemma obj_get_None k (o : Obj) : obj_get k o = None ↔ k ∉ map fst o.
Proof.
  induction o as [|[k' v] o IH]; simpl.
  - split; [intros _ ?%elem_of_nil; done|done].
  - rewrite not_elem_of_cons. case_bool_decide; [naive_solver|]. rewrite IH. naive_solver.
Qed.

Lemma obj_get_Some k v (o : Obj) :
  NoDup (map fst o) → (k, v) ∈ o → obj_get k o = Some v.
Proof.
  induction o as [|[k' v'] o IH]; simpl; intros Hnd Hin.
  - by apply elem_of_nil in Hin.
  - apply NoDup_cons in Hnd as [Hk' Hnd]. apply elem_of_cons in Hin as [[= <- <-] | Hin].
    + by rewrite bool_decide_eq_true_2.
    + rewrite bool_decide_eq_false_2; [by apply IH|].
      intros ->. apply Hk'. apply list_elem_of_fmap. by exists (k, v).
Qed.

Lemma obj_set_append k v (o : Obj) :
  obj_get k o = None → array_index k = None → obj_set k v o = (o ++ [(k, v)])%list.
Proof. unfold obj_set. by intros -> ->. Qed.

Lemma fold_obj_set_append (g : string → float → float) (l acc : Obj) :
  NoDup (map fst acc ++ map fst l) →
  Forall (λ k, array_index k = None) (map fst l) →
  fold_left (λ o '(k, v), obj_set k (g k v) o) l acc
  = (acc ++ map (λ '(k, v), (k, g k v)) l)%list.
Proof.
  revert acc. induction l as [|[k v] l IH]; intros acc Hnd Hidx; simpl.
  - by rewrite app_nil_r.
  - simpl in Hnd, Hidx. apply Forall_cons in Hidx as [Hk Hidx].
    rewrite obj_set_append; [|apply obj_get_None|done].
    + rewrite IH; [by rewrite <- app_assoc| |done].
      rewrite map_app. simpl. by rewrite <- app_assoc.
    + apply NoDup_app in Hnd as (_ & Hdisj & _). intros Hin. apply (Hdisj k Hin).
      by left.
Qed.

(** ** Sorting *)

Section SortFacts.

Context {A : Type} (comparefn : A → A → float) (key : A → Z) (P : A → Prop).

Hypothesis comparefn_key :
  ∀ x y, P x → P y → (0 <? SortCompare comparefn x y)%float = (key x <? key y).

Lemma sort_insert_perm x l : sort_insert comparefn x l ≡ₚ x :: l.
Proof.
  induction l as [|y l IH]; simpl; [done|].
  destruct (0 <? SortCompare comparefn x y)%float; [|done].
  rewrite IH. apply Permutation_swap.
Qed.

Lemma Array_sort_perm l : Array_sort comparefn l ≡ₚ l.
Proof.
  induction l as [|x l IH]; simpl; [done|].
  by rewrite sort_insert_perm, IH.
Qed.

Lemma sort_insert_sorted x l :
  P x → Forall P l →
  StronglySorted (λ a b, key b ≤ key a) l →
  StronglySorted (λ a b, key b ≤ key a) (sort_insert comparefn x l).
Proof.
  intros Hx HP Hs. induction Hs as [|y l Hs IH Hy]; simpl.
  - repeat constructor.
  - apply Forall_cons in HP as [HPy HP].
    rewrite comparefn_key by done.
    destruct (Z.ltb_spec (key x) (key y)) as [Hlt | Hge].
    + constructor; [by apply IH|].
      rewrite sort_insert_perm. constructor; [lia|done].
    + constructor; [by constructor|].
      constructor; [done|]. eapply Forall_impl; [exact Hy|]. simpl. intros; lia.
Qed.

Lemma Array_sort_sorted l :
  Forall P l → StronglySorted (λ a b, key b ≤ key a) (Array_sort comparefn l).
Proof.
  induction 1 as [|x l Hx HP IH]; simpl; [constructor|].
  apply sort_insert_sorted; [done| |done].
  by rewrite Array_sort_perm.
Qed.

End SortFacts.

Lemma obj_replace_keys k v (o : Obj) : map fst (obj_replace k v o) = map fst o.
Proof.
  induction o as [|[k' v'] o IH]; simpl; [done|].
  case_bool_decide; simpl; [by subst|by rewrite IH].
Qed.

Lemma obj_add_index_perm i k v (o : Obj) : obj_add_index i k v o ≡ₚ (k, v) :: o.
Proof.
  induction o as [|[k' v'] o IH]; simpl; [done|].
  destruct (array_index k') as [j|]; [|done].
  destruct (j <? i)%N; [|done]. rewrite IH. apply Permutation_swap.
Qed.

Lemma obj_set_NoDup k v (o : Obj) :
  NoDup (map fst o) → NoDup (map fst (obj_set k v o)).
Proof.
  intros Hnd. unfold obj_set. destruct (obj_get k o) eqn:Hget.
  - by rewrite obj_replace_keys.
  - apply obj_get_None in Hget.
    assert (Hk : NoDup (map fst ((k, v) :: o))) by (by apply NoDup_cons).
    destruct (array_index k) as [i|].
    + by rewrite obj_add_index_perm.
    + rewrite map_app. simpl. apply NoDup_app. split; [done|]. split.
      * intros x Hx ->%list_elem_of_singleton. done.
      * apply NoDup_singleton.
Qed.

Lemma addLanguages_NoDup (repoLanguages languages : Obj) :
  NoDup (map fst languages) → NoDup (map fst (addLanguages repoLanguages languages)).
Proof.
  unfold addLanguages. revert languages.
  induction repoLanguages as [|[lang bytes] rest IH]; intros languages Hnd; [done|].
  simpl. apply IH. by apply obj_set_NoDup.
Qed.

(** The accumulated mapping is an object: its property names are distinct. *)
Lemma accumulatedLanguages_NoDup octokit repos :
  NoDup (map fst (accumulatedLanguages octokit repos)).
Proof.
  unfold accumulatedLanguages.
  assert (H : ∀ acc : Obj, NoDup (map fst acc) →
    NoDup (map fst (fold_left (λ languages repo,
      if fork repo then languages
      else match repos_listLanguages octokit (owner_login repo) (repo_name repo) with
           | Resolved repoLanguages => addLanguages repoLanguages languages
           | Rejected _ => languages
           end) repos acc))).
  { induction repos as [|repo repos IH]; intros acc Hacc; [done|].
    simpl. apply IH. destruct (fork repo); [done|].
    destruct (repos_listLanguages _ _ _); [by apply addLanguages_NoDup|done]. }
  apply H. constructor.
Qed.

Lemma fold_add_finite (l : list float) (acc : float) :
  is_finite (fold_left (λ sum bytes, (sum + bytes)%float) l acc) = true →
  is_finite acc = true ∧ Forall (λ bytes, is_finite bytes = true) l.
Proof.
  revert acc. induction l as [|x l IH]; intros acc H; simpl in *; [done|].
  apply IH in H as [[Hacc Hx]%add_finite Hl]. split; [done|]. by constructor.
Qed.

Lemma StronglySorted_weaken {A} (R R' : A → A → Prop) (P : A → Prop) l :
  (∀ a b, P a → P b → R a b → R' a b) →
  Forall P l → StronglySorted R l → StronglySorted R' l.
Proof.
  intros HR HP Hs. induction Hs as [|x l Hs IH Hx]; [constructor|].
  apply Forall_cons in HP as [HPx HP]. constructor; [by apply IH|].
  rewrite Forall_forall in Hx, HP |- *. intros y Hy. apply HR; auto.
Qed.

Lemma comparefn_rank (x y : string * float) :
  is_nan (snd x) = false → is_nan (snd y) = false →
  (0 <? SortCompare (λ '(_, a) '(_, b), (b - a)%float) x y)%float
  = (rank (Prim2SF (snd x)) <? rank (Prim2SF (snd y))).
Proof.
  destruct x as [kx a], y as [ky b]. simpl. intros Ha Hb.
  rewrite <- (ltb_rank a b), <- (sub_positive a b) by done. unfold SortCompare.
  destruct (is_nan (b - a)) eqn:Hn; [|done].
  by rewrite (ltb_nan_r 0 (b - a)).
Qed.

(** ** Percentages *)

Lemma percentagesOf_map (languages : Obj) :
  NoDup (map fst languages) →
  Forall (λ lang, array_index lang = None) (map fst languages) →
  percentagesOf languages
  = map (λ '(lang, bytes),
           (lang, parseFloat (toFixed ((bytes / totalBytes languages) * 100)%float 2)))
        languages.
Proof.
  intros Hnd Hidx. unfold percentagesOf, Object_entries.
  by rewrite (fold_obj_set_append
                (λ _ bytes, parseFloat (toFixed ((bytes / totalBytes languages) * 100)%float 2))).
Qed.

Lemma Object_fromEntries_id (l : Obj) :
  NoDup (map fst l) → Forall (λ k, array_index k = None) (map fst l) →
  Object_fromEntries l = l.
Proof.
  intros Hnd Hidx. unfold Object_fromEntries.
  rewrite (fold_obj_set_append (λ _ v, v)) by done. simpl.
  induction l as [|[k v] l IH]; [done|]. simpl. f_equal. apply IH.
  - simpl in Hnd. by apply NoDup_cons in Hnd as [_ ?].
  - simpl in Hidx. by apply Forall_cons in Hidx as [_ ?].
Qed.

Lemma percentage_not_nan (bytes total : float) :
  is_finite bytes = true → is_finite total = true → is_zero total = false →
  is_nan (parseFloat (toFixed ((bytes / total) * 100)%float 2)) = false.
Proof.
  intros Hb Ht Hz. apply toFixed_not_nan, mul_100_not_nan. by apply div_not_nan.
Qed.

Lemma Array_sort_descending (pcts : Obj) :
  Forall (λ x : string * float, is_nan (snd x) = false) pcts →
  StronglySorted (λ x y, (snd y <=? snd x)%float = true)
    (Array_sort (λ '(_, a) '(_, b), (b - a)%float) pcts).
Proof.
  intros Hnan.
  apply (StronglySorted_weaken
           (λ a b, rank (Prim2SF (snd b)) ≤ rank (Prim2SF (snd a)))
           _ (λ x, is_nan (snd x) = false)).
  - intros a b Ha Hb Hle. rewrite leb_rank by done. by apply Z.leb_le.
  - by rewrite Array_sort_perm.
  - apply (Array_sort_sorted _ (λ x, rank (Prim2SF (snd x))) (λ x, is_nan (snd x) = false));
      [|done].
    intros x y Hx Hy. by apply comparefn_rank.
Qed.



(** ** The cache under the aggregations *)

Lemma auth_user_ne_userStatsKey username includePrivate :
  "auth-user" ≠ userStatsKey username includePrivate.
Proof. done. Qed.

Lemma auth_user_ne_langStatsKey username includePrivate :
  "auth-user" ≠ langStatsKey username includePrivate.
Proof. done. Qed.

Lemma userStatsKey_ne_langStatsKey u1 p1 u2 p2 : userStatsKey u1 p1 ≠ langStatsKey u2 p2.
Proof. done. Qed.

Section CacheFacts.

Variable octokit : Octokit.

(** The identity check leaves the cache as it is, or stores the answer of
    the client under ["auth-user"]. *)
Lemma checkAuthenticatedUser_cache username w :
  let w1 := snd (checkAuthenticatedUser octokit username w) in
  cache w1 = cache w ∨
  ∃ authUser,
    users_getAuthenticated octokit = Resolved authUser ∧
    fst (getFromCache "auth-user" w) = Ok None ∧
    cache w1 = <["auth-user" :=
                  {| data := VUser authUser;
                     timestamp := clock w + round_trip octokit UsersGetAuthenticated |}]>
               (cache w).
Proof.
  cbv zeta. rewrite (getFromCache_run "auth-user" w).
  remember (checkAuthenticatedUser octokit username w) as run eqn:Hrun.
  unfold checkAuthenticatedUser in Hrun. unfold mbind at 1, M_bind at 1 in Hrun.
  rewrite getFromCache_run in Hrun.
  destruct (match cache w !! "auth-user" with Some _ => _ | None => _ end) as [[]|] eqn:Hget;
    try (subst run; by left).
  unfold_M. destruct (users_getAuthenticated octokit) as [authUser|e]; subst run; simpl;
    [|by left].
  right. by exists authUser.
Qed.

Lemma getUserStats_hit username includePrivate w v :
  fst (getFromCache (userStatsKey username includePrivate) w) = Ok (Some v) →
  getUserStats octokit username includePrivate w = (Ok v, w).
Proof.
  rewrite getFromCache_run. intros [= Hget]. unfold getUserStats.
  unfold mbind at 1, M_bind at 1. rewrite getFromCache_run, Hget. done.
Qed.

Lemma getLanguageStats_hit username includePrivate w v :
  fst (getFromCache (langStatsKey username includePrivate) w) = Ok (Some v) →
  getLanguageStats octokit username includePrivate w = (Ok v, w).
Proof.
  rewrite getFromCache_run. intros [= Hget]. unfold getLanguageStats.
  unfold mbind at 1, M_bind at 1. rewrite getFromCache_run, Hget. done.
Qed.

(** A returning run that missed the cache ends by storing its value, at the
    time of its end. *)
Lemma getUserStats_miss_stores username includePrivate w v w' :
  fst (getFromCache (userStatsKey username includePrivate) w) = Ok None →
  getUserStats octokit username includePrivate w = (Ok v, w') →
  cache w' = <[userStatsKey username includePrivate := {| data := v; timestamp := clock w' |}]>
             (cache (snd (checkAuthenticatedUser octokit username w))).
Proof.
  intros Hmiss Hrun. unfold getUserStats in Hrun.
  unfold mbind at 1, M_bind at 1 in Hrun.
  destruct (getFromCache _ w) as [[[c|]|] w0] eqn:Hc; simpl in Hmiss; try discriminate.
  clear Hmiss. rewrite getFromCache_run in Hc. injection Hc as _ <-.
  unfold mbind at 1, M_bind at 1 in Hrun.
  destruct (checkAuthenticatedUser octokit username w) as [[isAuth|e] w1] eqn:Hauth; [|done].
  unfold mbind at 1, M_bind at 1, await at 1 in Hrun.
  destruct (users_getByUsername octokit username) as [user|e] eqn:Huser; [|done].
  unfold mbind at 1, M_bind at 1, listRepos, await in Hrun.
  destruct (includePrivate && isAuth)%bool;
    [destruct (repos_listForAuthenticatedUser octokit) as [repos|?]
    |destruct (repos_listForUser octokit username) as [repos|?]]; try done;
  unfold mbind at 1, M_bind at 1 in Hrun; rewrite countCommits_run in Hrun;
  unfold mbind at 1, M_bind at 1 in Hrun;
  pose proof (countIssuesAndPRs_run octokit username) as Hip; simpl in Hip;
  destruct (search_commits octokit _) as [commits|?];
  rewrite Hip in Hrun; clear Hip;
  destruct (search_issues octokit ("author:" +:+ username +:+ " type:issue")) as [issues|?];
  try destruct (search_issues octokit ("author:" +:+ username +:+ " type:pr")) as [prs|?];
  unfold_M; simpl in Hrun; by injection Hrun as <- <-.
Qed.

(** A run that missed the cache and throws stores nothing of its own, and
    throws what the identity check, the profile request or the listing
    request threw. *)
Lemma getUserStats_miss_throws username includePrivate w e w' :
  fst (getFromCache (userStatsKey username includePrivate) w) = Ok None →
  getUserStats octokit username includePrivate w = (Throw e, w') →
  cache w' = cache (snd (checkAuthenticatedUser octokit username w)) ∧
  (fst (checkAuthenticatedUser octokit username w) = Throw e ∨
   ∃ isAuthenticatedUser,
     fst (checkAuthenticatedUser octokit username w) = Ok isAuthenticatedUser ∧
     (users_getByUsername octokit username = Rejected e ∨
      (∃ user, users_getByUsername octokit username = Resolved user) ∧
      (if (includePrivate && isAuthenticatedUser)%bool
       then repos_listForAuthenticatedUser octokit
       else repos_listForUser octokit username) = Rejected e)).
Proof.
  intros Hmiss Hrun. unfold getUserStats in Hrun.
  unfold mbind at 1, M_bind at 1 in Hrun.
  destruct (getFromCache _ w) as [[[c|]|] w0] eqn:Hc; simpl in Hmiss; try discriminate.
  clear Hmiss. rewrite getFromCache_run in Hc. injection Hc as _ <-.
  unfold mbind at 1, M_bind at 1 in Hrun.
  destruct (checkAuthenticatedUser octokit username w) as [[isAuth|e1] w1] eqn:Hauth.
  2: { injection Hrun as <- <-. split; [done|by left]. }
  simpl. unfold mbind at 1, M_bind at 1, await at 1 in Hrun.
  destruct (users_getByUsername octokit username) as [user|e1] eqn:Huser.
  2: { injection Hrun as <- <-. split; [done|]. right. exists isAuth. split; [done|by left]. }
  unfold mbind at 1, M_bind at 1, listRepos, await in Hrun.
  destruct (includePrivate && isAuth)%bool eqn:Hb;
    [destruct (repos_listForAuthenticatedUser octokit) as [repos|e1] eqn:Hrepos
    |destruct (repos_listForUser octokit username) as [repos|e1] eqn:Hrepos].
  2,4: injection Hrun as -> <-; (split; [done|]); right; exists isAuth; (split; [done|]);
       right; rewrite Hb; eauto.
  all: unfold mbind at 1, M_bind at 1 in Hrun; rewrite countCommits_run in Hrun;
  unfold mbind at 1, M_bind at 1 in Hrun;
  pose proof (countIssuesAndPRs_run octokit username) as Hip; simpl in Hip;
  destruct (search_commits octokit _) as [commits|?];
  rewrite Hip in Hrun; clear Hip;
  destruct (search_issues octokit ("author:" +:+ username +:+ " type:issue")) as [issues|?];
  try destruct (search_issues octokit ("author:" +:+ username +:+ " type:pr")) as [prs|?];
  unfold_M; simpl in Hrun; done.
Qed.

Lemma getLanguageStats_miss_stores username includePrivate w v w' :
  fst (getFromCache (langStatsKey username includePrivate) w) = Ok None →
  getLanguageStats octokit username includePrivate w = (Ok v, w') →
  cache w' = <[langStatsKey username includePrivate := {| data := v; timestamp := clock w' |}]>
             (cache (snd (checkAuthenticatedUser octokit username w))).
Proof.
  intros Hmiss Hrun. unfold getLanguageStats in Hrun.
  unfold mbind at 1, M_bind at 1 in Hrun.
  destruct (getFromCache _ w) as [[[c|]|] w0] eqn:Hc; simpl in Hmiss; try discriminate.
  clear Hmiss. rewrite getFromCache_run in Hc. injection Hc as _ <-.
  unfold mbind at 1, M_bind at 1 in Hrun.
  destruct (checkAuthenticatedUser octokit username w) as [[isAuth|e] w1] eqn:Hauth; [|done].
  unfold mbind at 1, M_bind at 1, listRepos, await in Hrun.
  destruct (includePrivate && isAuth)%bool;
    [destruct (repos_listForAuthenticatedUser octokit) as [repos|?]
    |destruct (repos_listForUser octokit username) as [repos|?]]; try done;
    unfold mbind at 1, M_bind at 1 in Hrun;
    match type of Hrun with context [collectLanguages octokit ?rs ?w2] =>
      destruct (collectLanguages_run octokit rs w2) as (w3 & Hcl & Hcache & _)
    end;
    rewrite Hcl in Hrun; unfold_M; simpl in Hrun; injection Hrun as <- <-; simpl;
    by rewrite Hcache.
Qed.

(** The language aggregation throws only what the identity check or the
    listing request threw: no repository can make it fail. *)
Lemma getLanguageStats_miss_throws username includePrivate w e w' :
  fst (getFromCache (langStatsKey username includePrivate) w) = Ok None →
  getLanguageStats octokit username includePrivate w = (Throw e, w') →
  cache w' = cache (snd (checkAuthenticatedUser octokit username w)) ∧
  (fst (checkAuthenticatedUser octokit username w) = Throw e ∨
   ∃ isAuthenticatedUser,
     fst (checkAuthenticatedUser octokit username w) = Ok isAuthenticatedUser ∧
     (if (includePrivate && isAuthenticatedUser)%bool
      then repos_listForAuthenticatedUser octokit
      else repos_listForUser octokit username) = Rejected e).
Proof.
  intros Hmiss Hrun. unfold getLanguageStats in Hrun.
  unfold mbind at 1, M_bind at 1 in Hrun.
  destruct (getFromCache _ w) as [[[c|]|] w0] eqn:Hc; simpl in Hmiss; try discriminate.
  clear Hmiss. rewrite getFromCache_run in Hc. injection Hc as _ <-.
  unfold mbind at 1, M_bind at 1 in Hrun.
  destruct (checkAuthenticatedUser octokit username w) as [[isAuth|e1] w1] eqn:Hauth.
  2: { injection Hrun as <- <-. split; [done|by left]. }
  simpl. unfold mbind at 1, M_bind at 1, listRepos, await in Hrun.
  destruct (includePrivate && isAuth)%bool eqn:Hb;
    [destruct (repos_listForAuthenticatedUser octokit) as [repos|e1] eqn:Hrepos
    |destruct (repos_listForUser octokit username) as [repos|e1] eqn:Hrepos].
  2,4: injection Hrun as -> <-; (split; [done|]); right; exists isAuth; (split; [done|]);
       by rewrite Hb.
  all: unfold mbind at 1, M_bind at 1 in Hrun;
    match type of Hrun with context [collectLanguages octokit ?rs ?w2] =>
      destruct (collectLanguages_run octokit rs w2) as (w3 & Hcl & Hcache & _)
    end;
    rewrite Hcl in Hrun; unfold_M; simpl in Hrun; done.
Qed.

End CacheFacts.

(** ** Shapes of the cached values *)

Lemma cache_typed_same w w' : cache w' = cache w → cache_typed w → cache_typed w'.
Proof. unfold cache_typed. by intros ->. Qed.

Lemma cache_typed_auth_user w w' u t :
  cache w' = <["auth-user" := {| data := VUser u; timestamp := t |}]> (cache w) →
  cache_typed w → cache_typed w'.
Proof.
  unfold cache_typed. intros -> (Ha & Hu & Hl). split; [|split].
  - intros entry. rewrite lookup_insert_eq. intros [= <-]. by exists u.
  - intros username p entry. rewrite lookup_insert_ne by done. apply Hu.
  - intros username p entry. rewrite lookup_insert_ne by done. apply Hl.
Qed.

Lemma cache_typed_user_stats w w' username includePrivate s t :
  cache w' = <[userStatsKey username includePrivate := {| data := VUserStats s; timestamp := t |}]>
             (cache w) →
  cache_typed w → cache_typed w'.
Proof.
  unfold cache_typed. intros -> (Ha & Hu & Hl). split; [|split].
  - intros entry. rewrite lookup_insert_ne by done. apply Ha.
  - intros u p entry. rewrite lookup_insert. case_decide as Hk.
    + intros [= <-]. by exists s.
    + apply Hu.
  - intros u p entry. rewrite lookup_insert_ne by done. apply Hl.
Qed.

Lemma cache_typed_lang_stats w w' username includePrivate l t :
  cache w' = <[langStatsKey username includePrivate := {| data := VLanguageStats l; timestamp := t |}]>
             (cache w) →
  cache_typed w → cache_typed w'.
Proof.
  unfold cache_typed. intros -> (Ha & Hu & Hl). split; [|split].
  - intros entry. rewrite lookup_insert_ne by done. apply Ha.
  - intros u p entry. rewrite lookup_insert_ne by done. apply Hu.
  - intros u p entry. rewrite lookup_insert. case_decide as Hk.
    + intros [= <-]. by exists l.
    + apply Hl.
Qed.

Lemma cache_typed_cold_start : cache_typed cold_start.
Proof. repeat split; intros; simplify_map_eq. Qed.

Section Typed.

Variable octokit : Octokit.

Lemma checkAuthenticatedUser_typed username w :
  cache_typed w →
  (∃ b, fst (checkAuthenticatedUser octokit username w) = Ok b) ∧
  cache_typed (snd (checkAuthenticatedUser octokit username w)).
Proof.
  intros Hty. split.
  - destruct Hty as (Ha & _). unfold checkAuthenticatedUser. unfold mbind at 1, M_bind at 1.
    rewrite getFromCache_run.
    destruct (cache w !! "auth-user") as [entry|] eqn:Hget.
    + destruct (Ha entry eq_refl) as [u Hu]. rewrite Hu.
      case_bool_decide; [by eexists|].
      unfold_M. destruct (users_getAuthenticated octokit); by eexists.
    + unfold_M. destruct (users_getAuthenticated octokit); by eexists.
  - destruct (checkAuthenticatedUser_cache octokit username w) as [Hc | (u & _ & _ & Hc)].
    + by apply (cache_typed_same w).
    + by apply (cache_typed_auth_user w _ u _ Hc).
Qed.

Lemma getUserStats_fresh_cases username includePrivate w :
  fst (getFromCache (userStatsKey username includePrivate) w) = Ok None ∨
  ∃ v, fst (getFromCache (userStatsKey username includePrivate) w) = Ok (Some v).
Proof. rewrite getFromCache_run. simpl. destruct (match _ with Some _ => _ | None => _ end); eauto. Qed.

Lemma getLanguageStats_fresh_cases username includePrivate w :
  fst (getFromCache (langStatsKey username includePrivate) w) = Ok None ∨
  ∃ v, fst (getFromCache (langStatsKey username includePrivate) w) = Ok (Some v).
Proof. rewrite getFromCache_run. simpl. destruct (match _ with Some _ => _ | None => _ end); eauto. Qed.

Lemma getFromCache_typed_user_stats username includePrivate w v :
  cache_typed w →
  fst (getFromCache (userStatsKey username includePrivate) w) = Ok (Some v) →
  ∃ s, v = VUserStats s.
Proof.
  intros (_ & Hu & _). rewrite getFromCache_run. simpl.
  destruct (cache w !! _) as [entry|] eqn:Hget; [|done].
  case_bool_decide; [|done]. intros [= <-]. by apply (Hu _ _ _ Hget).
Qed.

Lemma getFromCache_typed_lang_stats username includePrivate w v :
  cache_typed w →
  fst (getFromCache (langStatsKey username includePrivate) w) = Ok (Some v) →
  ∃ l, v = VLanguageStats l.
Proof.
  intros (_ & _ & Hl). rewrite getFromCache_run. simpl.
  destruct (cache w !! _) as [entry|] eqn:Hget; [|done].
  case_bool_decide; [|done]. intros [= <-]. by apply (Hl _ _ _ Hget).
Qed.

Lemma getUserStats_typed username includePrivate w :
  cache_typed w →
  cache_typed (snd (getUserStats octokit username includePrivate w)) ∧
  (∀ v, fst (getUserStats octokit username includePrivate w) = Ok v → ∃ s, v = VUserStats s).
Proof.
  intros Hty.
  destruct (getUserStats_fresh_cases username includePrivate w) as [Hmiss | [v Hhit]].
  - pose proof (checkAuthenticatedUser_typed username w Hty) as [_ Hty1].
    destruct (getUserStats octokit username includePrivate w) as [[v|e] w'] eqn:Hrun; simpl.
    + destruct (getUserStats_miss_inv _ _ _ _ _ _ Hmiss Hrun)
        as (? & ? & ? & ? & _ & _ & _ & Hv & _).
      pose proof (getUserStats_miss_stores _ _ _ _ _ _ Hmiss Hrun) as Hc.
      split; [|intros ? [= <-]; eauto].
      rewrite Hv in Hc. by apply (cache_typed_user_stats _ _ _ _ _ _ Hc).
    + destruct (getUserStats_miss_throws _ _ _ _ _ _ Hmiss Hrun) as [Hc _].
      split; [|done]. by apply (cache_typed_same _ _ Hc).
  - rewrite (getUserStats_hit _ _ _ _ _ Hhit). simpl. split; [done|].
    intros ? [= <-]. by apply (getFromCache_typed_user_stats username includePrivate w).
Qed.

Lemma getLanguageStats_typed username includePrivate w :
  cache_typed w →
  cache_typed (snd (getLanguageStats octokit username includePrivate w)) ∧
  (∀ v, fst (getLanguageStats octokit username includePrivate w) = Ok v →
        ∃ l, v = VLanguageStats l).
Proof.
  intros Hty.
  destruct (getLanguageStats_fresh_cases username includePrivate w) as [Hmiss | [v Hhit]].
  - pose proof (checkAuthenticatedUser_typed username w Hty) as [_ Hty1].
    destruct (getLanguageStats octokit username includePrivate w) as [[v|e] w'] eqn:Hrun; simpl.
    + destruct (getLanguageStats_miss_inv _ _ _ _ _ _ Hmiss Hrun) as (? & ? & ? & _ & _ & Hv).
      pose proof (getLanguageStats_miss_stores _ _ _ _ _ _ Hmiss Hrun) as Hc.
      split; [|intros ? [= <-]; eauto].
      rewrite Hv in Hc. by apply (cache_typed_lang_stats _ _ _ _ _ _ Hc).
    + destruct (getLanguageStats_miss_throws _ _ _ _ _ _ Hmiss Hrun) as [Hc _].
      split; [|done]. by apply (cache_typed_same _ _ Hc).
  - rewrite (getLanguageStats_hit _ _ _ _ _ Hhit). simpl. split; [done|].
    intros ? [= <-]. by apply (getFromCache_typed_lang_stats username includePrivate w).
Qed.

End Typed.

(** X1: each kind of cache key only ever holds one kind of value, and the
    aggregations keep it so.  From a cache of that shape the identity check
    does not throw, [getUserStats] returns a [UserStats] and
    [getLanguageStats] a [LanguageStats], served from the cache or not. *)
Theorem cache_stays_typed octokit username includePrivate (w : World) :
  cache_typed w →
  cache_typed (snd (getUserStats octokit username includePrivate w)) ∧
  cache_typed (snd (getLanguageStats octokit username includePrivate w)) ∧
  (∃ b, fst (checkAuthenticatedUser octokit username w) = Ok b) ∧
  (∀ v, fst (getUserStats octokit username includePrivate w) = Ok v → ∃ s, v = VUserStats s) ∧
  (∀ v, fst (getLanguageStats octokit username includePrivate w) = Ok v →
        ∃ l, v = VLanguageStats l).
Proof.
  intros Hty.
  destruct (getUserStats_typed octokit username includePrivate w Hty) as [H1 H2].
  destruct (getLanguageStats_typed octokit username includePrivate w Hty) as [H3 H4].
  destruct (checkAuthenticatedUser_typed octokit username w Hty) as [H5 _].
  done.
Qed.

Lemma cache_stays_typed_witness :
  cache_typed (snd (getLanguageStats (sample_octokit []) "alice" true
                      (snd (getUserStats (sample_octokit []) "alice" true cold_start)))).
Proof.
  apply cache_stays_typed. apply cache_stays_typed. apply cache_typed_cold_start.
Defined.

(** ** Writes and later reads of the cache *)

(** X2: [setCache] touches one key and nothing else: any other key reads as
    before, at any later time; of two writes to a key the last one is read;
    no request is issued and the clock does not move. *)
Theorem setCache_frame (key key' : string) (v v' : any) (w : World) (dt : Z) :
  key' ≠ key →
  fst (getFromCache key' (elapse dt (snd (setCache key v w))))
    = fst (getFromCache key' (elapse dt w)) ∧
  snd (setCache key v' (snd (setCache key v w))) = snd (setCache key v' w) ∧
  calls (snd (setCache key v w)) = calls w ∧
  clock (snd (setCache key v w)) = clock w.
Proof.
  intros Hne. rewrite !getFromCache_run.
  unfold setCache, cache_set, Date_now, elapse, mbind, M_bind. simpl.
  rewrite lookup_insert_ne by done. rewrite insert_insert_eq. done.
Qed.

Lemma setCache_frame_witness :
  fst (getFromCache "auth-user"
         (elapse 5 (snd (setCache (userStatsKey "alice" false) (VUser alice)
                           (snd (setCache "auth-user" (VUser owner) cold_start))))))
  = Ok (Some (VUser owner)).
Proof.
  etransitivity.
  - apply (setCache_frame (userStatsKey "alice" false) "auth-user" (VUser alice) (VUser alice)).
    done.
  - reflexivity.
Defined.

Lemma getFromCache_after_insert key v w' (c : gmap string CacheEntry) dt :
  cache w' = <[key := {| data := v; timestamp := clock w' |}]> c →
  fst (getFromCache key (elapse dt w'))
  = Ok (if bool_decide (dt < CACHE_DURATION) then Some v else None).
Proof.
  intros Hc. rewrite getFromCache_run. simpl. rewrite Hc, lookup_insert_eq. simpl.
  replace (clock w' + dt - clock w') with dt by lia. by case_bool_decide.
Qed.

(** X3: what [getUserStats] computed is served from the cache for the next
    hour: a call less than [CACHE_DURATION] after a returning run that
    missed the cache returns the same value, whatever the remote API would
    answer by then, and leaves the world as it is: no request, no write, no
    warning.  From [CACHE_DURATION] on, the entry is not read any more. *)
Theorem getUserStats_served_from_cache octokit octokit' username includePrivate w v w' dt :
  fst (getFromCache (userStatsKey username includePrivate) w) = Ok None →
  getUserStats octokit username includePrivate w = (Ok v, w') →
  (dt < CACHE_DURATION →
   getUserStats octokit' username includePrivate (elapse dt w') = (Ok v, elapse dt w')) ∧
  (CACHE_DURATION ≤ dt →
   fst (getFromCache (userStatsKey username includePrivate) (elapse dt w')) = Ok None).
Proof.
  intros Hmiss Hrun.
  pose proof (getUserStats_miss_stores _ _ _ _ _ _ Hmiss Hrun) as Hc.
  pose proof (getFromCache_after_insert _ _ _ _ dt Hc) as Hget.
  split; intros Hdt.
  - apply getUserStats_hit. rewrite Hget. by rewrite bool_decide_eq_true_2.
  - rewrite Hget. rewrite bool_decide_eq_false_2; [done|lia].
Qed.

Lemma getUserStats_served_from_cache_witness :
  getUserStats (sample_octokit []) "alice" false cold_start
  = (Ok (VUserStats {|
       st_username := "alice"; st_name := "alice"; totalStars := 15; totalForks := 1;
       totalRepos := 2; publicRepos := 5; privateRepos := 0; st_followers := 1;
       st_following := 2; totalCommits := 2; totalIssues := 0; totalPRs := 0 |}),
     snd (getUserStats (sample_octokit []) "alice" false cold_start)) ∧
  fst (getFromCache (userStatsKey "alice" false)
         (elapse 3600000 (snd (getUserStats (sample_octokit []) "alice" false cold_start))))
  = Ok None.
Proof.
  split; [reflexivity|].
  apply (getUserStats_served_from_cache (sample_octokit []) (sample_octokit [])
           "alice" false cold_start _ _ 3600000 eq_refl eq_refl).
  unfold CACHE_DURATION. lia.
Defined.

(** X4: likewise what [getLanguageStats] computed: a call less than
    [CACHE_DURATION] after a returning run that missed the cache returns
    the same mapping, whatever the remote API would answer by then,
    without a request, a write or a warning; from [CACHE_DURATION] on, the
    entry is not read any more. *)
Theorem getLanguageStats_served_from_cache octokit octokit' username includePrivate w v w' dt :
  fst (getFromCache (langStatsKey username includePrivate) w) = Ok None →
  getLanguageStats octokit username includePrivate w = (Ok v, w') →
  (dt < CACHE_DURATION →
   getLanguageStats octokit' username includePrivate (elapse dt w') = (Ok v, elapse dt w')) ∧
  (CACHE_DURATION ≤ dt →
   fst (getFromCache (langStatsKey username includePrivate) (elapse dt w')) = Ok None).
Proof.
  intros Hmiss Hrun.
  pose proof (getLanguageStats_miss_stores _ _ _ _ _ _ Hmiss Hrun) as Hc.
  pose proof (getFromCache_after_insert _ _ _ _ dt Hc) as Hget.
  split; intros Hdt.
  - apply getLanguageStats_hit. rewrite Hget. by rewrite bool_decide_eq_true_2.
  - rewrite Hget. rewrite bool_decide_eq_false_2; [done|lia].
Qed.

Lemma getLanguageStats_served_from_cache_witness :
  getLanguageStats (with_search_commits (λ _, Rejected "down") (sample_octokit []))
    "alice" true
    (elapse 3599999 (snd (getLanguageStats (sample_octokit []) "alice" true cold_start)))
  = (Ok (VLanguageStats []),
     elapse 3599999 (snd (getLanguageStats (sample_octokit []) "alice" true cold_start))).
Proof.
  apply (getLanguageStats_served_from_cache (sample_octokit []) _
           "alice" true cold_start _ _ 3599999 eq_refl eq_refl).
  unfold CACHE_DURATION. lia.
Defined.

(** ** What an aggregation writes *)

Section Frame.

Variable octokit : Octokit.

Lemma checkAuthenticatedUser_frame username w key :
  key ≠ "auth-user" →
  cache (snd (checkAuthenticatedUser octokit username w)) !! key = cache w !! key.
Proof.
  intros Hk.
  destruct (checkAuthenticatedUser_cache octokit username w) as [-> | (u & _ & _ & ->)];
    [done|]. by rewrite lookup_insert_ne.
Qed.

Lemma getUserStats_cache_cases username includePrivate w :
  let w' := snd (getUserStats octokit username includePrivate w) in
  let w1 := snd (checkAuthenticatedUser octokit username w) in
  cache w' = cache w ∨ cache w' = cache w1 ∨
  ∃ v, fst (getUserStats octokit username includePrivate w) = Ok v ∧
       cache w' = <[userStatsKey username includePrivate :=
                      {| data := v; timestamp := clock w' |}]> (cache w1).
Proof.
  simpl.
  destruct (getUserStats_fresh_cases username includePrivate w) as [Hmiss | [v Hhit]].
  - destruct (getUserStats octokit username includePrivate w) as [[v|e] w'] eqn:Hrun; simpl.
    + right. right. exists v. split; [done|]. by apply getUserStats_miss_stores.
    + right. left. by destruct (getUserStats_miss_throws _ _ _ _ _ _ Hmiss Hrun).
  - left. by rewrite (getUserStats_hit _ _ _ _ _ Hhit).
Qed.

Lemma getLanguageStats_cache_cases username includePrivate w :
  let w' := snd (getLanguageStats octokit username includePrivate w) in
  let w1 := snd (checkAuthenticatedUser octokit username w) in
  cache w' = cache w ∨ cache w' = cache w1 ∨
  ∃ v, fst (getLanguageStats octokit username includePrivate w) = Ok v ∧
       cache w' = <[langStatsKey username includePrivate :=
                      {| data := v; timestamp := clock w' |}]> (cache w1).
Proof.
  simpl.
  destruct (getLanguageStats_fresh_cases username includePrivate w) as [Hmiss | [v Hhit]].
  - destruct (getLanguageStats octokit username includePrivate w) as [[v|e] w'] eqn:Hrun; simpl.
    + right. right. exists v. split; [done|]. by apply getLanguageStats_miss_stores.
    + right. left. by destruct (getLanguageStats_miss_throws _ _ _ _ _ _ Hmiss Hrun).
  - left. by rewrite (getLanguageStats_hit _ _ _ _ _ Hhit).
Qed.

Lemma getUserStats_frame username includePrivate w key :
  key ≠ "auth-user" → key ≠ userStatsKey username includePrivate →
  cache (snd (getUserStats octokit username includePrivate w)) !! key = cache w !! key.
Proof.
  intros Ha Hk.
  destruct (getUserStats_cache_cases username includePrivate w)
    as [-> | [-> | (v & _ & ->)]]; [done| |rewrite lookup_insert_ne by done];
    by apply checkAuthenticatedUser_frame.
Qed.

Lemma getLanguageStats_frame username includePrivate w key :
  key ≠ "auth-user" → key ≠ langStatsKey username includePrivate →
  cache (snd (getLanguageStats octokit username includePrivate w)) !! key = cache w !! key.
Proof.
  intros Ha Hk.
  destruct (getLanguageStats_cache_cases username includePrivate w)
    as [-> | [-> | (v & _ & ->)]]; [done| |rewrite lookup_insert_ne by done];
    by apply checkAuthenticatedUser_frame.
Qed.

Lemma getUserStats_throw_keeps_entry username includePrivate w e key :
  fst (getUserStats octokit username includePrivate w) = Throw e →
  key ≠ "auth-user" →
  cache (snd (getUserStats octokit username includePrivate w)) !! key = cache w !! key.
Proof.
  intros Hthrow Ha.
  destruct (getUserStats_cache_cases username includePrivate w)
    as [-> | [-> | (v & Hv & _)]]; [done| |congruence].
  by apply checkAuthenticatedUser_frame.
Qed.

Lemma getLanguageStats_throw_keeps_entry username includePrivate w e key :
  fst (getLanguageStats octokit username includePrivate w) = Throw e →
  key ≠ "auth-user" →
  cache (snd (getLanguageStats octokit username includePrivate w)) !! key = cache w !! key.
Proof.
  intros Hthrow Ha.
  destruct (getLanguageStats_cache_cases username includePrivate w)
    as [-> | [-> | (v & Hv & _)]]; [done| |congruence].
  by apply checkAuthenticatedUser_frame.
Qed.

End Frame.

(** X5: an aggregation writes to the cache under its own key and under
    ["auth-user"] only: every other entry, those of other users, of the
    other visibility and of the other aggregation included, is left as it
    was; and a run that throws stores nothing under its own key either, so
    that an entry there, expired or not, is not lost to a failure. *)
Theorem aggregations_write_own_keys octokit username includePrivate (w : World) (key : string) :
  key ≠ "auth-user" →
  (key ≠ userStatsKey username includePrivate →
   cache (snd (getUserStats octokit username includePrivate w)) !! key = cache w !! key) ∧
  (key ≠ langStatsKey username includePrivate →
   cache (snd (getLanguageStats octokit username includePrivate w)) !! key = cache w !! key) ∧
  (∀ e, fst (getUserStats octokit username includePrivate w) = Throw e →
        cache (snd (getUserStats octokit username includePrivate w)) !! key = cache w !! key) ∧
  (∀ e, fst (getLanguageStats octokit username includePrivate w) = Throw e →
        cache (snd (getLanguageStats octokit username includePrivate w)) !! key = cache w !! key).
Proof.
  intros Ha. split; [|split; [|split]].
  - intros Hk. by apply getUserStats_frame.
  - intros Hk. by apply getLanguageStats_frame.
  - intros e He. by apply (getUserStats_throw_keeps_entry _ _ _ _ e).
  - intros e He. by apply (getLanguageStats_throw_keeps_entry _ _ _ _ e).
Qed.

Lemma aggregations_write_own_keys_witness :
  cache (snd (getUserStats (sample_octokit []) "alice" true cold_start))
    !! userStatsKey "alice" false = None.
Proof.
  etransitivity.
  - apply (aggregations_write_own_keys (sample_octokit []) "alice" true cold_start
             (userStatsKey "alice" false)); done.
  - reflexivity.
Defined.

(** ** What makes an aggregation fail *)

Section Errors.

Variable octokit : Octokit.

Lemma getUserStats_miss_rejected username includePrivate w isAuthenticatedUser e :
  fst (getFromCache (userStatsKey username includePrivate) w) = Ok None →
  fst (checkAuthenticatedUser octokit username w) = Ok isAuthenticatedUser →
  users_getByUsername octokit username = Rejected e ∨
  (∃ user, users_getByUsername octokit username = Resolved user) ∧
  (if (includePrivate && isAuthenticatedUser)%bool
   then repos_listForAuthenticatedUser octokit
   else repos_listForUser octokit username) = Rejected e →
  fst (getUserStats octokit username includePrivate w) = Throw e.
Proof.
  intros Hmiss Hauth Hrej.
  destruct (getUserStats octokit username includePrivate w) as [[v|e'] w'] eqn:Hrun; simpl.
  - destruct (getUserStats_miss_inv _ _ _ _ _ _ Hmiss Hrun)
      as (b & w1 & user & repos & Hauth' & Huser & Hrepos & _).
    rewrite Hauth' in Hauth. injection Hauth as ->.
    destruct Hrej as [Hrej | [_ Hrej]]; congruence.
  - destruct (getUserStats_miss_throws _ _ _ _ _ _ Hmiss Hrun) as [_ [Hth | (b & Hb & Hcases)]];
      [congruence|].
    rewrite Hb in Hauth. injection Hauth as ->.
    destruct Hrej as [Hrej | [[user Huser] Hrej]], Hcases as [Hc | [[user' Huser'] Hc]];
      congruence.
Qed.

Lemma getLanguageStats_miss_rejected username includePrivate w isAuthenticatedUser e :
  fst (getFromCache (langStatsKey username includePrivate) w) = Ok None →
  fst (checkAuthenticatedUser octokit username w) = Ok isAuthenticatedUser →
  (if (includePrivate && isAuthenticatedUser)%bool
   then repos_listForAuthenticatedUser octokit
   else repos_listForUser octokit username) = Rejected e →
  fst (getLanguageStats octokit username includePrivate w) = Throw e.
Proof.
  intros Hmiss Hauth Hrej.
  destruct (getLanguageStats octokit username includePrivate w) as [[v|e'] w'] eqn:Hrun; simpl.
  - destruct (getLanguageStats_miss_inv _ _ _ _ _ _ Hmiss Hrun)
      as (b & w1 & repos & Hauth' & Hrepos & _).
    rewrite Hauth' in Hauth. injection Hauth as ->. congruence.
  - destruct (getLanguageStats_miss_throws _ _ _ _ _ _ Hmiss Hrun) as [_ [Hth | (b & Hb & Hc)]];
      [congruence|].
    rewrite Hb in Hauth. injection Hauth as ->. congruence.
Qed.

End Errors.

(** X6: what makes [getUserStats] fail.  On a cache of the right shapes,
    a run that misses the cache throws exactly when the profile request is
    rejected or, the profile found, the listing request is rejected, and
    it throws that error unchanged; neither the identity check nor any of
    the three searches can make it throw. *)
Theorem getUserStats_throws_iff octokit username includePrivate (w : World) :
  cache_typed w →
  fst (getFromCache (userStatsKey username includePrivate) w) = Ok None →
  ∃ isAuthenticatedUser,
    fst (checkAuthenticatedUser octokit username w) = Ok isAuthenticatedUser ∧
    ∀ e, fst (getUserStats octokit username includePrivate w) = Throw e ↔
         users_getByUsername octokit username = Rejected e ∨
         (∃ user, users_getByUsername octokit username = Resolved user) ∧
         (if (includePrivate && isAuthenticatedUser)%bool
          then repos_listForAuthenticatedUser octokit
          else repos_listForUser octokit username) = Rejected e.
Proof.
  intros Hty Hmiss.
  destruct (checkAuthenticatedUser_typed octokit username w Hty) as [[isAuth Hauth] _].
  exists isAuth. split; [done|]. intros e. split.
  - intros Hthrow.
    destruct (getUserStats octokit username includePrivate w) as [r w'] eqn:Hrun.
    simpl in Hthrow. subst r.
    destruct (getUserStats_miss_throws _ _ _ _ _ _ Hmiss Hrun) as [_ [Hth | (b & Hb & Hcases)]];
      [congruence|].
    rewrite Hb in Hauth. by injection Hauth as ->.
  - by apply getUserStats_miss_rejected.
Qed.

Lemma getUserStats_throws_iff_witness :
  fst (getUserStats (sample_octokit []) "bob" true cold_start) = Throw "Not Found".
Proof.
  destruct (getUserStats_throws_iff (sample_octokit []) "bob" true cold_start
              cache_typed_cold_start eq_refl) as (isAuth & _ & H).
  apply H. left. reflexivity.
Defined.

(** X7: what makes [getLanguageStats] fail.  On a cache of the right
    shapes, a run that misses the cache throws exactly when the listing
    request is rejected, with that error; when the listing answers it
    returns a mapping, however many of the per-repository language
    requests fail. *)
Theorem getLanguageStats_throws_iff octokit username includePrivate (w : World) :
  cache_typed w →
  fst (getFromCache (langStatsKey username includePrivate) w) = Ok None →
  ∃ isAuthenticatedUser,
    fst (checkAuthenticatedUser octokit username w) = Ok isAuthenticatedUser ∧
    (∀ e, fst (getLanguageStats octokit username includePrivate w) = Throw e ↔
          (if (includePrivate && isAuthenticatedUser)%bool
           then repos_listForAuthenticatedUser octokit
           else repos_listForUser octokit username) = Rejected e) ∧
    (∀ repos,
       (if (includePrivate && isAuthenticatedUser)%bool
        then repos_listForAuthenticatedUser octokit
        else repos_listForUser octokit username) = Resolved repos →
       fst (getLanguageStats octokit username includePrivate w)
       = Ok (VLanguageStats (sortedPercentages (accumulatedLanguages octokit repos)))).
Proof.
  intros Hty Hmiss.
  destruct (checkAuthenticatedUser_typed octokit username w Hty) as [[isAuth Hauth] _].
  exists isAuth. split; [done|].
  assert (∀ e, fst (getLanguageStats octokit username includePrivate w) = Throw e →
               (if (includePrivate && isAuth)%bool
                then repos_listForAuthenticatedUser octokit
                else repos_listForUser octokit username) = Rejected e) as Hthrows.
  { intros e Hthrow.
    destruct (getLanguageStats octokit username includePrivate w) as [r w'] eqn:Hrun.
    simpl in Hthrow. subst r.
    destruct (getLanguageStats_miss_throws _ _ _ _ _ _ Hmiss Hrun)
      as [_ [Hth | (b & Hb & Hc)]]; [congruence|].
    rewrite Hb in Hauth. by injection Hauth as ->. }
  split.
  - intros e. split; [apply Hthrows|]. by apply getLanguageStats_miss_rejected.
  - intros repos Hrepos.
    destruct (getLanguageStats octokit username includePrivate w) as [[v|e] w'] eqn:Hrun; simpl.
    + destruct (getLanguageStats_miss_inv _ _ _ _ _ _ Hmiss Hrun)
        as (b & w1 & repos' & Hauth' & Hrepos' & ->).
      rewrite Hauth' in Hauth. injection Hauth as ->. congruence.
    + specialize (Hthrows e eq_refl). congruence.
Qed.

Lemma getLanguageStats_throws_iff_witness :
  fst (getLanguageStats (sample_octokit []) "bob" false cold_start) = Throw "Not Found" ∧
  fst (getLanguageStats (sample_octokit []) "alice" false cold_start) = Ok (VLanguageStats []).
Proof.
  split.
  - destruct (getLanguageStats_throws_iff (sample_octokit []) "bob" false cold_start
                cache_typed_cold_start eq_refl) as (isAuth & _ & H & _).
    apply H. reflexivity.
  - destruct (getLanguageStats_throws_iff (sample_octokit []) "alice" false cold_start
                cache_typed_cold_start eq_refl) as (isAuth & _ & _ & H).
    apply (H [repo1; repo2]). reflexivity.
Defined.

(** ** The handler *)

Section Handler.

Variable octokit : Octokit.

(** The aggregation that a path runs, if any. *)
Lemma handler_run req w :
  method req ≠ "OPTIONS" →
  handler octokit req w =
  let username := handler_username req in
  let includePrivate := handler_includePrivate req in
  let respond (wrap : any → Body) (ct : string) (run : Outcome any * World) :=
    match run with
    | (Ok v, w') => (Ok {| status := 200; contentType := Some ct;
                           cacheControl := Some "public, max-age=3600"; body := wrap v |}, w')
    | (Throw e, w') => (Ok {| status := 500; contentType := Some "application/json";
                              cacheControl := None; body := JsonError e |}, w')
    end in
  if bool_decide (pathname req = "/stats") then
    respond StatsSVG "image/svg+xml" (getUserStats octokit username includePrivate w)
  else if bool_decide (pathname req = "/languages") then
    respond LanguagesSVG "image/svg+xml" (getLanguageStats octokit username includePrivate w)
  else if bool_decide (pathname req = "/api/stats") then
    respond Json "application/json" (getUserStats octokit username includePrivate w)
  else if bool_decide (pathname req = "/api/languages") then
    respond Json "application/json" (getLanguageStats octokit username includePrivate w)
  else (Ok {| status := 404; contentType := Some "application/json";
              cacheControl := None; body := JsonError "Not found" |}, w).
Proof.
  intros Hm. unfold handler. rewrite bool_decide_eq_false_2 by done.
  unfold try_catch. cbv zeta.
  repeat case_bool_decide; unfold mbind, M_bind, mret, M_ret;
    try (by destruct (getUserStats _ _ _ _) as [[]]);
    try (by destruct (getLanguageStats _ _ _ _) as [[]]); done.
Qed.

End Handler.

(** X8: the handler answers every request: it never throws, whatever the
    remote API does.  The status is 200, 404 or 500; it is 500 exactly
    when the aggregation of the route threw, and the body then carries the
    message of that error.  [Cache-Control] is set on the answers of the
    four routes and on nothing else: neither an error nor the answer to
    [OPTIONS] is marked cacheable. *)
Theorem handler_always_responds octokit (req : Request) (w : World) :
  ∃ r, fst (handler octokit req w) = Ok r ∧
    (status r = 200 ∨ status r = 404 ∨ status r = 500) ∧
    (status r = 500 ↔
       ∃ e, body r = JsonError e ∧ method req ≠ "OPTIONS" ∧
         ((pathname req = "/stats" ∨ pathname req = "/api/stats") ∧
          fst (getUserStats octokit (handler_username req) (handler_includePrivate req) w)
          = Throw e ∨
          (pathname req = "/languages" ∨ pathname req = "/api/languages") ∧
          fst (getLanguageStats octokit (handler_username req) (handler_includePrivate req) w)
          = Throw e)) ∧
    (cacheControl r = Some "public, max-age=3600" ↔ status r = 200 ∧ method req ≠ "OPTIONS") ∧
    (status r ≠ 200 → contentType r = Some "application/json" ∧ ∃ m, body r = JsonError m).
Proof.
  destruct (decide (method req = "OPTIONS")) as [Hm|Hm].
  { unfold handler. rewrite bool_decide_eq_true_2 by done. eexists. split; [done|].
    simpl. naive_solver. }
  rewrite handler_run by done. cbv zeta.
  destruct (getUserStats _ _ _ _) as [[v|e] w'];
    destruct (getLanguageStats _ _ _ _) as [[v'|e'] w''];
    repeat case_bool_decide;
    (eexists; split; [reflexivity|]); simpl; naive_solver.
Qed.

(** X9: a request that is not one of the four routes costs nothing: the
    answer to [OPTIONS], on any path, and the 404 of an unknown path are
    given without a request to the remote API and without touching the
    cache; on a route, the handler changes the world as the aggregation of
    that route does, and not otherwise.  Any method other than [OPTIONS]
    is served as [GET] is. *)
Theorem handler_effects octokit (req : Request) (w : World) :
  let username := handler_username req in
  let includePrivate := handler_includePrivate req in
  (method req = "OPTIONS" →
   handler octokit req w
   = (Ok {| status := 200; contentType := None; cacheControl := None; body := NullBody |}, w)) ∧
  (method req ≠ "OPTIONS" →
   pathname req ∉ ["/stats"; "/languages"; "/api/stats"; "/api/languages"] →
   handler octokit req w
   = (Ok {| status := 404; contentType := Some "application/json"; cacheControl := None;
            body := JsonError "Not found" |}, w)) ∧
  (method req ≠ "OPTIONS" → pathname req = "/stats" ∨ pathname req = "/api/stats" →
   snd (handler octokit req w) = snd (getUserStats octokit username includePrivate w)) ∧
  (method req ≠ "OPTIONS" → pathname req = "/languages" ∨ pathname req = "/api/languages" →
   snd (handler octokit req w) = snd (getLanguageStats octokit username includePrivate w)) ∧
  (∀ req', method req ≠ "OPTIONS" → method req' ≠ "OPTIONS" →
     pathname req' = pathname req → searchParams req' = searchParams req →
     handler octokit req' w = handler octokit req w).
Proof.
  cbv zeta. split; [|split; [|split; [|split]]].
  - intros Hm. unfold handler. by rewrite bool_decide_eq_true_2.
  - intros Hm Hp. rewrite handler_run by done. cbv zeta.
    rewrite !not_elem_of_cons in Hp. destruct Hp as (? & ? & ? & ? & _).
    by rewrite !bool_decide_eq_false_2.
  - intros Hm Hp. rewrite handler_run by done. cbv zeta.
    destruct Hp as [Hp | Hp]; rewrite Hp; simpl;
      by destruct (getUserStats _ _ _ _) as [[]].
  - intros Hm Hp. rewrite handler_run by done. cbv zeta.
    destruct Hp as [Hp | Hp]; rewrite Hp; simpl;
      by destruct (getLanguageStats _ _ _ _) as [[]].
  - intros req' Hm Hm' Hp Hs. rewrite !handler_run by done.
    unfold handler_username, handler_includePrivate. by rewrite Hp, Hs.
Qed.

(** X10: the card and the JSON of the user statistics are two views of one
    cache entry.  After either of [/stats] and [/api/stats] has answered
    200 on a cache miss, either of them, asked less than [CACHE_DURATION]
    later for the same user and visibility, renders the very same value
    without a request to the remote API, whatever that API would answer. *)
Theorem stats_routes_share_cache octokit octokit' (req req' : Request) (w : World) r w' dt :
  method req ≠ "OPTIONS" → method req' ≠ "OPTIONS" →
  pathname req = "/stats" ∨ pathname req = "/api/stats" →
  pathname req' = "/stats" ∨ pathname req' = "/api/stats" →
  handler_username req' = handler_username req →
  handler_includePrivate req' = handler_includePrivate req →
  fst (getFromCache (userStatsKey (handler_username req) (handler_includePrivate req)) w)
  = Ok None →
  handler octokit req w = (Ok r, w') →
  status r = 200 →
  dt < CACHE_DURATION →
  ∃ v r', (body r = StatsSVG v ∨ body r = Json v) ∧
          handler octokit' req' (elapse dt w') = (Ok r', elapse dt w') ∧
          status r' = 200 ∧
          (body r' = StatsSVG v ∨ body r' = Json v).
Proof.
  intros Hm Hm' Hp Hp' Hu Hi Hmiss Hrun Hst Hdt.
  rewrite handler_run in Hrun by done. cbv zeta in Hrun.
  assert (∃ v, getUserStats octokit (handler_username req) (handler_includePrivate req) w
               = (Ok v, w') ∧ (body r = StatsSVG v ∨ body r = Json v)) as (v & Hagg & Hbody).
  { destruct Hp as [Hp | Hp]; rewrite Hp in Hrun; simpl in Hrun;
      destruct (getUserStats _ _ _ _) as [[v|e] w1]; injection Hrun as <- <-;
      try done; exists v; simpl; eauto. }
  exists v.
  assert (getUserStats octokit' (handler_username req) (handler_includePrivate req)
            (elapse dt w') = (Ok v, elapse dt w')) as Hhit.
  { apply getUserStats_hit.
    rewrite (getFromCache_after_insert _ v w' _ dt
               (getUserStats_miss_stores _ _ _ _ _ _ Hmiss Hagg)).
    by rewrite bool_decide_eq_true_2. }
  rewrite handler_run by done. cbv zeta. rewrite Hu, Hi, Hhit.
  destruct Hp' as [Hp' | Hp']; rewrite Hp'; simpl; eexists; eauto.
Qed.

Lemma stats_routes_share_cache_witness :
  let req := {| method := "GET"; pathname := "/stats";
                searchParams := [("username", "alice")] |} in
  let req' := {| method := "GET"; pathname := "/api/stats";
                 searchParams := [("private", "no"); ("username", "alice")] |} in
  let w' := snd (handler (sample_octokit []) req cold_start) in
  ∃ v r', handler (with_search_commits (λ _, Rejected "down") (sample_octokit [])) req'
            (elapse 3599999 w') = (Ok r', elapse 3599999 w') ∧
          status r' = 200 ∧ (body r' = StatsSVG v ∨ body r' = Json v).
Proof.
  cbv zeta.
  pose proof (stats_routes_share_cache (sample_octokit [])
                (with_search_commits (λ _, Rejected "down") (sample_octokit []))
                {| method := "GET"; pathname := "/stats";
                   searchParams := [("username", "alice")] |}
                {| method := "GET"; pathname := "/api/stats";
                   searchParams := [("private", "no"); ("username", "alice")] |}
                cold_start _ _ 3599999
                ltac:(done) ltac:(done) (or_introl eq_refl) (or_intror eq_refl)
                eq_refl eq_refl eq_refl eq_refl eq_refl
                ltac:(unfold CACHE_DURATION; lia))
    as (v & r' & _ & Hrun & Hst & Hbody).
  exists v, r'. split; [exact Hrun|]. split; [exact Hst|exact Hbody].
Defined.

(** X11: likewise the card and the JSON of the languages: after either of
    [/languages] and [/api/languages] has answered 200 on a cache miss,
    either of them, asked less than [CACHE_DURATION] later for the same
    user and visibility, renders the same mapping without a request to
    the remote API. *)
Theorem languages_routes_share_cache octokit octokit' (req req' : Request) (w : World) r w' dt :
  method req ≠ "OPTIONS" → method req' ≠ "OPTIONS" →
  pathname req = "/languages" ∨ pathname req = "/api/languages" →
  pathname req' = "/languages" ∨ pathname req' = "/api/languages" →
  handler_username req' = handler_username req →
  handler_includePrivate req' = handler_includePrivate req →
  fst (getFromCache (langStatsKey (handler_username req) (handler_includePrivate req)) w)
  = Ok None →
  handler octokit req w = (Ok r, w') →
  status r = 200 →
  dt < CACHE_DURATION →
  ∃ v r', (body r = LanguagesSVG v ∨ body r = Json v) ∧
          handler octokit' req' (elapse dt w') = (Ok r', elapse dt w') ∧
          status r' = 200 ∧
          (body r' = LanguagesSVG v ∨ body r' = Json v).
Proof.
  intros Hm Hm' Hp Hp' Hu Hi Hmiss Hrun Hst Hdt.
  rewrite handler_run in Hrun by done. cbv zeta in Hrun.
  assert (∃ v, getLanguageStats octokit (handler_username req) (handler_includePrivate req) w
               = (Ok v, w') ∧ (body r = LanguagesSVG v ∨ body r = Json v))
    as (v & Hagg & Hbody).
  { destruct Hp as [Hp | Hp]; rewrite Hp in Hrun; simpl in Hrun;
      destruct (getLanguageStats _ _ _ _) as [[v|e] w1]; injection Hrun as <- <-;
      try done; exists v; simpl; eauto. }
  exists v.
  assert (getLanguageStats octokit' (handler_username req) (handler_includePrivate req)
            (elapse dt w') = (Ok v, elapse dt w')) as Hhit.
  { apply getLanguageStats_hit.
    rewrite (getFromCache_after_insert _ v w' _ dt
               (getLanguageStats_miss_stores _ _ _ _ _ _ Hmiss Hagg)).
    by rewrite bool_decide_eq_true_2. }
  rewrite handler_run by done. cbv zeta. rewrite Hu, Hi, Hhit.
  destruct Hp' as [Hp' | Hp']; rewrite Hp'; simpl; eexists; eauto.
Qed.

Lemma languages_routes_share_cache_witness :
  let octokit := sample_octokit [("A", 300%float); ("B", 700%float)] in
  let req := {| method := "GET"; pathname := "/api/languages";
                searchParams := [("username", "alice"); ("private", "true")] |} in
  let req' := {| method := "GET"; pathname := "/languages";
                 searchParams := [("private", "true"); ("username", "alice")] |} in
  let w' := snd (handler octokit req cold_start) in
  ∃ v r', handler (sample_octokit []) req' (elapse 0 w') = (Ok r', elapse 0 w') ∧
          status r' = 200 ∧ (body r' = LanguagesSVG v ∨ body r' = Json v).
Proof.
  cbv zeta.
  pose proof (languages_routes_share_cache
                (sample_octokit [("A", 300%float); ("B", 700%float)]) (sample_octokit [])
                {| method := "GET"; pathname := "/api/languages";
                   searchParams := [("username", "alice"); ("private", "true")] |}
                {| method := "GET"; pathname := "/languages";
                   searchParams := [("private", "true"); ("username", "alice")] |}
                cold_start _ _ 0
                ltac:(done) ltac:(done) (or_intror eq_refl) (or_introl eq_refl)
                eq_refl eq_refl eq_refl eq_refl eq_refl
                ltac:(unfold CACHE_DURATION; lia))
    as (v & r' & _ & Hrun & Hst & Hbody).
  exists v, r'. split; [exact Hrun|]. split; [exact Hst|exact Hbody].
Defined.

(** ** The identity check *)

Section Identity.

Variable octokit : Octokit.

Lemma checkAuthenticatedUser_cached username w authUser :
  fst (getFromCache "auth-user" w) = Ok (Some (VUser authUser)) →
  checkAuthenticatedUser octokit username w
  = (Ok (bool_decide (toLowerCase (login authUser) = toLowerCase username)), w).
Proof.
  rewrite getFromCache_run. intros [= Hget]. unfold checkAuthenticatedUser.
  unfold mbind at 1, M_bind at 1. rewrite getFromCache_run, Hget. done.
Qed.

Lemma checkAuthenticatedUser_resolved username w authUser :
  fst (getFromCache "auth-user" w) = Ok None →
  users_getAuthenticated octokit = Resolved authUser →
  checkAuthenticatedUser octokit username w
  = (Ok (bool_decide (toLowerCase (login authUser) = toLowerCase username)),
     snd (setCache "auth-user" (VUser authUser) (requested octokit UsersGetAuthenticated w))).
Proof.
  rewrite getFromCache_run. intros [= Hget] Hres. unfold checkAuthenticatedUser.
  unfold mbind at 1, M_bind at 1. rewrite getFromCache_run, Hget.
  unfold_M. by rewrite Hres.
Qed.

Lemma checkAuthenticatedUser_rejected username w e :
  fst (getFromCache "auth-user" w) = Ok None →
  users_getAuthenticated octokit = Rejected e →
  checkAuthenticatedUser octokit username w
  = (Ok false, warned "Could not get authenticated user:"
                 (requested octokit UsersGetAuthenticated w)).
Proof.
  rewrite getFromCache_run. intros [= Hget] Hres. unfold checkAuthenticatedUser.
  unfold mbind at 1, M_bind at 1. rewrite getFromCache_run, Hget.
  unfold_M. by rewrite Hres.
Qed.

Lemma checkAuthenticatedUser_true username w :
  fst (checkAuthenticatedUser octokit username w) = Ok true →
  ∃ authUser,
    toLowerCase (login authUser) = toLowerCase username ∧
    (fst (getFromCache "auth-user" w) = Ok (Some (VUser authUser)) ∨
     fst (getFromCache "auth-user" w) = Ok None ∧
     users_getAuthenticated octokit = Resolved authUser).
Proof.
  destruct (fst (getFromCache "auth-user" w)) as [[[u|s|l]|]|e] eqn:Hget.
  - rewrite (checkAuthenticatedUser_cached _ _ _ Hget). simpl. intros [= H].
    apply bool_decide_eq_true in H. exists u. eauto.
  - rewrite getFromCache_run in Hget. injection Hget as Hget.
    unfold checkAuthenticatedUser. unfold mbind at 1, M_bind at 1.
    by rewrite getFromCache_run, Hget.
  - rewrite getFromCache_run in Hget. injection Hget as Hget.
    unfold checkAuthenticatedUser. unfold mbind at 1, M_bind at 1.
    by rewrite getFromCache_run, Hget.
  - destruct (users_getAuthenticated octokit) as [authUser|e] eqn:Hres.
    + rewrite (checkAuthenticatedUser_resolved _ _ _ Hget Hres). simpl. intros [= H].
      apply bool_decide_eq_true in H. exists authUser. eauto.
    + by rewrite (checkAuthenticatedUser_rejected _ _ _ Hget Hres).
  - by rewrite getFromCache_run in Hget.
Qed.

End Identity.



(** X13: a failure of the identity request is not remembered and does not
    fail the caller: the check answers false with one warning and the
    cache as it was, so that the next check asks again; and the listing
    that follows is the public one, also with [includePrivate] true. *)
Theorem identity_check_failure_degrades octokit username includePrivate (w : World) e :
  fst (getFromCache "auth-user" w) = Ok None →
  users_getAuthenticated octokit = Rejected e →
  let w1 := snd (checkAuthenticatedUser octokit username w) in
  fst (checkAuthenticatedUser octokit username w) = Ok false ∧
  cache w1 = cache w ∧
  issued w w1 = [UsersGetAuthenticated] ∧
  warnings w1 = (warnings w ++ ["Could not get authenticated user:"])%list ∧
  (fst (getFromCache (langStatsKey username includePrivate) w) = Ok None →
   ∃ rest, issued w (snd (getLanguageStats octokit username includePrivate w))
           = (UsersGetAuthenticated :: ReposListForUser username :: rest)%list ∧
           Forall (λ c, is_listing c = false) rest).
Proof.
  intros Hmiss Hres. cbv zeta.
  pose proof (checkAuthenticatedUser_rejected octokit username w e Hmiss Hres) as Hrun.
  rewrite Hrun. simpl. split; [done|]. split; [done|]. split; [by apply issued_app|].
  split; [done|]. intros Hl.
  pose proof (getLanguageStats_issued octokit username includePrivate w) as H.
  simpl in H. rewrite Hl, Hrun in H. simpl in H.
  destruct H as (rest & Hrest & Hissued). exists rest. split; [|done].
  rewrite Hissued. rewrite (issued_app w _ [UsersGetAuthenticated]) by done.
  unfold listing. by rewrite andb_false_r.
Qed.

Lemma identity_check_failure_degrades_witness :
  let octokit :=
    {| users_getAuthenticated := Rejected "Bad credentials";
       users_getByUsername := users_getByUsername (sample_octokit []);
       repos_listForAuthenticatedUser := Resolved [];
       repos_listForUser := repos_listForUser (sample_octokit []);
       search_commits := search_commits (sample_octokit []);
       search_issues := search_issues (sample_octokit []);
       repos_listLanguages := repos_listLanguages (sample_octokit []);
       round_trip := λ _, 7 |} in
  fst (checkAuthenticatedUser octokit "Owner" cold_start) = Ok false ∧
  cache (snd (checkAuthenticatedUser octokit "Owner" cold_start)) = ∅.
Proof.
  cbv zeta.
  match goal with |- fst (checkAuthenticatedUser ?o _ _) = _ ∧ _ =>
    destruct (identity_check_failure_degrades o "Owner" true cold_start "Bad credentials"
                eq_refl eq_refl) as (H1 & H2 & _)
  end.
  split; [exact H1|exact H2].
Defined.



(** ** Forks and the languages that are reported *)

Lemma for_of_skip {S A} (skip : A → bool) (body : A → M S unit) (xs : list A) (s : S) :
  for_of xs (λ x, if skip x then mret tt else body x) s
  = for_of (List.filter (λ x, negb (skip x)) xs) (λ x, if skip x then mret tt else body x) s.
Proof.
  revert s. induction xs as [|x xs IH]; intros s; [done|].
  simpl. destruct (skip x) eqn:Hx; simpl.
  - unfold mbind, M_bind, mret, M_ret. apply IH.
  - unfold mbind, M_bind. rewrite Hx. destruct (body x s) as [[[]|e] s']; [apply IH|done].
Qed.

Lemma obj_set_keys k k' v (o : Obj) :
  k ∈ map fst (obj_set k' v o) ↔ k = k' ∨ k ∈ map fst o.
Proof.
  unfold obj_set. destruct (obj_get k' o) eqn:Hget.
  - rewrite obj_replace_keys. split; [by right|]. intros [-> | H]; [|done].
    destruct (decide (k' ∈ map fst o)) as [Hin|Hnin]; [done|].
    apply obj_get_None in Hnin. congruence.
  - destruct (array_index k') as [i|].
    + rewrite obj_add_index_perm. simpl. by rewrite elem_of_cons.
    + rewrite map_app, elem_of_app. simpl. rewrite list_elem_of_singleton. naive_solver.
Qed.

Lemma addLanguages_keys k (repoLanguages languages : Obj) :
  k ∈ map fst (addLanguages repoLanguages languages)
  ↔ k ∈ map fst repoLanguages ∨ k ∈ map fst languages.
Proof.
  unfold addLanguages. revert languages.
  induction repoLanguages as [|[lang bytes] rest IH]; intros languages; simpl.
  - rewrite elem_of_nil. naive_solver.
  - rewrite IH, obj_set_keys, elem_of_cons. naive_solver.
Qed.

(** X15: forks are left out of the language statistics altogether: the
    loop behaves on a list of repositories as on the list without its
    forks (same mapping, same requests, same warnings, same clock); it
    issues one request per repository that is not a fork, and it never
    throws. *)
Theorem collectLanguages_skips_forks octokit (repos : list Repo) (w : World) :
  collectLanguages octokit repos w
  = collectLanguages octokit (List.filter (λ repo, negb (fork repo)) repos) w ∧
  fst (collectLanguages octokit repos w) = Ok (accumulatedLanguages octokit repos) ∧
  issued w (snd (collectLanguages octokit repos w))
  = map (λ repo, ReposListLanguages (owner_login repo) (repo_name repo))
        (List.filter (λ repo, negb (fork repo)) repos).
Proof.
  split; [|split].
  - unfold collectLanguages, with_locals.
    by rewrite (for_of_skip fork).
  - by destruct (collectLanguages_run octokit repos w) as (w' & -> & _).
  - destruct (collectLanguages_run octokit repos w) as (w' & -> & _ & Hcalls).
    by apply issued_app.
Qed.

(** X16: the languages of the result are those that some repository
    reports: a name is a key of the accumulated mapping exactly when it is
    a key of the answer of the language request of some repository of the
    list that is not a fork; a repository whose request fails adds none.
    The name [__proto__] is left aside: a runtime started with the
    accessor of that name on [Object.prototype] does not define it by an
    assignment. *)
Theorem accumulatedLanguages_keys octokit (repos : list Repo) (lang : string) :
  lang ≠ "__proto__" →
  lang ∈ map fst (accumulatedLanguages octokit repos) ↔
  ∃ repo repoLanguages,
    repo ∈ repos ∧ fork repo = false ∧
    repos_listLanguages octokit (owner_login repo) (repo_name repo) = Resolved repoLanguages ∧
    lang ∈ map fst repoLanguages.
Proof.
  intros _. unfold accumulatedLanguages.
  assert (∀ acc : Obj,
    lang ∈ map fst (fold_left (λ languages repo,
      if fork repo then languages
      else match repos_listLanguages octokit (owner_login repo) (repo_name repo) with
           | Resolved repoLanguages => addLanguages repoLanguages languages
           | Rejected _ => languages
           end) repos acc) ↔
    lang ∈ map fst acc ∨
    ∃ repo repoLanguages,
      repo ∈ repos ∧ fork repo = false ∧
      repos_listLanguages octokit (owner_login repo) (repo_name repo) = Resolved repoLanguages ∧
      lang ∈ map fst repoLanguages) as H.
  { induction repos as [|repo repos IH]; intros acc; simpl.
    - split; [by left|]. intros [H | (repo & rl & Hin & _)]; [done|].
      by apply elem_of_nil in Hin.
    - rewrite IH. clear IH.
      assert (lang ∈ map fst
                (if fork repo then acc
                 else match repos_listLanguages octokit (owner_login repo) (repo_name repo) with
                      | Resolved repoLanguages => addLanguages repoLanguages acc
                      | Rejected _ => acc
                      end)
              ↔ lang ∈ map fst acc ∨
                ∃ repoLanguages, fork repo = false ∧
                  repos_listLanguages octokit (owner_login repo) (repo_name repo)
                  = Resolved repoLanguages ∧ lang ∈ map fst repoLanguages) as ->.
      { destruct (fork repo).
        - split; [by left|]. by intros [? | (? & ? & _)].
        - destruct (repos_listLanguages octokit (owner_login repo) (repo_name repo))
            as [rl|e].
          + rewrite addLanguages_keys. split.
            * intros [? | ?]; [right; by exists rl|by left].
            * intros [? | (rl' & _ & [= <-] & ?)]; [by right|by left].
          + split; [by left|]. by intros [? | (? & _ & ? & _)]. }
      split.
      + intros [[? | (rl & ? & ? & ?)] | (r & rl & ? & ? & ? & ?)].
        * by left.
        * right. exists repo, rl. split; [by left|done].
        * right. exists r, rl. split; [by right|done].
      + intros [? | (r & rl & [-> | ?]%elem_of_cons & ? & ? & ?)].
        * left. by left.
        * left. right. by exists rl.
        * right. by exists r, rl. }
  rewrite H. simpl. rewrite elem_of_nil. naive_solver.
Qed.

Lemma accumulatedLanguages_keys_witness :
  "B" ∈ map fst (accumulatedLanguages
                   (sample_octokit [("A", 300%float); ("B", 700%float)]) [repo1; repo2]).
Proof.
  apply accumulatedLanguages_keys; [done|].
  exists repo1, [("A", 300%float); ("B", 700%float)].
  split; [apply elem_of_cons; by left|]. split; [reflexivity|]. split; [reflexivity|].
  apply elem_of_cons. right. apply elem_of_cons. by left.
Defined.

(** ** The repository counts *)

(** X17: with [includePrivate] true the two repository counts split the
    list that was fetched: every repository is counted as public or as
    private, never as both, so that [publicRepos + privateRepos =
    totalRepos]; and none of the counters of a computed result is
    negative. *)
Theorem repo_counts_partition octokit username (w : World) s w' :
  fst (getFromCache (userStatsKey username true) w) = Ok None →
  getUserStats octokit username true w = (Ok (VUserStats s), w') →
  publicRepos s + privateRepos s = totalRepos s ∧
  0 ≤ publicRepos s ∧ 0 ≤ privateRepos s ∧
  0 ≤ totalCommits s ∧ 0 ≤ totalIssues s ∧ 0 ≤ totalPRs s.
Proof.
  intros Hmiss Hrun.
  destruct (getUserStats_miss_inv _ _ _ _ _ _ Hmiss Hrun)
    as (isAuth & w1 & user & repos & _ & _ & _ & [= ->] & _).
  simpl. split; [|split; [lia|split; [lia|split; [|split]]]].
  - assert (∀ l : list Repo,
              (length (List.filter (λ repo, negb (private repo)) l)
               + length (List.filter (λ repo, private repo) l))%nat = length l) as H.
    { induction l as [|r l IH]; simpl; [done|]. destruct (private r); simpl; lia. }
    specialize (H repos). lia.
  - destruct (search_commits octokit _); lia.
  - destruct (search_issues octokit _); lia.
  - destruct (search_issues octokit _); [|lia]. destruct (search_issues octokit _); lia.
Qed.

Lemma repo_counts_partition_witness :
  let s := {| st_username := "alice"; st_name := "alice"; totalStars := 15; totalForks := 1;
              totalRepos := 2; publicRepos := 2; privateRepos := 0; st_followers := 1;
              st_following := 2; totalCommits := 2; totalIssues := 0; totalPRs := 0 |} in
  fst (getUserStats (sample_octokit []) "alice" true cold_start) = Ok (VUserStats s) ∧
  publicRepos s + privateRepos s = totalRepos s.
Proof.
  cbv zeta. split; [reflexivity|].
  apply (repo_counts_partition (sample_octokit []) "alice" cold_start _ _ eq_refl eq_refl).
Defined.

(** ** Cache keys *)

Lemma userStatsKey_inj u1 u2 p1 p2 :
  userStatsKey u1 p1 = userStatsKey u2 p2 → u1 = u2 ∧ p1 = p2.
Proof.
  intros H. pose proof (userStatsKey_inj_username _ _ _ _ H) as ->. split; [done|].
  unfold userStatsKey in H. apply (inj (String.append _)) in H.
  destruct p1, p2; try done.
  - by apply private_suffix_ne_public_suffix in H.
  - symmetry in H. by apply private_suffix_ne_public_suffix in H.
Qed.

Lemma langStatsKey_inj u1 u2 p1 p2 :
  langStatsKey u1 p1 = langStatsKey u2 p2 → u1 = u2 ∧ p1 = p2.
Proof.
  intros H. pose proof (langStatsKey_inj_username _ _ _ _ H) as ->. split; [done|].
  unfold langStatsKey in H. apply (inj (String.append _)) in H.
  destruct p1, p2; try done.
  - by apply private_suffix_ne_public_suffix in H.
  - symmetry in H. by apply private_suffix_ne_public_suffix in H.
Qed.

(** X18: no two results share a cache entry.  The key of an aggregation
    determines the username, letter for letter, and the visibility: a
    username that itself ends in [-private] or [-public] cannot be taken
    for another one; and the keys of the two aggregations and the key of
    the identity check are apart from each other. *)
Theorem cache_keys_apart (u1 u2 : string) (p1 p2 : bool) :
  (userStatsKey u1 p1 = userStatsKey u2 p2 ↔ u1 = u2 ∧ p1 = p2) ∧
  (langStatsKey u1 p1 = langStatsKey u2 p2 ↔ u1 = u2 ∧ p1 = p2) ∧
  userStatsKey u1 p1 ≠ langStatsKey u2 p2 ∧
  userStatsKey u1 p1 ≠ "auth-user" ∧
  langStatsKey u1 p1 ≠ "auth-user".
Proof.
  split; [|split; [|done]].
  - split; [apply userStatsKey_inj|]. by intros [-> ->].
  - split; [apply langStatsKey_inj|]. by intros [-> ->].
Qed.

(** ** The scheduled refresh *)

Lemma refreshJob_run octokit w :
  refreshJob octokit w =
  match getUserStats octokit "elyor04" true w with
  | (Ok _, w1) =>
      match getLanguageStats octokit "elyor04" true w1 with
      | (Ok _, w2) => (Ok tt, w2)
      | (Throw e, w2) => (Throw e, w2)
      end
  | (Throw e, w1) => (Throw e, w1)
  end.
Proof.
  unfold refreshJob, mbind, M_bind, mret, M_ret.
  destruct (getUserStats _ _ _ _) as [[v|e] w1]; [|done].
  by destruct (getLanguageStats _ _ _ _) as [[v'|e] w2].
Qed.

Lemma refreshJob_frame octokit w key :
  key ≠ "auth-user" → key ≠ userStatsKey "elyor04" true → key ≠ langStatsKey "elyor04" true →
  cache (snd (refreshJob octokit w)) !! key = cache w !! key.
Proof.
  intros Ha Hu Hl. rewrite refreshJob_run.
  pose proof (getUserStats_frame octokit "elyor04" true w key Ha Hu) as H1.
  destruct (getUserStats octokit "elyor04" true w) as [[v|e] w1]; simpl in H1; [|done].
  pose proof (getLanguageStats_frame octokit "elyor04" true w1 key Ha Hl) as H2.
  destruct (getLanguageStats octokit "elyor04" true w1) as [[v'|e] w2]; simpl in *; congruence.
Qed.

(** X19: the scheduled job refreshes the private variants for the fixed
    account and nothing else: besides ["auth-user"] it writes under the two
    keys [user-stats-elyor04-private] and [lang-stats-elyor04-private]
    only.  The entries that a request without [private=true] reads, for
    any username, are never written by it.  When the first aggregation
    throws, the job throws that error and the language entry is left as it
    was. *)
Theorem refreshJob_writes_private_keys_only octokit (w : World) :
  (∀ key, key ∉ ["auth-user"; userStatsKey "elyor04" true; langStatsKey "elyor04" true] →
          cache (snd (refreshJob octokit w)) !! key = cache w !! key) ∧
  (∀ req, handler_includePrivate req = false →
     cache (snd (refreshJob octokit w))
       !! userStatsKey (handler_username req) (handler_includePrivate req)
     = cache w !! userStatsKey (handler_username req) (handler_includePrivate req) ∧
     cache (snd (refreshJob octokit w))
       !! langStatsKey (handler_username req) (handler_includePrivate req)
     = cache w !! langStatsKey (handler_username req) (handler_includePrivate req)) ∧
  (∀ e, fst (getUserStats octokit "elyor04" true w) = Throw e →
        fst (refreshJob octokit w) = Throw e ∧
        cache (snd (refreshJob octokit w)) !! langStatsKey "elyor04" true
        = cache w !! langStatsKey "elyor04" true).
Proof.
  split; [|split].
  - intros key Hkey. rewrite !not_elem_of_cons in Hkey. destruct Hkey as (? & ? & ? & _).
    by apply refreshJob_frame.
  - intros req ->. split; apply refreshJob_frame; try done.
    + intros [_ [=]]%userStatsKey_inj.
    + intros [_ [=]]%langStatsKey_inj.
  - intros e He. rewrite refreshJob_run.
    pose proof (getUserStats_throw_keeps_entry octokit "elyor04" true w e
                  (langStatsKey "elyor04" true) He) as Hk.
    destruct (getUserStats octokit "elyor04" true w) as [[v|e'] w1]; simpl in *; [done|].
    injection He as ->. split; [done|]. by apply Hk.
Qed.

(** ** The language card *)

Lemma StronglySorted_app_rel {A} (R : A → A → Prop) (l1 l2 : list A) x y :
  StronglySorted R (l1 ++ l2)%list → x ∈ l1 → y ∈ l2 → R x y.
Proof.
  induction l1 as [|a l1 IH]; simpl; intros Hs Hx Hy.
  - by apply elem_of_nil in Hx.
  - apply StronglySorted_inv in Hs as [Hs Ha].
    apply elem_of_cons in Hx as [-> | Hx]; [|by apply IH].
    rewrite List.Forall_forall in Ha. apply Ha. apply in_or_app. right.
    by apply list_elem_of_In.
Qed.

Lemma colors_get_nonempty lang c : colors_get lang colors = Some c → c ≠ "".
Proof.
  unfold colors. simpl. repeat (case_bool_decide; [by intros [= <-]|]). done.
Qed.

Lemma colors_get_inherited lang : lang ∈ Object_prototype → colors_get lang colors = None.
Proof.
  unfold Object_prototype. rewrite !elem_of_cons, elem_of_nil.
  intros H. repeat (destruct H as [-> | H]; [reflexivity|]). done.
Qed.

(** X20: the card shows the first eight entries of the mapping, in its
    order, one row of 40 units each under a header of 45: its height is
    [45 + 40 * min(8, n)], between 45 and 365, and every row lies within
    what the height leaves under the header.  A language of the colour
    table gets its colour; a name that is a property of [Object.prototype]
    gets the text of that property, not the grey; any other one gets the
    grey [#858585]; no colour is the empty string. *)
Theorem generateLanguagesSVG_rows (languages : Obj) :
  let card := generateLanguagesSVG languages in
  map (λ row, (row_lang row, row_percent row)) (card_rows card)
    = take 8 (Object_entries languages) ∧
  card_height card = 45 + 40 * Z.of_nat (Nat.min 8 (length languages)) ∧
  45 ≤ card_height card ≤ 365 ∧
  (∀ i row, card_rows card !! i = Some row →
     row_y row = 40 * Z.of_nat i ∧ row_y row + 40 ≤ card_height card - 45 ∧
     row_x row = card_width card - 80 ∧
     (∀ c, colors_get (row_lang row) colors = Some c → row_fill row = Colour c) ∧
     (row_lang row ∈ Object_prototype → row_fill row = Inherited (row_lang row)) ∧
     (colors_get (row_lang row) colors = None → row_lang row ∉ Object_prototype →
      row_fill row = Colour "#858585") ∧
     (∀ c, row_fill row = Colour c → c ≠ "")).
Proof.
  cbv zeta. unfold generateLanguagesSVG, Object_entries.
  cbn [card_height card_rows card_width].
  split; [|split; [|split]].
  - apply list_eq. intros i. rewrite list_lookup_fmap, list_lookup_imap.
    by destruct (take 8 languages !! i) as [[lang percent]|].
  - rewrite length_take. lia.
  - rewrite length_take. lia.
  - intros i row Hrow. apply list_lookup_imap_Some in Hrow as ([lang percent] & Hi & ->).
    cbn [row_y row_x row_fill row_lang]. apply lookup_lt_Some in Hi.
    rewrite length_take in Hi |- *.
    split; [lia|]. split; [lia|]. split; [done|].
    unfold colors_or_grey. split; [|split; [|split]].
    + intros c Hc. rewrite Hc. apply colors_get_nonempty in Hc.
      by rewrite bool_decide_eq_false_2.
    + intros Hin. rewrite (colors_get_inherited _ Hin). by rewrite bool_decide_eq_true_2.
    + intros -> Hnin. by rewrite bool_decide_eq_false_2.
    + intros c. destruct (colors_get lang colors) as [c'|] eqn:Hc.
      * apply colors_get_nonempty in Hc. rewrite bool_decide_eq_false_2 by done.
        by intros [= <-].
      * case_bool_decide; [done|]. by intros [= <-].
Qed.

(** X21: on a mapping in descending order, as [getLanguageStats] returns
    it, the eight rows of the card are the eight largest shares: no entry
    that is left out exceeds one that is shown. *)
Theorem generateLanguagesSVG_shows_largest (languages : Obj) row lang percent :
  StronglySorted (λ x y, (snd y <=? snd x)%float = true) (Object_entries languages) →
  row ∈ card_rows (generateLanguagesSVG languages) →
  (lang, percent) ∈ drop 8 (Object_entries languages) →
  (percent <=? row_percent row)%float = true.
Proof.
  intros Hsorted Hrow Hout.
  rewrite <- (take_drop 8 (Object_entries languages)) in Hsorted.
  unfold generateLanguagesSVG in Hrow. cbn [card_rows] in Hrow.
  apply list_elem_of_lookup in Hrow as [i Hrow].
  apply list_lookup_imap_Some in Hrow as ([lang' percent'] & Hi & ->).
  apply list_elem_of_lookup_2 in Hi. cbn [row_percent].
  apply (StronglySorted_app_rel _ _ _ (lang', percent') (lang, percent) Hsorted Hi Hout).
Qed.

(** ** The requests of a call *)

Section Budget.

Variable octokit : Octokit.

Lemma getUserStats_miss_calls username includePrivate w :
  fst (getFromCache (userStatsKey username includePrivate) w) = Ok None →
  ∃ tr, calls (snd (getUserStats octokit username includePrivate w))
        = (calls (snd (checkAuthenticatedUser octokit username w)) ++ tr)%list ∧
        (length tr ≤ 5)%nat.
Proof.
  intros Hmiss. unfold getUserStats.
  unfold mbind at 1, M_bind at 1.
  destruct (getFromCache _ w) as [[[c|]|] w0] eqn:Hc; simpl in Hmiss; try discriminate.
  clear Hmiss. rewrite getFromCache_run in Hc. injection Hc as _ <-.
  unfold mbind at 1, M_bind at 1.
  destruct (checkAuthenticatedUser octokit username w) as [[isAuth|e1] w1] eqn:Hauth.
  2: { exists []. simpl. split; [by rewrite app_nil_r|lia]. }
  simpl. unfold mbind at 1, M_bind at 1, await at 1.
  destruct (users_getByUsername octokit username) as [user|e1] eqn:Huser.
  2: { eexists. simpl. split; [done|]. simpl. lia. }
  unfold mbind at 1, M_bind at 1, listRepos, await.
  destruct (includePrivate && isAuth)%bool eqn:Hb;
    [destruct (repos_listForAuthenticatedUser octokit) as [repos|e1] eqn:Hrepos
    |destruct (repos_listForUser octokit username) as [repos|e1] eqn:Hrepos].
  2,4: eexists; simpl; rewrite <- app_assoc; split; [done|]; simpl; lia.
  all: unfold mbind at 1, M_bind at 1; rewrite countCommits_run;
  unfold mbind at 1, M_bind at 1;
  pose proof (countIssuesAndPRs_run octokit username) as Hip; simpl in Hip;
  destruct (search_commits octokit _) as [commits|?];
  rewrite Hip; clear Hip;
  destruct (search_issues octokit ("author:" +:+ username +:+ " type:issue")) as [issues|?];
  try destruct (search_issues octokit ("author:" +:+ username +:+ " type:pr")) as [prs|?];
  unfold_M; simpl; eexists; rewrite <- !app_assoc; (split; [done|]); simpl; lia.
Qed.

Lemma getLanguageStats_miss_calls username includePrivate w isAuthenticatedUser repos :
  fst (getFromCache (langStatsKey username includePrivate) w) = Ok None →
  fst (checkAuthenticatedUser octokit username w) = Ok isAuthenticatedUser →
  (if (includePrivate && isAuthenticatedUser)%bool
   then repos_listForAuthenticatedUser octokit
   else repos_listForUser octokit username) = Resolved repos →
  calls (snd (getLanguageStats octokit username includePrivate w))
  = (calls (snd (checkAuthenticatedUser octokit username w))
       ++ listing username includePrivate isAuthenticatedUser :: languageCalls repos)%list.
Proof.
  intros Hmiss Hauth Hrepos. unfold getLanguageStats.
  unfold mbind at 1, M_bind at 1.
  destruct (getFromCache _ w) as [[[c|]|] w0] eqn:Hc; simpl in Hmiss; try discriminate.
  clear Hmiss. rewrite getFromCache_run in Hc. injection Hc as _ <-.
  unfold mbind at 1, M_bind at 1.
  destruct (checkAuthenticatedUser octokit username w) as [[isAuth|e1] w1] eqn:Hauth';
    simpl in Hauth; [|done]. injection Hauth as ->.
  simpl. unfold mbind at 1, M_bind at 1, listRepos, listing, await.
  destruct (includePrivate && isAuthenticatedUser)%bool; rewrite Hrepos;
    unfold mbind at 1, M_bind at 1;
    match goal with |- context [collectLanguages octokit ?rs ?w2] =>
      destruct (collectLanguages_run octokit rs w2) as (w3 & Hcl & _ & Hcalls)
    end;
    rewrite Hcl; unfold_M; simpl; rewrite Hcalls; simpl; by rewrite <- app_assoc.
Qed.

End Budget.

(** X22: what a call can cost, in calls to the client (a paginated
    listing or search counts as one).  [getUserStats] never issues more
    than six, and none when the cache answers; [getLanguageStats], when it
    computes, issues the identity request if the owner is not cached, one
    listing and one language request for each repository of the list that
    is not a fork, in the order of the list. *)
Theorem request_budget octokit username includePrivate (w : World) :
  (length (issued w (snd (getUserStats octokit username includePrivate w))) ≤ 6)%nat ∧
  (∀ v, fst (getFromCache (userStatsKey username includePrivate) w) = Ok (Some v) →
        issued w (snd (getUserStats octokit username includePrivate w)) = []) ∧
  (∀ v, fst (getFromCache (langStatsKey username includePrivate) w) = Ok (Some v) →
        issued w (snd (getLanguageStats octokit username includePrivate w)) = []) ∧
  (∀ v, fst (getFromCache (langStatsKey username includePrivate) w) = Ok None →
        fst (getLanguageStats octokit username includePrivate w) = Ok v →
        ∃ isAuthenticatedUser repos,
          fst (checkAuthenticatedUser octokit username w) = Ok isAuthenticatedUser ∧
          (if (includePrivate && isAuthenticatedUser)%bool
           then repos_listForAuthenticatedUser octokit
           else repos_listForUser octokit username) = Resolved repos ∧
          issued w (snd (getLanguageStats octokit username includePrivate w))
          = (issued w (snd (checkAuthenticatedUser octokit username w))
               ++ listing username includePrivate isAuthenticatedUser
               :: map (λ repo, ReposListLanguages (owner_login repo) (repo_name repo))
                      (List.filter (λ repo, negb (fork repo)) repos))%list).
Proof.
  split; [|split; [|split]].
  - destruct (getUserStats_fresh_cases username includePrivate w) as [Hmiss | [v Hhit]].
    + destruct (getUserStats_miss_calls octokit username includePrivate w Hmiss)
        as (tr & Hcalls & Hlen).
      destruct (checkAuthenticatedUser_calls octokit username w) as (tr0 & Htr0 & Hcases).
      rewrite Htr0, <- app_assoc in Hcalls. rewrite (issued_app _ _ _ Hcalls).
      rewrite length_app. destruct Hcases as [-> | ->]; simpl; lia.
    + rewrite (getUserStats_hit _ _ _ _ _ Hhit). simpl. rewrite issued_refl. simpl. lia.
  - intros v Hhit. rewrite (getUserStats_hit _ _ _ _ _ Hhit). apply issued_refl.
  - intros v Hhit. rewrite (getLanguageStats_hit _ _ _ _ _ Hhit). apply issued_refl.
  - intros v Hmiss Hrun.
    destruct (getLanguageStats octokit username includePrivate w) as [r w'] eqn:Hrun'.
    simpl in Hrun. subst r.
    destruct (getLanguageStats_miss_inv _ _ _ _ _ _ Hmiss Hrun')
      as (isAuth & w1 & repos & Hauth & Hrepos & _).
    exists isAuth, repos.
    assert (fst (checkAuthenticatedUser octokit username w) = Ok isAuth) as Hauth1
      by (by rewrite Hauth).
    split; [done|]. split; [done|].
    pose proof (getLanguageStats_miss_calls octokit username includePrivate w isAuth repos
                  Hmiss Hauth1 Hrepos) as Hcalls.
    rewrite Hrun' in Hcalls. simpl in Hcalls |- *.
    destruct (checkAuthenticatedUser_issued octokit username w) as [Hc _]. simpl in Hc.
    rewrite Hc, <- app_assoc in Hcalls. by apply issued_app.
Qed.

Lemma generateLanguagesSVG_shows_largest_witness :
  let languages : Obj :=
    [("Go", 30); ("C", 20); ("Rust", 15); ("Java", 10); ("Ruby", 9); ("PHP", 7);
     ("Dart", 4); ("CSS", 3); ("Shell", 2)]%float in
  drop 8 (Object_entries languages) = [("Shell", 2%float)] ∧
  (2 <=? 30)%float = true.
Proof.
  cbv zeta. split; [reflexivity|].
  apply (generateLanguagesSVG_shows_largest
           [("Go", 30); ("C", 20); ("Rust", 15); ("Java", 10); ("Ruby", 9); ("PHP", 7);
            ("Dart", 4); ("CSS", 3); ("Shell", 2)]%float
           {| row_y := 0; row_fill := Colour "#00ADD8"; row_lang := "Go"; row_x := 220;
              row_percent := 30 |}
           "Shell" 2%float).
  - repeat (constructor; [|repeat (constructor; [reflexivity|]); constructor]).
    constructor.
  - apply elem_of_cons. left. reflexivity.
  - apply elem_of_cons. left. reflexivity.
Defined.

(** ** The order of the listing *)

Lemma checkAuthenticatedUser_with_listings f octokit username w :
  checkAuthenticatedUser (with_listings f octokit) username w
  = checkAuthenticatedUser octokit username w.
Proof. reflexivity. Qed.

Lemma fold_add_permutation {A} (g : A → Z) (l l' : list A) (a : Z) :
  l ≡ₚ l' → fold_left (λ sum x, sum + g x) l a = fold_left (λ sum x, sum + g x) l' a.
Proof.
  intros Hp. revert a. induction Hp as [|x l l' _ IH|x y l|l l' l'' _ IH1 _ IH2]; intros a; simpl.
  - done.
  - apply IH.
  - f_equal. lia.
  - by rewrite IH1.
Qed.

Lemma filter_length_permutation {A} (p : A → bool) (l l' : list A) :
  l ≡ₚ l' → length (List.filter p l) = length (List.filter p l').
Proof.
  intros Hp. induction Hp as [|x l l' _ IH|x y l|l l' l'' _ IH1 _ IH2]; simpl.
  - done.
  - destruct (p x); simpl; by rewrite IH.
  - by destruct (p x), (p y).
  - by rewrite IH1.
Qed.

Section Order.

Variable octokit : Octokit.

Lemma getUserStats_miss_check_throws username includePrivate w e :
  fst (getFromCache (userStatsKey username includePrivate) w) = Ok None →
  fst (checkAuthenticatedUser octokit username w) = Throw e →
  fst (getUserStats octokit username includePrivate w) = Throw e.
Proof.
  intros Hmiss Hauth.
  destruct (getUserStats octokit username includePrivate w) as [[v|e'] w'] eqn:Hrun; simpl.
  - destruct (getUserStats_miss_inv _ _ _ _ _ _ Hmiss Hrun) as (b & w1 & ? & ? & Hauth' & _).
    rewrite Hauth' in Hauth. done.
  - destruct (getUserStats_miss_throws _ _ _ _ _ _ Hmiss Hrun) as [_ [Hth | (b & Hb & _)]];
      congruence.
Qed.

End Order.



(** ** Expiry *)

(** X24: an entry that has expired stays expired: once [getFromCache]
    answers [null] for a key, it does so at any later time, until the key
    is set again; the clock alone never brings an entry back. *)
Theorem getFromCache_expiry_is_final (key : string) (w : World) (dt : Z) :
  0 ≤ dt →
  fst (getFromCache key w) = Ok None →
  fst (getFromCache key (elapse dt w)) = Ok None.
Proof.
  intros Hdt. rewrite !getFromCache_run. simpl.
  destruct (cache w !! key) as [entry|]; [|done].
  case_bool_decide as Hfresh; [done|]. intros _.
  rewrite bool_decide_eq_false_2; [done|lia].
Qed.

Lemma getFromCache_expiry_is_final_witness :
  fst (getFromCache "auth-user"
         (elapse 1 (elapse 3600000 (snd (setCache "auth-user" (VUser owner) cold_start)))))
  = Ok None.
Proof. apply getFromCache_expiry_is_final; [lia|reflexivity]. Defined.

(** ** Users other than the owner of the token *)

Section Strangers.

Variable octokit : Octokit.

Lemma getLanguageStats_miss_resolved username includePrivate w isAuthenticatedUser repos :
  fst (getFromCache (langStatsKey username includePrivate) w) = Ok None →
  fst (checkAuthenticatedUser octokit username w) = Ok isAuthenticatedUser →
  (if (includePrivate && isAuthenticatedUser)%bool
   then repos_listForAuthenticatedUser octokit
   else repos_listForUser octokit username) = Resolved repos →
  fst (getLanguageStats octokit username includePrivate w)
  = Ok (VLanguageStats (sortedPercentages (accumulatedLanguages octokit repos))).
Proof.
  intros Hmiss Hauth Hrepos.
  destruct (getLanguageStats octokit username includePrivate w) as [[v|e] w'] eqn:Hrun; simpl.
  - destruct (getLanguageStats_miss_inv _ _ _ _ _ _ Hmiss Hrun)
      as (b & w1 & repos' & Hauth' & Hrepos' & ->).
    rewrite Hauth' in Hauth. injection Hauth as ->. congruence.
  - destruct (getLanguageStats_miss_throws _ _ _ _ _ _ Hmiss Hrun)
      as [_ [Hth | (b & Hb & Hc)]]; [congruence|].
    rewrite Hb in Hauth. injection Hauth as ->. congruence.
Qed.

End Strangers.

(** X25: for anybody but the owner of the token, [private=true] changes
    nothing in the language statistics: when the identity check answers
    false, the runs with and without [includePrivate] that miss the cache
    return the same mapping, or throw the same error; the flag only
    decides under which key the result is stored. *)
Theorem language_stats_same_for_strangers octokit username (w : World) :
  fst (checkAuthenticatedUser octokit username w) = Ok false →
  fst (getFromCache (langStatsKey username true) w) = Ok None →
  fst (getFromCache (langStatsKey username false) w) = Ok None →
  fst (getLanguageStats octokit username true w)
  = fst (getLanguageStats octokit username false w).
Proof.
  intros Hauth Ht Hf.
  destruct (repos_listForUser octokit username) as [repos|e] eqn:Hrepos.
  - rewrite (getLanguageStats_miss_resolved octokit username true w false repos) by done.
    by rewrite (getLanguageStats_miss_resolved octokit username false w false repos).
  - rewrite (getLanguageStats_miss_rejected octokit username true w false e) by done.
    by rewrite (getLanguageStats_miss_rejected octokit username false w false e).
Qed.

Lemma language_stats_same_for_strangers_witness :
  fst (getLanguageStats (sample_octokit [("A", 300%float); ("B", 700%float)]) "alice" true
         cold_start)
  = fst (getLanguageStats (sample_octokit [("A", 300%float); ("B", 700%float)]) "alice" false
           cold_start).
Proof. apply language_stats_same_for_strangers; reflexivity. Defined.

(** ** Warnings of the language loop *)

(** X26: every failure that the language loop swallows leaves its trace:
    the loop adds one warning, naming the repository, for each repository
    that is not a fork and whose language request is rejected, in the
    order of the list, and no other warning. *)
Theorem collectLanguages_warnings octokit (repos : list Repo) (w : World) :
  warnings (snd (collectLanguages octokit repos w))
  = (warnings w
       ++ map (λ repo, "Could not fetch languages for " +:+ repo_name repo +:+ ":")
            (List.filter
               (λ repo, negb (fork repo) &&
                        match repos_listLanguages octokit (owner_login repo) (repo_name repo) with
                        | Resolved _ => false
                        | Rejected _ => true
                        end)
               repos))%list.
Proof.
  unfold collectLanguages, with_locals.
  generalize ([] : Obj). revert w.
  induction repos as [|repo repos IH]; intros w languages.
  - simpl. by rewrite app_nil_r.
  - simpl. unfold mbind at 1, M_bind at 1.
    destruct (fork repo); simpl.
    + apply IH.
    + unfold try_catch, mbind at 1, M_bind at 1, lift at 1, await.
      destruct (repos_listLanguages octokit _ _) as [repoLanguages|e].
      * rewrite add_languages_loop. simpl.
        apply (IH (requested octokit (ReposListLanguages (owner_login repo) (repo_name repo)) w)
                  (addLanguages repoLanguages languages)).
      * unfold lift, console_warn. simpl.
        specialize (IH (warned ("Could not fetch languages for " +:+ repo_name repo +:+ ":")
                          (requested octokit
                             (ReposListLanguages (owner_login repo) (repo_name repo)) w))
                       languages).
        simpl in IH. rewrite <- app_assoc in IH. exact IH.
Qed.
